(** * Minima hopping: the search-and-archive controller of [mh.py]

    A shallow embedding of the control logic of the [Minimahopping] class
    (src/src/python/mh.py) and of the restart check of
    minimahopping/mh/file_handling.py.

    Numbers.  Python floats are modelled as real numbers ([R]): no rounding,
    no overflow.  Comparisons of floats are the decidable comparisons of
    [R] ([Rlt_dec]), wrapped as booleans.  Python integers are [Z] or [nat].

    Exceptions.  A Python call that may raise returns a [result]: either
    [OK v] or [Raise e], with the exception classes the code can raise.

    External collaborators (the MD integrator, the optimiser, the energy
    calculator, the fingerprint calculator) are not part of the controller:
    a structure carries the energy and the descriptor that they would
    compute for it, and the escape loop is fed their successive outcomes.

    Shared objects.  The run stores deep copies of its structures, with one
    exception: on a restart with [start_lowest], [self._atoms] is bound to
    the structure object of the first record of the sorted archive.  The
    state records that sharing, and the in-place moves of [self._atoms] in
    the escape loop reach the record for as long as it lasts. *)

From Stdlib Require Import String.
From Stdlib Require Import Reals Lra Lia ZArith Bool Arith List Permutation.
Import ListNotations.
Local Open Scope string_scope.
Local Open Scope list_scope.
Local Open Scope R_scope.

(** ** Exceptions *)

Inductive exn : Type :=
| AssertionError (msg : string)
| ValueError (msg : string)
| IndexError (msg : string)
| NameError (msg : string)
| AttributeError (msg : string).

Inductive result (A : Type) : Type :=
| OK (a : A)
| Raise (e : exn).
Arguments OK {A} a.
Arguments Raise {A} e.

Definition bind {A B : Type} (m : result A) (k : A -> result B) : result B :=
  match m with
  | OK a => k a
  | Raise e => Raise e
  end.

Notation "x <- m ;; k" := (bind m (fun x => k))
  (at level 61, m at next level, right associativity).

Definition py_assert (b : bool) (msg : string) : result unit :=
  if b then OK tt else Raise (AssertionError msg).

Fixpoint mapM {A B : Type} (f : A -> result B) (l : list A) : result (list B) :=
  match l with
  | [] => OK []
  | x :: l' => y <- f x ;; ys <- mapM f l' ;; OK (y :: ys)
  end.

Fixpoint foldM {A S : Type} (f : S -> A -> result S) (l : list A) (s : S) : result S :=
  match l with
  | [] => OK s
  | x :: l' => s' <- f s x ;; foldM f l' s'
  end.

(** ** Float comparisons *)

Definition Rltb (x y : R) : bool := if Rlt_dec x y then true else false.

(** ** Descriptors (numpy arrays of dimension 1 or 2)

    A descriptor is a flat vector (global fingerprint) or a matrix of
    per-site rows (local fingerprint).  A matrix carries its column count,
    as a numpy array does in its shape, so that a matrix with no rows has a
    shape too. *)

Inductive ndarray : Type :=
| Vec (v : list R)
| Mat (ncols : nat) (rows : list (list R)).

Definition ndim (d : ndarray) : nat :=
  match d with
  | Vec _ => 1
  | Mat _ _ => 2
  end.

(** [d.shape] *)
Definition shape (d : ndarray) : list nat :=
  match d with
  | Vec v => [length v]
  | Mat c rows => [length rows; c]
  end.

(** [d.shape[0]] *)
Definition shape0 (d : ndarray) : nat :=
  match d with
  | Vec v => length v
  | Mat _ rows => length rows
  end.

(** numpy matrices are rectangular. *)
Definition well_shaped (d : ndarray) : Prop :=
  match d with
  | Vec _ => True
  | Mat c rows => Forall (fun r => length r = c) rows
  end.

(** ** numpy operations on 1-D arrays *)

Definition Rsum (l : list R) : R := fold_right Rplus 0 l.

(** [a - b] on 1-D arrays, with numpy's broadcasting: equal lengths, or
    one of the two of length 1; anything else raises ValueError. *)
Definition np_sub (a b : list R) : result (list R) :=
  if (length a =? length b)%nat then
    OK (map (fun p => fst p - snd p) (combine a b))
  else if (length a =? 1)%nat then
    OK (map (fun y => hd 0 a - y) b)
  else if (length b =? 1)%nat then
    OK (map (fun x => x - hd 0 b) a)
  else Raise (ValueError "operands could not be broadcast together").

(** [np.dot(a, b)] on 1-D arrays of the same length. *)
Definition np_dot (a b : list R) : R :=
  Rsum (map (fun p => fst p * snd p) (combine a b)).

(** [np.linalg.norm(a)] on a 1-D array: the 2-norm. *)
Definition np_linalg_norm (a : list R) : R :=
  sqrt (Rsum (map (fun x => x * x) a)).

(** ** scipy.optimize.linear_sum_assignment

    scipy's contract for a square cost matrix: row indices [0..n-1] and a
    permutation of the columns whose total cost is minimal.  The model
    searches all permutations and keeps the first one of least total cost;
    the theorems below rely on optimality only. *)

Fixpoint insert_everywhere (x : nat) (l : list nat) : list (list nat) :=
  match l with
  | [] => [[x]]
  | y :: l' => (x :: y :: l') :: map (cons y) (insert_everywhere x l')
  end.

Fixpoint permutations (l : list nat) : list (list nat) :=
  match l with
  | [] => [[]]
  | x :: l' => flat_map (insert_everywhere x) (permutations l')
  end.

(** [costmat[i, j]] *)
Definition entry (costmat : list (list R)) (i j : nat) : R :=
  nth j (nth i costmat []) 0.

(** [costmat[row_ind, col_ind].sum()] *)
Definition assignment_cost (costmat : list (list R)) (cols : list nat) : R :=
  Rsum (map (fun p => entry costmat (fst p) (snd p))
            (combine (seq 0 (length cols)) cols)).

Fixpoint argmin {A : Type} (f : A -> R) (best : A) (l : list A) : A :=
  match l with
  | [] => best
  | x :: l' => if Rltb (f x) (f best) then argmin f x l' else argmin f best l'
  end.

Definition linear_sum_assignment (costmat : list (list R)) : list nat * list nat :=
  let n := length costmat in
  (seq 0 n, argmin (assignment_cost costmat) (seq 0 n) (permutations (seq 0 n))).

(** ** The fingerprint distance engine *)

Definition mat_rows (d : ndarray) : list (list R) :=
  match d with
  | Vec v => map (fun x => [x]) v
  | Mat _ rows => rows
  end.

(** [Minimahopping._costmatrix] *)
Definition _costmatrix (desc1 desc2 : ndarray) : result (list (list R)) :=
  _ <- py_assert (shape0 desc1 =? shape0 desc2)%nat
         "descriptor has not the same length" ;;
  mapM (fun vec1 =>
          mapM (fun vec2 => d <- np_sub vec1 vec2 ;; OK (np_linalg_norm d))
               (mat_rows desc2))
       (mat_rows desc1).

(** The body of the loop over the matched index pairs in [fp_distance]. *)
Definition matched_sq (rows1 rows2 : list (list R)) (fp_dist : R)
  (idx : nat * nat) : result R :=
  d <- np_sub (nth (fst idx) rows1 []) (nth (snd idx) rows2 []) ;;
  OK (fp_dist + np_dot d d).

(** [Minimahopping.fp_distance] *)
Definition fp_distance (desc1 desc2 : ndarray) : result R :=
  let n_dim1 := ndim desc1 in
  let n_dim2 := ndim desc2 in
  _ <- py_assert (n_dim1 =? n_dim2)%nat
         "Dimension of vector 1 is and vector 2 is different" ;;
  _ <- py_assert (n_dim1 <? 3)%nat "Dimension of vector 1 is larger that 2" ;;
  _ <- py_assert (n_dim2 <? 3)%nat "Dimension of vector 2 is larger that 2" ;;
  match desc1, desc2 with
  | Vec v1, Vec v2 =>
      d <- np_sub v1 v2 ;; OK (np_linalg_norm d)
  | _, _ =>
      costmat <- _costmatrix desc1 desc2 ;;
      let ans_pos := linear_sum_assignment costmat in
      fp_dist <- foldM (matched_sq (mat_rows desc1) (mat_rows desc2))
                       (combine (fst ans_pos) (snd ans_pos)) 0 ;;
      OK (sqrt fp_dist)
  end.

(** ** Structures, archive records and settings *)

(** A structure (an ASE [Atoms] object) as the controller sees it: the
    energy that the calculator returns for it and the fingerprint that the
    OMFP calculator returns for it, both determined by the structure. *)
Record Atoms : Type := mkAtoms {
  get_potential_energy : R;
  omfp : ndarray
}.

(** [Minimahopping._get_OMFP]: delegated to the fingerprint calculator. *)
Definition _get_OMFP (a : Atoms) : ndarray := omfp a.

(** The values of [self._acc_rej]. *)
Inductive tag : Type := Initial | Same | Inter | Accepted | Rejected | NA.

Definition tag_eqb (a b : tag) : bool :=
  match a, b with
  | Initial, Initial | Same, Same | Inter, Inter
  | Accepted, Accepted | Rejected, Rejected | NA, NA => true
  | _, _ => false
  end.

(** Modelled from the spec: the class [Minimum] (module [minimum], imported
    by mh.py and absent from the sources).  A record bundles a structure
    snapshot, its descriptor, the visit count and the search parameters of
    the moment; records are ordered by the potential energy of their
    structure, ascending. *)
Record Minimum : Type := mkMinimum {
  atoms : Atoms;
  n_visit : Z;
  fingerprint : ndarray;
  T : R;
  ediff : R;
  acc_rej : tag
}.

(** Modelled from the spec: [Minimum.__lt__], the order by potential energy. *)
Definition Minimum_lt (a b : Minimum) : bool :=
  Rltb (get_potential_energy (atoms a)) (get_potential_energy (atoms b)).

(** The entries of [_default_settings] that the controller reads; the
    others ([n_soft], [ns_orb], [np_orb], [width_cutoff], [exclude], [dt],
    [mdmin], [fmax], [verbose]) parametrise the external collaborators.
    [run_time] is [None] for the string "infinit", and the four integers of
    D-HH:MM:SS otherwise. *)
Record Settings : Type := mkSettings {
  T0 : R;
  beta_decrease : R;
  beta_increase : R;
  Ediff0 : R;
  alpha_a : R;
  alpha_r : R;
  enhanced_feedback : bool;
  energy_threshold : R;
  n_poslow : Z;
  minima_threshold : R;
  restart_optim : bool;
  start_lowest : bool;
  new_start : bool;
  run_time : option (Z * Z * Z * Z)
}.

Definition _default_settings : Settings :=
  {| T0 := 2000;
     beta_decrease := 1 / 1.1;
     beta_increase := 1.1;
     Ediff0 := 0.01;
     alpha_a := 0.95;
     alpha_r := 1.05;
     enhanced_feedback := false;
     energy_threshold := 0.00005;
     n_poslow := 30;
     minima_threshold := 0.005;
     restart_optim := false;
     start_lowest := false;
     new_start := false;
     run_time := None |}.

(** One line of output/history.dat. *)
Record history_line : Type := mkHistoryLine {
  h_energy : R;
  h_n_visits : Z;
  h_temperature : R;
  h_Ediff : R;
  h_same_frac : R;
  h_notunique_frac : R;
  h_unique_frac : R;
  h_tag : tag
}.

(** What a run leaves outside its own state: the records appended to its
    files, the warnings, and the two exit messages of [__call__].  The
    progress messages printed on the way are not modelled. *)
Inductive event : Type :=
| WriteAcc (a : Atoms)                 (* append to output/acc.extxyz *)
| WriteMin (a : Atoms)                 (* append to output/min.extxyz *)
| WriteLocm (a : Atoms)                (* append to output/locm.extxyz *)
| WriteFp (fp : ndarray)               (* append to output/fp.dat *)
| WriteHistory (line : history_line)   (* append to output/history.dat *)
| WritePoslow (i : Z) (a : Atoms)      (* write minima/min<i> *)
| Warn (msg : string)                  (* warnings.warn *)
| PrintTimeOver (steps : Z)
| PrintTerminated (steps days hours minutes seconds : Z).

(** ** The state of a [Minimahopping] object *)

Record State : Type := mkState {
  settings : Settings;
  _atoms : Atoms;
  _atoms_alias : option nat;  (* [Some k]: [self._atoms] is the object [all_minima_sorted[k].atoms] *)
  _atoms_cur : Atoms;
  _fp : option ndarray;
  _temperature : R;
  _Ediff : R;
  _counter : Z;
  all_minima : list Minimum;
  all_minima_sorted : list Minimum;
  unique_minima : list Atoms;
  accepted_minima : list Atoms;
  intermediate_minima : list Atoms;
  _i_step : Z;
  _n_min : Z;
  _n_unique : Z;
  _n_notunique : Z;
  _n_same : Z;
  _n_visits : Z;
  _acc_rej : tag;
  out : list event  (* files written, warnings and exit messages, oldest first *)
}.

Definition set_atoms (v : Atoms) (st : State) : State :=
  {| settings := settings st; _atoms := v; _atoms_alias := _atoms_alias
     st; _atoms_cur := _atoms_cur st; _fp := _fp st; _temperature :=
     _temperature st; _Ediff := _Ediff st; _counter := _counter st;
     all_minima := all_minima st; all_minima_sorted := all_minima_sorted
     st; unique_minima := unique_minima st; accepted_minima :=
     accepted_minima st; intermediate_minima := intermediate_minima st;
     _i_step := _i_step st; _n_min := _n_min st; _n_unique := _n_unique
     st; _n_notunique := _n_notunique st; _n_same := _n_same st; _n_visits
     := _n_visits st; _acc_rej := _acc_rej st; out := out st |}.

Definition set_atoms_alias (v : option nat) (st : State) : State :=
  {| settings := settings st; _atoms := _atoms st; _atoms_alias := v;
     _atoms_cur := _atoms_cur st; _fp := _fp st; _temperature :=
     _temperature st; _Ediff := _Ediff st; _counter := _counter st;
     all_minima := all_minima st; all_minima_sorted := all_minima_sorted
     st; unique_minima := unique_minima st; accepted_minima :=
     accepted_minima st; intermediate_minima := intermediate_minima st;
     _i_step := _i_step st; _n_min := _n_min st; _n_unique := _n_unique
     st; _n_notunique := _n_notunique st; _n_same := _n_same st; _n_visits
     := _n_visits st; _acc_rej := _acc_rej st; out := out st |}.

Definition set_atoms_cur (v : Atoms) (st : State) : State :=
  {| settings := settings st; _atoms := _atoms st; _atoms_alias :=
     _atoms_alias st; _atoms_cur := v; _fp := _fp st; _temperature :=
     _temperature st; _Ediff := _Ediff st; _counter := _counter st;
     all_minima := all_minima st; all_minima_sorted := all_minima_sorted
     st; unique_minima := unique_minima st; accepted_minima :=
     accepted_minima st; intermediate_minima := intermediate_minima st;
     _i_step := _i_step st; _n_min := _n_min st; _n_unique := _n_unique
     st; _n_notunique := _n_notunique st; _n_same := _n_same st; _n_visits
     := _n_visits st; _acc_rej := _acc_rej st; out := out st |}.

Definition set_fp (v : option ndarray) (st : State) : State :=
  {| settings := settings st; _atoms := _atoms st; _atoms_alias :=
     _atoms_alias st; _atoms_cur := _atoms_cur st; _fp := v; _temperature
     := _temperature st; _Ediff := _Ediff st; _counter := _counter st;
     all_minima := all_minima st; all_minima_sorted := all_minima_sorted
     st; unique_minima := unique_minima st; accepted_minima :=
     accepted_minima st; intermediate_minima := intermediate_minima st;
     _i_step := _i_step st; _n_min := _n_min st; _n_unique := _n_unique
     st; _n_notunique := _n_notunique st; _n_same := _n_same st; _n_visits
     := _n_visits st; _acc_rej := _acc_rej st; out := out st |}.

Definition set_temperature (v : R) (st : State) : State :=
  {| settings := settings st; _atoms := _atoms st; _atoms_alias :=
     _atoms_alias st; _atoms_cur := _atoms_cur st; _fp := _fp st;
     _temperature := v; _Ediff := _Ediff st; _counter := _counter st;
     all_minima := all_minima st; all_minima_sorted := all_minima_sorted
     st; unique_minima := unique_minima st; accepted_minima :=
     accepted_minima st; intermediate_minima := intermediate_minima st;
     _i_step := _i_step st; _n_min := _n_min st; _n_unique := _n_unique
     st; _n_notunique := _n_notunique st; _n_same := _n_same st; _n_visits
     := _n_visits st; _acc_rej := _acc_rej st; out := out st |}.

Definition set_Ediff (v : R) (st : State) : State :=
  {| settings := settings st; _atoms := _atoms st; _atoms_alias :=
     _atoms_alias st; _atoms_cur := _atoms_cur st; _fp := _fp st;
     _temperature := _temperature st; _Ediff := v; _counter := _counter
     st; all_minima := all_minima st; all_minima_sorted :=
     all_minima_sorted st; unique_minima := unique_minima st;
     accepted_minima := accepted_minima st; intermediate_minima :=
     intermediate_minima st; _i_step := _i_step st; _n_min := _n_min st;
     _n_unique := _n_unique st; _n_notunique := _n_notunique st; _n_same
     := _n_same st; _n_visits := _n_visits st; _acc_rej := _acc_rej st;
     out := out st |}.

Definition set_counter (v : Z) (st : State) : State :=
  {| settings := settings st; _atoms := _atoms st; _atoms_alias :=
     _atoms_alias st; _atoms_cur := _atoms_cur st; _fp := _fp st;
     _temperature := _temperature st; _Ediff := _Ediff st; _counter := v;
     all_minima := all_minima st; all_minima_sorted := all_minima_sorted
     st; unique_minima := unique_minima st; accepted_minima :=
     accepted_minima st; intermediate_minima := intermediate_minima st;
     _i_step := _i_step st; _n_min := _n_min st; _n_unique := _n_unique
     st; _n_notunique := _n_notunique st; _n_same := _n_same st; _n_visits
     := _n_visits st; _acc_rej := _acc_rej st; out := out st |}.

Definition set_all_minima (v : list Minimum) (st : State) : State :=
  {| settings := settings st; _atoms := _atoms st; _atoms_alias :=
     _atoms_alias st; _atoms_cur := _atoms_cur st; _fp := _fp st;
     _temperature := _temperature st; _Ediff := _Ediff st; _counter :=
     _counter st; all_minima := v; all_minima_sorted := all_minima_sorted
     st; unique_minima := unique_minima st; accepted_minima :=
     accepted_minima st; intermediate_minima := intermediate_minima st;
     _i_step := _i_step st; _n_min := _n_min st; _n_unique := _n_unique
     st; _n_notunique := _n_notunique st; _n_same := _n_same st; _n_visits
     := _n_visits st; _acc_rej := _acc_rej st; out := out st |}.

Definition set_all_minima_sorted (v : list Minimum) (st : State) : State :=
  {| settings := settings st; _atoms := _atoms st; _atoms_alias :=
     _atoms_alias st; _atoms_cur := _atoms_cur st; _fp := _fp st;
     _temperature := _temperature st; _Ediff := _Ediff st; _counter :=
     _counter st; all_minima := all_minima st; all_minima_sorted := v;
     unique_minima := unique_minima st; accepted_minima := accepted_minima
     st; intermediate_minima := intermediate_minima st; _i_step := _i_step
     st; _n_min := _n_min st; _n_unique := _n_unique st; _n_notunique :=
     _n_notunique st; _n_same := _n_same st; _n_visits := _n_visits st;
     _acc_rej := _acc_rej st; out := out st |}.

Definition set_unique_minima (v : list Atoms) (st : State) : State :=
  {| settings := settings st; _atoms := _atoms st; _atoms_alias :=
     _atoms_alias st; _atoms_cur := _atoms_cur st; _fp := _fp st;
     _temperature := _temperature st; _Ediff := _Ediff st; _counter :=
     _counter st; all_minima := all_minima st; all_minima_sorted :=
     all_minima_sorted st; unique_minima := v; accepted_minima :=
     accepted_minima st; intermediate_minima := intermediate_minima st;
     _i_step := _i_step st; _n_min := _n_min st; _n_unique := _n_unique
     st; _n_notunique := _n_notunique st; _n_same := _n_same st; _n_visits
     := _n_visits st; _acc_rej := _acc_rej st; out := out st |}.

Definition set_accepted_minima (v : list Atoms) (st : State) : State :=
  {| settings := settings st; _atoms := _atoms st; _atoms_alias :=
     _atoms_alias st; _atoms_cur := _atoms_cur st; _fp := _fp st;
     _temperature := _temperature st; _Ediff := _Ediff st; _counter :=
     _counter st; all_minima := all_minima st; all_minima_sorted :=
     all_minima_sorted st; unique_minima := unique_minima st;
     accepted_minima := v; intermediate_minima := intermediate_minima st;
     _i_step := _i_step st; _n_min := _n_min st; _n_unique := _n_unique
     st; _n_notunique := _n_notunique st; _n_same := _n_same st; _n_visits
     := _n_visits st; _acc_rej := _acc_rej st; out := out st |}.

Definition set_intermediate_minima (v : list Atoms) (st : State) : State :=
  {| settings := settings st; _atoms := _atoms st; _atoms_alias :=
     _atoms_alias st; _atoms_cur := _atoms_cur st; _fp := _fp st;
     _temperature := _temperature st; _Ediff := _Ediff st; _counter :=
     _counter st; all_minima := all_minima st; all_minima_sorted :=
     all_minima_sorted st; unique_minima := unique_minima st;
     accepted_minima := accepted_minima st; intermediate_minima := v;
     _i_step := _i_step st; _n_min := _n_min st; _n_unique := _n_unique
     st; _n_notunique := _n_notunique st; _n_same := _n_same st; _n_visits
     := _n_visits st; _acc_rej := _acc_rej st; out := out st |}.

Definition set_i_step (v : Z) (st : State) : State :=
  {| settings := settings st; _atoms := _atoms st; _atoms_alias :=
     _atoms_alias st; _atoms_cur := _atoms_cur st; _fp := _fp st;
     _temperature := _temperature st; _Ediff := _Ediff st; _counter :=
     _counter st; all_minima := all_minima st; all_minima_sorted :=
     all_minima_sorted st; unique_minima := unique_minima st;
     accepted_minima := accepted_minima st; intermediate_minima :=
     intermediate_minima st; _i_step := v; _n_min := _n_min st; _n_unique
     := _n_unique st; _n_notunique := _n_notunique st; _n_same := _n_same
     st; _n_visits := _n_visits st; _acc_rej := _acc_rej st; out := out st |}.

Definition set_n_min (v : Z) (st : State) : State :=
  {| settings := settings st; _atoms := _atoms st; _atoms_alias :=
     _atoms_alias st; _atoms_cur := _atoms_cur st; _fp := _fp st;
     _temperature := _temperature st; _Ediff := _Ediff st; _counter :=
     _counter st; all_minima := all_minima st; all_minima_sorted :=
     all_minima_sorted st; unique_minima := unique_minima st;
     accepted_minima := accepted_minima st; intermediate_minima :=
     intermediate_minima st; _i_step := _i_step st; _n_min := v; _n_unique
     := _n_unique st; _n_notunique := _n_notunique st; _n_same := _n_same
     st; _n_visits := _n_visits st; _acc_rej := _acc_rej st; out := out st |}.

Definition set_n_unique (v : Z) (st : State) : State :=
  {| settings := settings st; _atoms := _atoms st; _atoms_alias :=
     _atoms_alias st; _atoms_cur := _atoms_cur st; _fp := _fp st;
     _temperature := _temperature st; _Ediff := _Ediff st; _counter :=
     _counter st; all_minima := all_minima st; all_minima_sorted :=
     all_minima_sorted st; unique_minima := unique_minima st;
     accepted_minima := accepted_minima st; intermediate_minima :=
     intermediate_minima st; _i_step := _i_step st; _n_min := _n_min st;
     _n_unique := v; _n_notunique := _n_notunique st; _n_same := _n_same
     st; _n_visits := _n_visits st; _acc_rej := _acc_rej st; out := out st |}.

Definition set_n_notunique (v : Z) (st : State) : State :=
  {| settings := settings st; _atoms := _atoms st; _atoms_alias :=
     _atoms_alias st; _atoms_cur := _atoms_cur st; _fp := _fp st;
     _temperature := _temperature st; _Ediff := _Ediff st; _counter :=
     _counter st; all_minima := all_minima st; all_minima_sorted :=
     all_minima_sorted st; unique_minima := unique_minima st;
     accepted_minima := accepted_minima st; intermediate_minima :=
     intermediate_minima st; _i_step := _i_step st; _n_min := _n_min st;
     _n_unique := _n_unique st; _n_notunique := v; _n_same := _n_same st;
     _n_visits := _n_visits st; _acc_rej := _acc_rej st; out := out st |}.

Definition set_n_same (v : Z) (st : State) : State :=
  {| settings := settings st; _atoms := _atoms st; _atoms_alias :=
     _atoms_alias st; _atoms_cur := _atoms_cur st; _fp := _fp st;
     _temperature := _temperature st; _Ediff := _Ediff st; _counter :=
     _counter st; all_minima := all_minima st; all_minima_sorted :=
     all_minima_sorted st; unique_minima := unique_minima st;
     accepted_minima := accepted_minima st; intermediate_minima :=
     intermediate_minima st; _i_step := _i_step st; _n_min := _n_min st;
     _n_unique := _n_unique st; _n_notunique := _n_notunique st; _n_same
     := v; _n_visits := _n_visits st; _acc_rej := _acc_rej st; out := out
     st |}.

Definition set_n_visits (v : Z) (st : State) : State :=
  {| settings := settings st; _atoms := _atoms st; _atoms_alias :=
     _atoms_alias st; _atoms_cur := _atoms_cur st; _fp := _fp st;
     _temperature := _temperature st; _Ediff := _Ediff st; _counter :=
     _counter st; all_minima := all_minima st; all_minima_sorted :=
     all_minima_sorted st; unique_minima := unique_minima st;
     accepted_minima := accepted_minima st; intermediate_minima :=
     intermediate_minima st; _i_step := _i_step st; _n_min := _n_min st;
     _n_unique := _n_unique st; _n_notunique := _n_notunique st; _n_same
     := _n_same st; _n_visits := v; _acc_rej := _acc_rej st; out := out st |}.

Definition set_acc_rej (v : tag) (st : State) : State :=
  {| settings := settings st; _atoms := _atoms st; _atoms_alias :=
     _atoms_alias st; _atoms_cur := _atoms_cur st; _fp := _fp st;
     _temperature := _temperature st; _Ediff := _Ediff st; _counter :=
     _counter st; all_minima := all_minima st; all_minima_sorted :=
     all_minima_sorted st; unique_minima := unique_minima st;
     accepted_minima := accepted_minima st; intermediate_minima :=
     intermediate_minima st; _i_step := _i_step st; _n_min := _n_min st;
     _n_unique := _n_unique st; _n_notunique := _n_notunique st; _n_same
     := _n_same st; _n_visits := _n_visits st; _acc_rej := v; out := out
     st |}.

Definition set_out (v : list event) (st : State) : State :=
  {| settings := settings st; _atoms := _atoms st; _atoms_alias :=
     _atoms_alias st; _atoms_cur := _atoms_cur st; _fp := _fp st;
     _temperature := _temperature st; _Ediff := _Ediff st; _counter :=
     _counter st; all_minima := all_minima st; all_minima_sorted :=
     all_minima_sorted st; unique_minima := unique_minima st;
     accepted_minima := accepted_minima st; intermediate_minima :=
     intermediate_minima st; _i_step := _i_step st; _n_min := _n_min st;
     _n_unique := _n_unique st; _n_notunique := _n_notunique st; _n_same
     := _n_same st; _n_visits := _n_visits st; _acc_rej := _acc_rej st;
     out := v |}.
Definition emit (e : event) (st : State) : State := set_out (out st ++ [e]) st.

(** [Minimahopping.__init__], with the keyword arguments already merged
    into the settings. *)
Definition __init__ (a : Atoms) (s : Settings) : State :=
  {| settings := s; _atoms := a; _atoms_alias := None; _atoms_cur := a;
     _fp := None; _temperature := T0 s; _Ediff := Ediff0 s; _counter := 0%Z;
     all_minima := []; all_minima_sorted := []; unique_minima := [];
     accepted_minima := []; intermediate_minima := []; _i_step := 0%Z;
     _n_min := 1%Z; _n_unique := 0%Z; _n_notunique := 0%Z; _n_same := 0%Z;
     _n_visits := 0%Z; _acc_rej := Initial; out := [] |}.

(** ** The sorted archive: [bisect.bisect], [bisect.insort], [list.sort] *)

(** The loop of [bisect.bisect_right]; [hi - lo] shrinks at every turn, so
    [length a] turns are enough. *)
Fixpoint bisect_loop (fuel : nat) (a : list Minimum) (x : Minimum)
  (lo hi : nat) : nat :=
  match fuel with
  | O => lo
  | S fuel' =>
      if (lo <? hi)%nat then
        let mid := ((lo + hi) / 2)%nat in
        if Minimum_lt x (nth mid a x) then bisect_loop fuel' a x lo mid
        else bisect_loop fuel' a x (mid + 1)%nat hi
      else lo
  end.

(** [bisect.bisect(a, x)] *)
Definition bisect (a : list Minimum) (x : Minimum) : nat :=
  bisect_loop (length a) a x 0%nat (length a).

(** [a.insert(i, x)] *)
Definition list_insert (a : list Minimum) (i : nat) (x : Minimum) : list Minimum :=
  firstn i a ++ x :: skipn i a.

(** [bisect.insort(a, x)] *)
Definition insort (a : list Minimum) (x : Minimum) : list Minimum :=
  list_insert a (bisect a x) x.

(** [a.sort()]: Python's sort is stable and compares with [<] only; for the
    order of [Minimum] every such sort returns what inserting the elements
    one by one, each after its equals, returns. *)
Definition list_sort (a : list Minimum) : list Minimum :=
  fold_left insort a [].

(** ** The steps of a hop *)

(** [x / n] for a numpy float [x] and an integer [n]: numpy returns nan or
    inf for [n = 0] (here [None]) instead of raising. *)
Definition np_true_divide (x : R) (n : nat) : option R :=
  if (n =? 0)%nat then None else Some (x / INR n).

(** [q < thr] for a numpy float: false on nan and on +inf. *)
Definition np_lt (q : option R) (thr : R) : bool :=
  match q with
  | Some v => Rltb v thr
  | None => false
  end.

(** [Minimahopping._history_log] *)
Definition _history_log (st : State) : State :=
  let _notunique_frac := IZR (_n_notunique st) / IZR (_n_min st) in
  let _same_frac := IZR (_n_same st) / IZR (_n_min st) in
  let _unique_frac := 1 - (_notunique_frac + _same_frac) in
  let history_msg :=
    {| h_energy := get_potential_energy (_atoms st);
       h_n_visits := _n_visits st;
       h_temperature := _temperature st;
       h_Ediff := _Ediff st;
       h_same_frac := _same_frac;
       h_notunique_frac := _notunique_frac;
       h_unique_frac := _unique_frac;
       h_tag := _acc_rej st |} in
  set_n_visits 0%Z (emit (WriteHistory history_msg) st).

(** [Minimahopping._check_energy_threshold], on the noise estimate that the
    optimiser has just stored in [self._noise]. *)
Definition _check_energy_threshold (_noise : R) (st : State) : State :=
  if Rltb (energy_threshold (settings st)) _noise
  then emit (Warn "Energy threshold is below the noise level") st
  else st.

(** What one perturb-and-relax cycle of the external collaborators
    (velocities, softening, MD, optimisation) leaves behind: the relaxed
    structure and the optimiser's noise estimate. *)
Record md_outcome : Type := mkOutcome {
  relaxed : Atoms;
  noise : R
}.

(** The in-place updates of the object [self._atoms] ([set_positions],
    [set_cell], ...): every holder of the same object sees them. *)
Definition update_record_atoms (a : Atoms) (m : Minimum) : Minimum :=
  {| atoms := a; n_visit := n_visit m; fingerprint := fingerprint m;
     T := T m; ediff := ediff m; acc_rej := acc_rej m |}.

Fixpoint update_nth (k : nat) (f : Minimum -> Minimum) (l : list Minimum)
  : list Minimum :=
  match l, k with
  | [], _ => []
  | m :: l', O => f m :: l'
  | m :: l', S k' => m :: update_nth k' f l'
  end.

Definition mutate_atoms (a : Atoms) (st : State) : State :=
  let st' := set_atoms a st in
  match _atoms_alias st with
  | Some k =>
      set_all_minima_sorted
        (update_nth k (update_record_atoms a) (all_minima_sorted st)) st'
  | None => st'
  end.

(** [self._atoms = v]: the name is bound to a fresh object. *)
Definition rebind_atoms (a : Atoms) (st : State) : State :=
  set_atoms_alias None (set_atoms a st).

(** The [while] loop of [_escape].  [outcomes] are the results of the
    successive perturb-and-relax cycles; a cycle that has no outcome is a
    failure of the collaborator, which propagates. *)
Fixpoint escape_loop (outcomes : list md_outcome) (_fp_in : ndarray)
  (_energy_in : R) (_escape : option R) (_escape_energy : R) (_i_steps : Z)
  (st : State) : result State :=
  if np_lt _escape (minima_threshold (settings st))
     || Rltb _escape_energy (energy_threshold (settings st))
  then
    match outcomes with
    | [] => Raise (ValueError "the external relaxation failed")
    | o :: outcomes' =>
        let st :=
          if (0 <? _i_steps)%Z then
            let st := set_n_same (_n_same st + 1)%Z st in
            let st := set_acc_rej Same st in
            let st := _history_log st in
            set_temperature (_temperature st * 1.05) st
          else st in
        let st := mutate_atoms (relaxed o) st in
        let st := _check_energy_threshold (noise o) st in
        let _fp_out := _get_OMFP (_atoms st) in
        let _energy_out := get_potential_energy (_atoms st) in
        let st := set_fp (Some _fp_out) st in
        d <- fp_distance _fp_in _fp_out ;;
        let _escape := np_true_divide d (shape0 _fp_out) in
        let _escape_energy := Rabs (_energy_in - _energy_out) in
        let st := emit (WriteLocm (_atoms st)) st in
        let _i_steps := (_i_steps + 1)%Z in
        let st := set_n_min (_n_min st + 1)%Z st in
        escape_loop outcomes' _fp_in _energy_in _escape _escape_energy _i_steps st
    end
  else OK st.

(** [Minimahopping._escape] *)
Definition _escape (outcomes : list md_outcome) (st : State) : result State :=
  let _fp_in := _get_OMFP (_atoms st) in
  let _energy_in := get_potential_energy (_atoms st) in
  st <- escape_loop outcomes _fp_in _energy_in (Some 0) 0 0%Z st ;;
  let st := set_intermediate_minima (intermediate_minima st ++ [_atoms st]) st in
  let st := set_acc_rej Inter st in
  OK (_history_log st).

(** [Minimahopping._hoplog] *)
Definition _hoplog (st : State) : State := set_i_step (_i_step st + 1)%Z st.

(** The body of the loop of [_acc_rej_step] for one candidate. *)
Definition acc_rej_body (_e_pot_cur : R) (st : State) (atom : Atoms) : State :=
  let _e_pot := get_potential_energy atom in
  if Rltb (_e_pot - _e_pot_cur) (_Ediff st) then
    let st := set_Ediff (_Ediff st * alpha_a (settings st)) st in
    let st := set_atoms_cur atom st in
    let st := set_acc_rej Accepted st in
    set_intermediate_minima [] st
  else
    let st := set_Ediff (_Ediff st * alpha_r (settings st)) st in
    set_acc_rej Rejected st.

(** [Minimahopping._acc_rej_step].  The loop runs over the list object that
    [self.intermediate_minima] names when the loop starts: binding the name
    to a new empty list inside the loop does not shorten the iteration.
    The locals [ediff_acc] and [ediff_rej] are only printed; the one that
    the final message reads was assigned by the last turn of the loop, so
    the message fails (NameError) exactly when the loop had no turn. *)
Definition _acc_rej_step (st : State) : result State :=
  let _e_pot_cur := get_potential_energy (_atoms_cur st) in
  let candidates := intermediate_minima st in
  let st := fold_left (acc_rej_body _e_pot_cur) candidates st in
  match candidates with
  | [] => Raise (NameError "local variable referenced before assignment")
  | _ :: _ => OK st
  end.

Definition get_fp (st : State) : result ndarray :=
  match _fp st with
  | Some fp => OK fp
  | None => Raise (AttributeError "'Minimahopping' object has no attribute '_fp'")
  end.

Definition list_get (a : list Minimum) (i : nat) : result Minimum :=
  match nth_error a i with
  | Some s => OK s
  | None => Raise (IndexError "list index out of range")
  end.

(** What both scans of [_in_history_fp] do with the record at
    [_i_compare]: the new energy difference and the new count. *)
Definition compare_record (s : Minimum) (_epot : R) (_fp1 : ndarray)
  (_minima_threshold : R) (i : Z) : result (R * Z) :=
  let _energy_difference := Rabs (get_potential_energy (atoms s) - _epot) in
  let _fp2 := fingerprint s in
  d <- fp_distance _fp1 _fp2 ;;
  let _fp_dist := np_true_divide d (shape0 _fp2) in
  OK (_energy_difference, if np_lt _fp_dist _minima_threshold then (i + 1)%Z else i).

(** The backward loop of [_in_history_fp]; [_i_compare] is the value at the
    loop test, and [0] stands for the turn that decrements it to [-1] and
    breaks. *)
Fixpoint scan_backward (a : list Minimum) (_epot : R) (_fp1 : ndarray)
  (_energy_threshold _minima_threshold : R)
  (_i_compare : nat) (_energy_difference : R) (i : Z) : result (R * Z) :=
  if Rltb _energy_difference _energy_threshold then
    match _i_compare with
    | O => OK (_energy_difference, i)
    | S _i_compare' =>
        s <- list_get a _i_compare' ;;
        r <- compare_record s _epot _fp1 _minima_threshold i ;;
        scan_backward a _epot _fp1 _energy_threshold _minima_threshold
          _i_compare' (fst r) (snd r)
    end
  else OK (_energy_difference, i).

(** The forward loop of [_in_history_fp]; [_i_compare] grows at every turn
    and the loop breaks once it passes the end, so [length a + 1] turns are
    enough. *)
Fixpoint scan_forward (fuel : nat) (a : list Minimum) (_epot : R) (_fp1 : ndarray)
  (_energy_threshold _minima_threshold : R)
  (_i_compare : nat) (_energy_difference : R) (i : Z) : result Z :=
  match fuel with
  | O => OK i
  | S fuel' =>
      if Rltb _energy_difference _energy_threshold then
        let _i_compare := (_i_compare + 1)%nat in
        if (length a <? _i_compare + 1)%nat then OK i
        else
          s <- list_get a _i_compare ;;
          r <- compare_record s _epot _fp1 _minima_threshold i ;;
          scan_forward fuel' a _epot _fp1 _energy_threshold _minima_threshold
            _i_compare (fst r) (snd r)
      else OK i
  end.

(** [Minimahopping._in_history_fp] *)
Definition _in_history_fp (st : State) : result Z :=
  _fp1 <- get_fp st ;;
  let mini :=
    {| atoms := _atoms st; n_visit := (-1)%Z; fingerprint := _fp1;
       T := _temperature st; ediff := _Ediff st; acc_rej := _acc_rej st |} in
  let a := all_minima_sorted st in
  let _i_start := bisect a mini in
  let _epot := get_potential_energy (_atoms st) in
  let i := 1%Z in
  (* backward *)
  let _energy_difference := 0 in
  r <- scan_backward a _epot _fp1 (energy_threshold (settings st))
         (minima_threshold (settings st)) _i_start _energy_difference i ;;
  (* forward *)
  scan_forward (length a + 1) a _epot _fp1 (energy_threshold (settings st))
    (minima_threshold (settings st)) _i_start (fst r) (snd r).

(** [Minimahopping._write_fp] *)
Definition _write_fp (st : State) : result State :=
  fp <- get_fp st ;; OK (emit (WriteFp fp) st).

(** [Minimahopping._adj_temperature] *)
Definition _adj_temperature (st : State) : result State :=
  if (1 <? _n_visits st)%Z then
    let st := set_n_notunique (_n_notunique st + 1)%Z st in
    if enhanced_feedback (settings st) then
      OK (set_temperature
            (_temperature st * beta_increase (settings st)
             * (1 + 1 * ln (IZR (_n_visits st)))) st)
    else
      OK (set_temperature (_temperature st * beta_increase (settings st)) st)
  else
    let st := set_n_unique (_n_unique st + 1)%Z st in
    let st := set_temperature (_temperature st * beta_decrease (settings st)) st in
    let st := set_unique_minima (unique_minima st ++ [_atoms st]) st in
    let st := emit (WriteMin (_atoms st)) st in
    _write_fp st.

(** [Minimahopping._update_data].  Inserting at or before the record whose
    structure is the object [self._atoms] moves that record one place up. *)
Definition _update_data (st : State) : result State :=
  let st :=
    if tag_eqb (_acc_rej st) Accepted then
      let st := set_accepted_minima (accepted_minima st ++ [_atoms st]) st in
      emit (WriteAcc (_atoms st)) st
    else st in
  fp <- get_fp st ;;
  let mini :=
    {| atoms := _atoms st; n_visit := _n_visits st; fingerprint := fp;
       T := _temperature st; ediff := _Ediff st; acc_rej := _acc_rej st |} in
  let st := set_all_minima (all_minima st ++ [mini]) st in
  let pos := bisect (all_minima_sorted st) mini in
  let st :=
    match _atoms_alias st with
    | Some k => if (pos <=? k)%nat then set_atoms_alias (Some (S k)) st else st
    | None => st
    end in
  OK (set_all_minima_sorted (insort (all_minima_sorted st) mini) st).

(** The loop of [_write_poslow]. *)
Fixpoint write_poslow_loop (l : list Minimum) (_i_poslow : Z) (st : State) : State :=
  match l with
  | [] => st
  | s :: l' =>
      let st' := if (n_visit s =? 1)%Z
                 then emit (WritePoslow _i_poslow (atoms s)) st else st in
      let _i_poslow' := if (n_visit s =? 1)%Z then (_i_poslow + 1)%Z else _i_poslow in
      if (n_poslow (settings st) <? _i_poslow' - 1)%Z then st'
      else write_poslow_loop l' _i_poslow' st'
  end.

(** [Minimahopping._write_poslow] *)
Definition _write_poslow (st : State) : State :=
  write_poslow_loop (all_minima_sorted st) 0%Z st.

(** ** The run driver *)

(** One turn of the [while] loop of [__call__], up to and including
    [self._counter += 1]. *)
Definition hop (outcomes : list md_outcome) (st : State) : result State :=
  st <- _escape outcomes st ;;
  st <- _acc_rej_step st ;;
  let st := _hoplog st in
  n <- _in_history_fp st ;;
  let st := set_n_visits n st in
  st <- _adj_temperature st ;;
  st <- _update_data st ;;
  let st := _write_poslow st in
  let st := _history_log st in
  let st := rebind_atoms (_atoms_cur st) st in
  OK (set_counter (_counter st + 1)%Z st).

(** [Minimahopping._get_sec] *)
Definition _get_sec (t : Z * Z * Z * Z) : Z :=
  match t with
  | (nd, h, m, s) => (nd * 86400 + h * 3600 + m * 60 + s)%Z
  end.

(** What the run reads from outside while it hops: the outcomes of the
    perturb-and-relax cycles of the hop that starts with counter [k], and
    the wall-clock time elapsed since start-up, read after the hop that
    ends with counter [k] and once more when the loop is left. *)
Record world : Type := mkWorld {
  outcomes_of : Z -> list md_outcome;
  elapsed_after : Z -> R;
  elapsed_at_exit : R
}.

(** The summary printed when the step budget is used up. *)
Definition print_summary (totalsteps : Z) (_elapsed_time : R) (st : State) : State :=
  let day := Int_part (_elapsed_time / (24 * 3600)) in
  let _elapsed_time := _elapsed_time - IZR day * (24 * 3600) in
  let hour := Int_part (_elapsed_time / 3600) in
  let _elapsed_time := _elapsed_time - IZR hour * 3600 in
  let minutes := Int_part (_elapsed_time / 60) in
  let _elapsed_time := _elapsed_time - IZR minutes * 60 in
  let seconds := Int_part _elapsed_time in
  emit (PrintTerminated totalsteps day hour minutes seconds) st.

(** The [while] loop of [__call__] and what follows it.  [None]: the loop
    ran for more than [fuel] turns. *)
Fixpoint call_loop (fuel : nat) (w : world) (totalsteps : Z) (st : State)
  : option (result State) :=
  if (_counter st <=? totalsteps)%Z then
    match fuel with
    | O => None
    | S fuel' =>
        match hop (outcomes_of w (_counter st)) st with
        | Raise e => Some (Raise e)
        | OK st =>
            let _elapsed_time := elapsed_after w (_counter st) in
            match run_time (settings st) with
            | Some t =>
                if Rltb (IZR (_get_sec t)) _elapsed_time
                then Some (OK (emit (PrintTimeOver (_counter st)) st))
                else call_loop fuel' w totalsteps st
            | None => call_loop fuel' w totalsteps st
            end
        end
    end
  else Some (OK (print_summary totalsteps (elapsed_at_exit w) st)).

(** ** Start-up and restart *)

(** What [_startup] finds in output/: which files exist, and what reading
    them returns.  [history_dat] holds, for every line of history.dat, its
    third and fourth fields (temperature and Ediff) as floats. *)
Record files : Type := mkFiles {
  exists_acc : bool;
  exists_min : bool;
  exists_history : bool;
  exists_fp : bool;
  acc_extxyz : list Atoms;
  min_extxyz : list Atoms;
  fp_dat : list ndarray;
  history_dat : list (R * R)
}.

(** [l[-1]] *)
Definition last_item {A : Type} (l : list A) : result A :=
  match rev l with
  | x :: _ => OK x
  | [] => Raise (IndexError "list index out of range")
  end.

(** [len({a, b})] for two booleans. *)
Definition len_set2 (a b : bool) : nat := if Bool.eqb a b then 1 else 2.

(** The records that [_startup] builds from the unique minima read back. *)
Definition restart_record (fp : ndarray) (atom : Atoms) : Minimum :=
  {| atoms := atom; n_visit := 1%Z; fingerprint := fp;
     T := -100; ediff := -10; acc_rej := NA |}.

(** The part of [_startup] under [if _is_restart:].  [opt] is the local
    optimiser behind [_restart_opt], which moves the structure it is given
    in place. *)
Definition startup_restart (fs : files) (opt : Atoms -> Atoms) (st : State)
  : result State :=
  let unique_minima := min_extxyz fs in
  let recompute := negb (exists_fp fs && negb (restart_optim (settings st))) in
  (* the structures of [unique_minima] are optimised in place *)
  let unique_minima' :=
    if restart_optim (settings st) then map opt unique_minima else unique_minima in
  st <- (if exists_acc fs then
           a <- last_item (acc_extxyz fs) ;; OK (set_atoms a st)
         else
           let st := emit (Warn "No previous accepted minima detected restart at last found minimum") st in
           a <- last_item unique_minima' ;; OK (set_atoms a st)) ;;
  st <- (if recompute then
           let st := emit (Warn "Fingerprints all recalculated for all found minima") st in
           let records :=
             map (fun atom => restart_record (_get_OMFP atom) atom) unique_minima' in
           OK (set_all_minima_sorted records (set_all_minima records st))
         else
           let fps := fp_dat fs in
           _ <- py_assert (length fps =? length unique_minima)%nat
                  "FP and minima file have not the same length, delete fp file for fp recalculation" ;;
           let records :=
             map (fun p => restart_record (fst p) (snd p)) (combine fps unique_minima) in
           OK (set_all_minima_sorted records (set_all_minima records st))) ;;
  let st := if restart_optim (settings st) then set_atoms (opt (_atoms st)) st else st in
  let st := set_all_minima_sorted (list_sort (all_minima_sorted st)) st in
  st <- (if start_lowest (settings st) then
           match all_minima_sorted st with
           | m :: _ => OK (set_atoms_alias (Some 0%nat) (set_atoms (atoms m) st))
           | [] => Raise (IndexError "list index out of range")
           end
         else OK st) ;;
  _last_line <- last_item (history_dat fs) ;;
  OK (set_Ediff (snd _last_line) (set_temperature (fst _last_line) st)).

(** [Minimahopping._startup] *)
Definition _startup (fs : files) (opt : Atoms -> Atoms) (st : State) : result State :=
  let st := set_all_minima [] st in
  let st := set_all_minima_sorted [] st in
  let st := set_atoms_alias None st in
  let st := set_unique_minima [] st in
  let st := set_accepted_minima [] st in
  let st := set_intermediate_minima [] st in
  let st := set_i_step 0%Z st in
  let st := set_n_min 1%Z st in
  let st := set_n_unique 0%Z st in
  let st := set_n_notunique 0%Z st in
  let st := set_n_same 0%Z st in
  let _is_unique_minima := exists_min fs in
  let _is_history := exists_history fs in
  _is_restart <-
    (if _is_unique_minima && _is_history then
       OK (if new_start (settings st) then false else true)
     else
       _ <- py_assert (len_set2 _is_history _is_unique_minima =? 1)%nat
              "Some but not all files exist for a restart." ;;
       OK false) ;;
  st <- (if _is_restart : bool then startup_restart fs opt st
         else
           let st := set_atoms (opt (_atoms st)) st in
           OK (emit (WriteAcc (_atoms st)) st)) ;;
  let st := set_atoms_cur (_atoms st) st in
  let st := set_n_visits 1%Z st in
  let st := set_acc_rej Initial st in
  OK (_history_log st).

(** [Minimahopping.__call__] with a step budget.  The counter grows by one
    at every turn, so [totalsteps + 1 - counter] turns are the most the loop
    can take. *)
Definition __call__ (fs : files) (opt : Atoms -> Atoms) (w : world)
  (totalsteps : Z) (st : State) : option (result State) :=
  match _startup fs opt st with
  | Raise e => Some (Raise e)
  | OK st => call_loop (Z.to_nat (totalsteps + 1 - _counter st)) w totalsteps st
  end.

(** ** The restart check of file_handling.py *)

(** What [restart] and [checkfiles] find on disk. *)
Record restart_files : Type := mkRestartFiles {
  exists_outpath : bool;
  exists_restart_path : bool;
  exists_database : bool;      (* minima.pickle.shelve.dat *)
  exists_database_dat : bool;  (* minima.pickle.shelve.dat.dat *)
  exists_poscur : bool;        (* poscur.extxyz *)
  exists_params : bool         (* params.json *)
}.

(** [checkfiles]: the answer and the warnings given. *)
Definition checkfiles (d : restart_files) (restart_path : string) (is_master : bool)
  : bool * list string :=
  let is_files := true in
  let warns := [] in
  let '(is_files, warns) :=
    if is_master then
      let is_database := exists_database d || exists_database_dat d in
      if negb is_database
      then (false,
            warns ++ [("No database file detected. New MH run is started "
                       ++ restart_path ++ "minima.pickle.shelve.dat")%string])
      else (is_files, warns)
    else (is_files, warns) in
  let '(is_files, warns) :=
    if negb is_master then
      let is_minimum := exists_poscur d in
      if negb is_minimum
      then (false,
            warns ++ [("No current minimum detected. New MH run is started "
                       ++ restart_path ++ "poscur.extxyz")%string])
      else (is_files, warns)
    else (is_files, warns) in
  let is_params := exists_params d in
  if negb is_params
  then (false,
        warns ++ [("No current minimum detected. New MH run is started "
                   ++ restart_path ++ "params.json")%string])
  else (is_files, warns).

(** [restart]: the answer and the warnings given (the directories that it
    creates on the way are not modelled). *)
Definition restart (d : restart_files) (restart_path : string) (is_master : bool)
  : bool * list string :=
  let is_output := exists_outpath d in
  let is_restart := exists_restart_path d in
  if is_restart && is_output then
    let '(is_files, warns) := checkfiles d restart_path is_master in
    (if negb is_files then false else true, warns)
  else if is_output && negb is_restart then
    (false, ["Preveous run detected but no restart files. New run is started."])
  else (false, []).
(** ** Notions used to state the properties of the distance engine *)

(** The difference of two rows of equal length. *)
Definition diff (a b : list R) : list R :=
  map (fun p => fst p - snd p) (combine a b).

(** The Euclidean distance between two rows of equal length. *)
Definition dist (a b : list R) : R := np_linalg_norm (diff a b).

(** The column indices that [fp_distance] obtains from the assignment
    solver ([ans_pos[1]]). *)
Definition chosen_assignment (desc1 desc2 : ndarray) : result (list nat) :=
  costmat <- _costmatrix desc1 desc2 ;;
  OK (snd (linear_sum_assignment costmat)).

(** The sum, over the matched pairs [(i, cols[i])], of [f] on the two rows. *)
Definition sum_matched (f : list R -> list R -> R)
  (rows1 rows2 : list (list R)) (cols : list nat) : R :=
  Rsum (map (fun p => f (nth (fst p) rows1 []) (nth (snd p) rows2 []))
            (combine (seq 0 (length cols)) cols)).

Definition cost_of (rows1 rows2 : list (list R)) : list (list R) :=
  map (fun r1 => map (fun r2 => dist r1 r2) rows2) rows1.

(** Two lists of rows are identical up to an assignment permutation. *)
Definition identical_up_to_permutation (rows1 rows2 : list (list R)) : Prop :=
  exists p, Permutation (seq 0 (length rows1)) p /\
    forall i, (i < length rows1)%nat -> nth i rows1 [] = nth (nth i p 0%nat) rows2 [].

(** The objective that the specification attributes to the assignment
    step: the sum of the squared matched distances. *)
Definition sum_of_squares (rows1 rows2 : list (list R)) (cols : list nat) : R :=
  sum_matched (fun a b => dist a b * dist a b) rows1 rows2 cols.

(** The objective that the cost matrix of [_costmatrix] gives the solver:
    the sum of the matched distances. *)
Definition sum_of_distances (rows1 rows2 : list (list R)) (cols : list nat) : R :=
  sum_matched dist rows1 rows2 cols.

(** The descriptors of the scenario of two sites in two dimensions. *)
Definition scenario_d1 : ndarray := Mat 2 [[0; 0]; [1; 1]].
Definition scenario_d2 : ndarray := Mat 2 [[1; 1]; [0; 0]].

(** Two descriptors on which the two objectives disagree: the first rows
    coincide, the second rows are 8 apart, and each second row is 5 away
    from the other descriptor's first row. *)
Definition triangle_d1 : ndarray := Mat 2 [[0; 3]; [-4; 0]].
Definition triangle_d2 : ndarray := Mat 2 [[0; 3]; [4; 0]].

(** The property that the specification states for a pair of matrices:
    the chosen assignment minimises the sum of squares, and the value
    returned is the root of that minimum. *)
Definition minimises_sum_of_squares (d1 d2 : ndarray) : Prop :=
  exists cols,
    chosen_assignment d1 d2 = OK cols /\
    (forall p, Permutation (seq 0 (shape0 d1)) p ->
       sum_of_squares (mat_rows d1) (mat_rows d2) cols
       <= sum_of_squares (mat_rows d1) (mat_rows d2) p) /\
    fp_distance d1 d2 = OK (sqrt (sum_of_squares (mat_rows d1) (mat_rows d2) cols)).

(** The input constraint that the specification states for [fp_distance]:
    the same dimensionality and, for matrices, the same number of rows. *)
Definition matching_dimensions (d1 d2 : ndarray) : Prop :=
  ndim d1 = ndim d2 /\ (ndim d1 = 2%nat -> shape0 d1 = shape0 d2).

(** [d.shape[-1]]: the length of a vector, the width of the rows of a
    matrix.  These are the lengths of the 1-D operands that [fp_distance]
    and [_costmatrix] subtract. *)
Definition last_axis (d : ndarray) : nat :=
  match d with
  | Vec v => length v
  | Mat c _ => c
  end.

(** The lengths of two 1-D operands that numpy's subtraction accepts: equal,
    or one of them 1 (that operand is broadcast). *)
Definition broadcastable (n m : nat) : Prop :=
  n = m \/ n = 1%nat \/ m = 1%nat.

(** A matrix without rows: the loops of [_costmatrix] and of [fp_distance]
    over its rows have no turn, and nothing is subtracted. *)
Definition no_rows (d : ndarray) : Prop :=
  match d with
  | Vec _ => False
  | Mat _ rows => rows = []
  end.

(** The second half of the shape contract as the specification states it:
    every pair of descriptors that meets the input constraint gets a number. *)
Definition returns_on_matching_dimensions : Prop :=
  forall d1 d2,
    well_shaped d1 -> well_shaped d2 -> matching_dimensions d1 d2 ->
    exists r, fp_distance d1 d2 = OK r.

(** ** Notions used to state the properties of the controller *)

(** The fields that the escape loop leaves alone. *)
Definition escape_keeps (st st' : State) : Prop :=
  settings st' = settings st /\ _atoms_alias st' = _atoms_alias st /\
  _atoms_cur st' = _atoms_cur st /\ _Ediff st' = _Ediff st /\
  _counter st' = _counter st /\ all_minima st' = all_minima st /\
  unique_minima st' = unique_minima st /\
  accepted_minima st' = accepted_minima st /\
  intermediate_minima st' = intermediate_minima st /\
  _i_step st' = _i_step st /\ _n_unique st' = _n_unique st /\
  _n_notunique st' = _n_notunique st /\
  (_atoms_alias st = None -> all_minima_sorted st' = all_minima_sorted st).


(** Every candidate of the list fails the acceptance test at its turn,
    the threshold growing by [alpha_r] after each failure. *)
Fixpoint all_rejected (e_cur Ediff_ alpha_r_ : R) (candidates : list Atoms) : bool :=
  match candidates with
  | [] => true
  | a :: l =>
      if Rltb (get_potential_energy a - e_cur) Ediff_ then false
      else all_rejected e_cur (Ediff_ * alpha_r_) alpha_r_ l
  end.

(** The product of a list of factors. *)
Definition Rprod (l : list R) : R := fold_right Rmult 1 l.

(** The fields that the acceptance policy leaves alone. *)
Definition acc_rej_keeps (st st' : State) : Prop :=
  settings st' = settings st /\ _atoms st' = _atoms st /\
  _atoms_alias st' = _atoms_alias st /\ _fp st' = _fp st /\
  _temperature st' = _temperature st /\ _counter st' = _counter st /\
  all_minima st' = all_minima st /\
  all_minima_sorted st' = all_minima_sorted st /\
  unique_minima st' = unique_minima st /\
  accepted_minima st' = accepted_minima st /\
  _i_step st' = _i_step st /\ _n_unique st' = _n_unique st /\
  _n_notunique st' = _n_notunique st /\ out st' = out st.

(** The fields that the temperature controller leaves alone. *)
Definition adj_temperature_keeps (st st' : State) : Prop :=
  settings st' = settings st /\ _atoms st' = _atoms st /\
  _atoms_alias st' = _atoms_alias st /\ _atoms_cur st' = _atoms_cur st /\
  _fp st' = _fp st /\ _Ediff st' = _Ediff st /\ _counter st' = _counter st /\
  all_minima st' = all_minima st /\
  all_minima_sorted st' = all_minima_sorted st /\
  accepted_minima st' = accepted_minima st /\
  intermediate_minima st' = intermediate_minima st /\
  _i_step st' = _i_step st /\ _n_visits st' = _n_visits st /\
  _acc_rej st' = _acc_rej st.

(** The fields that the archive update leaves alone. *)
Definition update_data_keeps (st st' : State) : Prop :=
  settings st' = settings st /\ _atoms st' = _atoms st /\
  _atoms_cur st' = _atoms_cur st /\ _fp st' = _fp st /\
  _temperature st' = _temperature st /\ _Ediff st' = _Ediff st /\
  _counter st' = _counter st /\ unique_minima st' = unique_minima st /\
  intermediate_minima st' = intermediate_minima st /\
  _i_step st' = _i_step st /\ _n_unique st' = _n_unique st /\
  _n_notunique st' = _n_notunique st /\ _n_visits st' = _n_visits st /\
  _acc_rej st' = _acc_rej st.

(** The fields other than [out]. *)
Definition same_but_out (st st' : State) : Prop :=
  settings st' = settings st /\ _atoms st' = _atoms st /\
  _atoms_alias st' = _atoms_alias st /\ _atoms_cur st' = _atoms_cur st /\
  _fp st' = _fp st /\ _temperature st' = _temperature st /\
  _Ediff st' = _Ediff st /\ _counter st' = _counter st /\
  all_minima st' = all_minima st /\
  all_minima_sorted st' = all_minima_sorted st /\
  unique_minima st' = unique_minima st /\
  accepted_minima st' = accepted_minima st /\
  intermediate_minima st' = intermediate_minima st /\
  _i_step st' = _i_step st /\ _n_min st' = _n_min st /\
  _n_unique st' = _n_unique st /\ _n_notunique st' = _n_notunique st /\
  _n_same st' = _n_same st /\ _n_visits st' = _n_visits st /\
  _acc_rej st' = _acc_rej st.

(** [_is_restart] as [_startup] computes it, when it does not fail. *)
Definition is_restart (fs : files) (s : Settings) : bool :=
  exists_min fs && exists_history fs && negb (new_start s).

(** The potential energy of an archive record. *)
Definition energy (m : Minimum) : R := get_potential_energy (atoms m).

(** The archive is non-decreasing in the records' potential energy. *)
Definition sorted_by_energy (a : list Minimum) : Prop :=
  forall i j mi mj,
    nth_error a i = Some mi -> nth_error a j = Some mj -> (i <= j)%nat ->
    energy mi <= energy mj.

(** The archive is sorted and no record of it shares its structure with
    the working structure [self._atoms]. *)
Definition archive_ok (st : State) : Prop :=
  _atoms_alias st = None /\ sorted_by_energy (all_minima_sorted st).

(** The record that [_update_data] builds. *)
Definition new_record (st : State) (fp : ndarray) : Minimum :=
  {| atoms := _atoms st; n_visit := _n_visits st; fingerprint := fp;
     T := _temperature st; ediff := _Ediff st; acc_rej := _acc_rej st |}.

(** ** Structures and files of the examples *)

(** A non-periodic system with a one-component fingerprint: the structure
    of energy [e] and fingerprint [[x]]. *)
Definition structure (e x : R) : Atoms := mkAtoms e (Vec [x]).

Definition identity_opt (a : Atoms) : Atoms := a.

(** An empty output directory. *)
Definition no_files : files :=
  mkFiles false false false false [] [] [] [].

(** An output directory that holds history.dat but not min.extxyz. *)
Definition only_history : files :=
  mkFiles false false true false [] [] [] [(2000, 0.01)].

(** A complete output directory whose fp.dat holds one descriptor for two
    unique minima. *)
Definition short_cache : files :=
  mkFiles true true true true
    [structure 2 2] [structure 1 1; structure 2 2] [Vec [1]] [(2000, 0.01)].

(** The state in which [_in_history_fp] looks up the structure [q]: the
    archive holds the one record [r]. *)
Definition lookup_state (r : Minimum) (q : Atoms) : State :=
  set_all_minima_sorted [r]
    (set_fp (Some (omfp q)) (set_atoms q (__init__ q _default_settings))).

(** An archived record of energy 1 and fingerprint [1, 2, 3]. *)
Definition archived : Minimum :=
  {| atoms := mkAtoms 1 (Vec [1; 2; 3]); n_visit := 1%Z;
     fingerprint := Vec [1; 2; 3]; T := 2000; ediff := 0.01; acc_rej := Accepted |}.

(** The same structure found again, with an energy lower or higher by
    0.00001 (the energy threshold is 0.00005). *)
Definition found_below : Atoms := mkAtoms (1 - 0.00001) (Vec [1; 2; 3]).
Definition found_above : Atoms := mkAtoms (1 + 0.00001) (Vec [1; 2; 3]).

(** ** Runs of a non-periodic system *)

(** A flat descriptor of [L] components. *)
Definition vec_of_length (L : nat) (d : ndarray) : Prop :=
  exists v, d = Vec v /\ length v = L.

(** Every descriptor that the state holds is a flat descriptor of [L]
    components (a non-periodic system of fixed size). *)
Definition flat_descriptors (L : nat) (st : State) : Prop :=
  vec_of_length L (omfp (_atoms st)) /\
  vec_of_length L (omfp (_atoms_cur st)) /\
  Forall (fun a => vec_of_length L (omfp a)) (intermediate_minima st) /\
  Forall (fun m => vec_of_length L (fingerprint m)) (all_minima_sorted st).

(** The first perturb-and-relax cycle of an escape already leaves the
    starting minimum [a]: the outcome is at least [minima_threshold] away in
    normalised fingerprint distance and at least [energy_threshold] away in
    energy. *)
Definition exits_at_first (s : Settings) (a : Atoms) (o : md_outcome) : Prop :=
  exists v1 v2,
    omfp a = Vec v1 /\ omfp (relaxed o) = Vec v2 /\
    length v1 = length v2 /\ length v2 <> 0%nat /\
    minima_threshold s <= dist v1 v2 / INR (length v2) /\
    energy_threshold s <= Rabs (get_potential_energy a - get_potential_energy (relaxed o)).

(** The state that [_escape] returns when its first cycle leaves the
    starting minimum. *)
Definition escape_result (o : md_outcome) (st : State) : State :=
  let st1 := _check_energy_threshold (noise o) (mutate_atoms (relaxed o) st) in
  let st2 := set_n_min (_n_min st1 + 1)%Z
               (emit (WriteLocm (_atoms st1))
                  (set_fp (Some (_get_OMFP (_atoms st1))) st1)) in
  _history_log
    (set_acc_rej Inter
       (set_intermediate_minima (intermediate_minima st2 ++ [_atoms st2]) st2)).

(** Every hop of the next [n] turns of the loop returns. *)
Fixpoint hops_return (w : world) (n : nat) (st : State) : Prop :=
  match n with
  | O => True
  | S n' => exists st', hop (outcomes_of w (_counter st)) st = OK st' /\
                        hops_return w n' st'
  end.

(** A fresh run on the structure of energy 0 and fingerprint [0], with the
    default settings. *)
Definition fresh_state : State := __init__ (structure 0 0) _default_settings.

(** A world whose first hop escapes to the structure of energy 5 and
    fingerprint [5], and whose later hops escape to the structure of energy 6
    and fingerprint [6]; no time passes. *)
Definition rejecting_world : world :=
  mkWorld
    (fun k => if (k =? 0)%Z then [mkOutcome (structure 5 5) 0]
              else [mkOutcome (structure 6 6) 0])
    (fun _ => 0) 0.

(** ** A restart from the lowest known minimum *)

(** The default settings with [start_lowest=True]. *)
Definition lowest_settings : Settings :=
  {| T0 := 2000;
     beta_decrease := 1 / 1.1;
     beta_increase := 1.1;
     Ediff0 := 0.01;
     alpha_a := 0.95;
     alpha_r := 1.05;
     enhanced_feedback := false;
     energy_threshold := 0.00005;
     n_poslow := 30;
     minima_threshold := 0.005;
     restart_optim := false;
     start_lowest := true;
     new_start := false;
     run_time := None |}.

(** The output directory of an earlier run that found two unique minima, of
    energies 1 and 2, and accepted the second. *)
Definition two_minima : files :=
  mkFiles true true true true
    [structure 2 2] [structure 1 1; structure 2 2] [Vec [1]; Vec [2]]
    [(2000, 0.01)].

Definition restarted_state : State := __init__ (structure 2 2) lowest_settings.
(** ** Notions used to state further properties of the controller *)

(** What one turn of the [while] loop of [_escape] does to the state,
    apart from the distance computation. *)
Definition escape_cycle (_i_steps : Z) (o : md_outcome) (st : State) : State :=
  let st :=
    if (0 <? _i_steps)%Z then
      let st := set_n_same (_n_same st + 1)%Z st in
      let st := set_acc_rej Same st in
      let st := _history_log st in
      set_temperature (_temperature st * 1.05) st
    else st in
  let st := mutate_atoms (relaxed o) st in
  let st := _check_energy_threshold (noise o) st in
  let st := set_fp (Some (_get_OMFP (_atoms st))) st in
  let st := emit (WriteLocm (_atoms st)) st in
  set_n_min (_n_min st + 1)%Z st.

(** The structures appended to output/locm.extxyz by a list of events. *)
Fixpoint locm_written (evs : list event) : list Atoms :=
  match evs with
  | [] => []
  | WriteLocm a :: evs' => a :: locm_written evs'
  | _ :: evs' => locm_written evs'
  end.

(** The tags of the lines appended to output/history.dat by a list of
    events. *)
Fixpoint history_tags (evs : list event) : list tag :=
  match evs with
  | [] => []
  | WriteHistory line :: evs' => h_tag line :: history_tags evs'
  | _ :: evs' => history_tags evs'
  end.

(** The structures appended to output/min.extxyz and to output/acc.extxyz,
    and the descriptors appended to output/fp.dat, by a list of events. *)
Fixpoint min_written (evs : list event) : list Atoms :=
  match evs with
  | [] => []
  | WriteMin a :: evs' => a :: min_written evs'
  | _ :: evs' => min_written evs'
  end.

Fixpoint acc_written (evs : list event) : list Atoms :=
  match evs with
  | [] => []
  | WriteAcc a :: evs' => a :: acc_written evs'
  | _ :: evs' => acc_written evs'
  end.

Fixpoint fp_written (evs : list event) : list ndarray :=
  match evs with
  | [] => []
  | WriteFp fp :: evs' => fp :: fp_written evs'
  | _ :: evs' => fp_written evs'
  end.

(** The lines appended to output/history.dat by a list of events. *)
Fixpoint history_written (evs : list event) : list history_line :=
  match evs with
  | [] => []
  | WriteHistory line :: evs' => line :: history_written evs'
  | _ :: evs' => history_written evs'
  end.

(** The archive records that [_write_poslow] looks for. *)
Definition visited_once (m : Minimum) : bool := (n_visit m =? 1)%Z.

(** The files minima/min<i>, minima/min<i+1>, ... for a list of records. *)
Fixpoint poslow_files (i : Z) (ms : list Minimum) : list event :=
  match ms with
  | [] => []
  | m :: ms' => WritePoslow i (atoms m) :: poslow_files (i + 1)%Z ms'
  end.

(** The settings [s] with another value of [n_poslow]. *)
Definition with_n_poslow (n : Z) (s : Settings) : Settings :=
  {| T0 := T0 s; beta_decrease := beta_decrease s;
     beta_increase := beta_increase s; Ediff0 := Ediff0 s;
     alpha_a := alpha_a s; alpha_r := alpha_r s;
     enhanced_feedback := enhanced_feedback s;
     energy_threshold := energy_threshold s; n_poslow := n;
     minima_threshold := minima_threshold s;
     restart_optim := restart_optim s; start_lowest := start_lowest s;
     new_start := new_start s; run_time := run_time s |}.

(** A state whose sorted archive holds three records visited once, of
    energies 1, 2 and 3, under [n_poslow = 0]. *)
Definition three_unique_minima : State :=
  set_all_minima_sorted
    [restart_record (Vec [1]) (structure 1 1);
     restart_record (Vec [2]) (structure 2 2);
     restart_record (Vec [3]) (structure 3 3)]
    (__init__ (structure 0 0) (with_n_poslow 0 _default_settings)).

(** The exceptions that the distance computation and a failing collaborator
    raise. *)
Definition distance_error (e : exn) : Prop :=
  match e with
  | AssertionError _ | ValueError _ => True
  | _ => False
  end.

(** The exceptions that a hop can raise: those of the distance computation,
    and AttributeError for the missing [self._fp] when the escape loop made
    no turn, which takes thresholds that are not positive. *)
Definition hop_error (s : Settings) (e : exn) : Prop :=
  match e with
  | AssertionError _ | ValueError _ => True
  | AttributeError _ => minima_threshold s <= 0 /\ energy_threshold s <= 0
  | IndexError _ | NameError _ => False
  end.

(** A periodic structure (matrix descriptor) of energy 1. *)
Definition periodic_structure : Atoms := mkAtoms 1 (Mat 1 [[1]]).
(** ** The descriptor cache fp.dat, line by line

    [_write_fp] and [_read_fp] exchange descriptors through the text file
    output/fp.dat.  A line of the file is modelled as the list of the
    numbers it holds: [str] of a float and [float] of the resulting text are
    inverse to each other, and the separating blanks are what [split]
    removes.  The descriptor of a periodic structure is a matrix and that
    of a non-periodic one is flat ([_get_OMFP]), so the branch of
    [_write_fp] on the periodicity of [self._atoms] is the branch on the
    dimension of [self._fp]. *)

(** Exception classes that the steps of a hop do not raise, next to those
    of [exn]. *)
Inductive py_exn : Type :=
| Exn (e : exn)
| RuntimeError (msg : string)
| TypeError
| ZeroDivisionError.

Inductive py_result (A : Type) : Type :=
| Return (a : A)
| Throw (e : py_exn).
Arguments Return {A} a.
Arguments Throw {A} e.

(** The lines that [_write_fp] appends for the descriptor [self._fp]: one
    line per row of a matrix, one line for a flat descriptor. *)
Definition fp_lines (fp : ndarray) : list (list R) :=
  match fp with
  | Vec v => [v]
  | Mat _ rows => rows
  end.

(** The lines that a list of events appends to fp.dat. *)
Definition fp_file (evs : list event) : list (list R) :=
  flat_map fp_lines (fp_written evs).

(** [np.array(fp_array)] for a non-empty list of 1-D arrays: a matrix when
    the arrays have one length; numpy refuses a ragged list (ValueError,
    from numpy 1.24 on). *)
Definition np_array_rows (fp_array : list (list R)) : result ndarray :=
  let c := length (hd [] fp_array) in
  if forallb (fun r => (length r =? c)%nat) fp_array
  then OK (Mat c fp_array)
  else Raise (ValueError "setting an array element with a sequence")%string.

(** The loop of [_read_fp] for a periodic structure of [nat] atoms: [i] is
    the index of the line read next, [fp_array] the rows collected since
    the last complete descriptor. *)
Fixpoint read_fp_loop (nat : Datatypes.nat) (lines : list (list R))
  (i : Datatypes.nat) (fp_array : list (list R)) (fps : list ndarray) : py_result (list ndarray) :=
  match lines with
  | [] => Return fps
  | fp_vector :: lines' =>
      let fp_array := fp_array ++ [fp_vector] in
      if (nat =? 0)%nat then Throw ZeroDivisionError
      else if ((i + 1) mod nat =? 0)%nat then
        match np_array_rows fp_array with
        | OK m => read_fp_loop nat lines' (i + 1) [] (fps ++ [m])
        | Raise e => Throw (Exn e)
        end
      else read_fp_loop nat lines' (i + 1) fp_array fps
  end.

(** [Minimahopping._read_fp], on the lines of fp.dat; [pbc] is
    [True in self._atoms.pbc] and [nat] is [len(self._atoms)]. *)
Definition _read_fp (pbc : bool) (nat : Datatypes.nat) (lines : list (list R))
  : py_result (list ndarray) :=
  if pbc then read_fp_loop nat lines 0 [] []
  else Return (map Vec lines).

(** A flat descriptor; a matrix descriptor of [nat] rows. *)
Definition is_flat (fp : ndarray) : Prop :=
  match fp with Vec _ => True | Mat _ _ => False end.

Definition is_matrix_of (nat : Datatypes.nat) (fp : ndarray) : Prop :=
  match fp with
  | Vec _ => False
  | Mat c rows => length rows = nat /\ Forall (fun r => length r = c) rows
  end.
(** ** The constructor and its keyword arguments

    [Minimahopping.__init__] takes its settings as keyword arguments,
    checks their names against the class attribute [_default_settings] and
    stores every setting, given or default, in an attribute of the object.
    A dict is modelled as the list of its items in insertion order; the
    keys of a dict are distinct. *)

(** The values of the settings. *)
Inductive pyval : Type :=
| PyFloat (x : R)
| PyInt (n : Z)
| PyBool (b : bool)
| PyStr (s : string)
| PyList (l : list string).

(** [d.get(k)] *)
Fixpoint dict_get (d : list (string * pyval)) (k : string) : option pyval :=
  match d with
  | [] => None
  | (k', v) :: d' => if String.eqb k' k then Some v else dict_get d' k
  end.

(** [k in d] *)
Definition dict_mem (d : list (string * pyval)) (k : string) : bool :=
  match dict_get d k with
  | Some _ => true
  | None => false
  end.

(** [Minimahopping._default_settings], in the order of the source. *)
Definition _default_settings_dict : list (string * pyval) :=
  [ ("T0", PyFloat 2000);
    ("beta_decrease", PyFloat (1 / 1.1));
    ("beta_increase", PyFloat 1.1);
    ("Ediff0", PyFloat 0.01);
    ("alpha_a", PyFloat 0.95);
    ("alpha_r", PyFloat 1.05);
    ("n_soft", PyInt 20);
    ("ns_orb", PyInt 1);
    ("np_orb", PyInt 1);
    ("width_cutoff", PyFloat 3.5);
    ("exclude", PyList []);
    ("dt", PyFloat 0.05);
    ("mdmin", PyInt 2);
    ("fmax", PyFloat 0.000005);
    ("enhanced_feedback", PyBool false);
    ("energy_threshold", PyFloat 0.00005);
    ("n_poslow", PyInt 30);
    ("minima_threshold", PyFloat 0.005);
    ("restart_optim", PyBool false);
    ("start_lowest", PyBool false);
    ("verbose", PyBool true);
    ("new_start", PyBool false);
    ("run_time", PyStr "infinit") ].

(** The first loop of [__init__]: the first keyword that is not a setting
    raises. *)
Fixpoint check_keywords (keys : list string) : py_result unit :=
  match keys with
  | [] => Return tt
  | key :: keys' =>
      if negb (dict_mem _default_settings_dict key)
      then Throw (RuntimeError (String.append "Unknown keyword: " key))
      else check_keywords keys'
  end.

(** [kwargs.pop(k, v)], for its value. *)
Definition kwargs_pop (kwargs : list (string * pyval)) (k : string) (v : pyval)
  : pyval :=
  match dict_get kwargs k with
  | Some v' => v'
  | None => v
  end.

(** [getattr(self, name)] on the attributes set so far. *)
Definition getattr (attrs : list (string * pyval)) (name : string)
  : py_result pyval :=
  match dict_get attrs name with
  | Some v => Return v
  | None => Throw (Exn (AttributeError name))
  end.

(** The object that [__init__] leaves: the structure and the attributes
    set from the settings, in the order in which they are set. *)
Record instance : Type := mkInstance {
  instance_atoms : Atoms;
  instance_dict : list (string * pyval)
}.

(** [Minimahopping.__init__(self, atoms, **kwargs)] *)
Definition __init__kwargs (atoms : Atoms) (kwargs : list (string * pyval))
  : py_result instance :=
  match check_keywords (map fst kwargs) with
  | Throw e => Throw e
  | Return _ =>
      let attrs :=
        map (fun kv => (String.append "_" (fst kv),
                        kwargs_pop kwargs (fst kv) (snd kv)))
            _default_settings_dict in
      match getattr attrs "_T0" with
      | Throw e => Throw e
      | Return _T0 =>
          let attrs := attrs ++ [("_temperature", _T0)] in
          match getattr attrs "_Ediff0" with
          | Throw e => Throw e
          | Return _Ediff0 =>
              let attrs := attrs ++ [("_Ediff", _Ediff0)] in
              let attrs := attrs ++ [("_counter", PyInt 0)] in
              Return (mkInstance atoms attrs)
          end
      end
  end.

(** The keyword arguments of the constructor call in main.py:
    [Minimahopping(atoms, verbose=True, new_start=False, mdmin = 1)]. *)
Definition main_kwargs : list (string * pyval) :=
  [("verbose", PyBool true); ("new_start", PyBool false); ("mdmin", PyInt 1)].

(** The settings that the controller reads, taken from the attributes of
    an object whose values have the types of the defaults; the only
    [run_time] read here is "infinit". *)
Definition settings_of (attrs : list (string * pyval)) : option Settings :=
  match dict_get attrs "_T0", dict_get attrs "_beta_decrease",
        dict_get attrs "_beta_increase", dict_get attrs "_Ediff0",
        dict_get attrs "_alpha_a", dict_get attrs "_alpha_r",
        dict_get attrs "_enhanced_feedback", dict_get attrs "_energy_threshold",
        dict_get attrs "_n_poslow", dict_get attrs "_minima_threshold",
        dict_get attrs "_restart_optim", dict_get attrs "_start_lowest",
        dict_get attrs "_new_start", dict_get attrs "_run_time" with
  | Some (PyFloat t0), Some (PyFloat bd), Some (PyFloat bi), Some (PyFloat e0),
    Some (PyFloat aa), Some (PyFloat ar), Some (PyBool ef), Some (PyFloat et),
    Some (PyInt np), Some (PyFloat mt), Some (PyBool ro), Some (PyBool sl),
    Some (PyBool ns), Some (PyStr rt) =>
      if String.eqb rt "infinit" then
        Some {| T0 := t0; beta_decrease := bd; beta_increase := bi; Ediff0 := e0;
                alpha_a := aa; alpha_r := ar; enhanced_feedback := ef;
                energy_threshold := et; n_poslow := np; minima_threshold := mt;
                restart_optim := ro; start_lowest := sl; new_start := ns;
                run_time := None |}
      else None
  | _, _, _, _, _, _, _, _, _, _, _, _, _, _ => None
  end.

(** *** Float comparisons *)

Lemma Rltb_true (x y : R) : Rltb x y = true <-> x < y.
Proof. unfold Rltb. destruct (Rlt_dec x y); split; intros; try easy. Qed.

Lemma Rltb_false (x y : R) : Rltb x y = false <-> y <= x.
Proof.
  unfold Rltb. destruct (Rlt_dec x y); split; intros; try easy; lra.
Qed.

(** *** Facts about the exception monad *)

Lemma mapM_ok {A B : Type} (f : A -> result B) (g : A -> B) (l : list A) :
  (forall x, In x l -> f x = OK (g x)) -> mapM f l = OK (map g l).
Proof.
  induction l as [|x l IH]; intros Hf; simpl.
  - reflexivity.
  - rewrite (Hf x (or_introl eq_refl)). simpl.
    rewrite IH by (intros y Hy; apply Hf; now right).
    reflexivity.
Qed.

Lemma foldM_ok {A S : Type} (f : S -> A -> result S) (g : S -> A -> S)
  (l : list A) (s : S) :
  (forall s' x, In x l -> f s' x = OK (g s' x)) ->
  foldM f l s = OK (fold_left g l s).
Proof.
  revert s. induction l as [|x l IH]; intros s Hf; simpl.
  - reflexivity.
  - rewrite (Hf s x (or_introl eq_refl)). simpl.
    apply IH. intros s' y Hy. apply Hf. now right.
Qed.

(** *** Facts about the numpy operations *)


Lemma np_sub_same_length (a b : list R) :
  length a = length b -> np_sub a b = OK (diff a b).
Proof.
  intros H. unfold np_sub. rewrite H, Nat.eqb_refl. reflexivity.
Qed.

Lemma Rsum_squares_nonneg (a : list R) : 0 <= Rsum (map (fun x => x * x) a).
Proof.
  induction a as [|x a IH]; simpl.
  - lra.
  - pose proof (Rle_0_sqr x) as Hx. unfold Rsqr in Hx. lra.
Qed.

Lemma np_dot_self (a : list R) : np_dot a a = Rsum (map (fun x => x * x) a).
Proof.
  unfold np_dot. induction a as [|x a IH]; simpl.
  - reflexivity.
  - f_equal. exact IH.
Qed.

Lemma np_dot_self_norm (a : list R) :
  np_dot a a = np_linalg_norm a * np_linalg_norm a.
Proof.
  rewrite np_dot_self. unfold np_linalg_norm.
  symmetry. apply sqrt_sqrt. apply Rsum_squares_nonneg.
Qed.

Lemma np_linalg_norm_nonneg (a : list R) : 0 <= np_linalg_norm a.
Proof. unfold np_linalg_norm. apply sqrt_pos. Qed.

Lemma Rsum_squares_zero (a : list R) :
  Rsum (map (fun x => x * x) a) = 0 -> Forall (fun x => x = 0) a.
Proof.
  induction a as [|x a IH]; simpl; intros H.
  - constructor.
  - pose proof (Rsum_squares_nonneg a) as Ha.
    pose proof (Rle_0_sqr x) as Hx. unfold Rsqr in Hx.
    constructor.
    + assert (Hxx : x * x = 0) by lra.
      destruct (Rmult_integral _ _ Hxx); assumption.
    + apply IH. lra.
Qed.

Lemma np_linalg_norm_zero (a : list R) :
  np_linalg_norm a = 0 -> Forall (fun x => x = 0) a.
Proof.
  unfold np_linalg_norm. intros H.
  apply Rsum_squares_zero.
  apply sqrt_eq_0; [apply Rsum_squares_nonneg | exact H].
Qed.

Lemma diff_zero (a b : list R) :
  length a = length b -> Forall (fun x => x = 0) (diff a b) -> a = b.
Proof.
  revert b. induction a as [|x a IH]; intros [|y b] Hlen H; simpl in *;
    try discriminate; try reflexivity.
  inversion H as [|? ? Hxy Hrest]; subst.
  f_equal; [lra | apply IH; [lia | exact Hrest]].
Qed.

Lemma diff_self (a : list R) : Forall (fun x => x = 0) (diff a a).
Proof.
  unfold diff. induction a as [|x a IH]; simpl; constructor; [lra | exact IH].
Qed.

Lemma Rsum_all_zero (a : list R) : Forall (fun x => x = 0) a -> Rsum a = 0.
Proof.
  induction 1 as [|x a Hx _ IH]; simpl; [reflexivity | lra].
Qed.

Lemma dist_self (a : list R) : dist a a = 0.
Proof.
  unfold dist, np_linalg_norm.
  replace (Rsum (map (fun x => x * x) (diff a a))) with 0; [apply sqrt_0|].
  symmetry. apply Rsum_all_zero.
  pose proof (diff_self a) as H. induction H as [|x l Hx _ IH]; simpl;
    constructor; [subst; lra | exact IH].
Qed.

Lemma dist_zero (a b : list R) : length a = length b -> dist a b = 0 -> a = b.
Proof.
  intros Hlen H. apply diff_zero; [exact Hlen|].
  apply np_linalg_norm_zero. exact H.
Qed.

(** *** Facts about the assignment search *)

Lemma argmin_in {A : Type} (f : A -> R) (l : list A) (best : A) :
  In (argmin f best l) (best :: l).
Proof.
  revert best. induction l as [|x l IH]; intros best; simpl.
  - now left.
  - destruct (Rltb (f x) (f best)).
    + right. apply IH.
    + destruct (IH best) as [H|H]; [now left | right; now right].
Qed.

Lemma argmin_le_best {A : Type} (f : A -> R) (l : list A) (best : A) :
  f (argmin f best l) <= f best.
Proof.
  revert best. induction l as [|x l IH]; intros best; simpl.
  - lra.
  - destruct (Rltb (f x) (f best)) eqn:E.
    + apply Rltb_true in E. specialize (IH x). lra.
    + apply IH.
Qed.

Lemma argmin_least {A : Type} (f : A -> R) (l : list A) (best : A) (y : A) :
  In y (best :: l) -> f (argmin f best l) <= f y.
Proof.
  revert best. induction l as [|x l IH]; intros best Hy; simpl.
  - destruct Hy as [->|[]]. lra.
  - destruct (Rltb (f x) (f best)) eqn:E.
    + apply Rltb_true in E.
      destruct Hy as [->|[->|Hy]].
      * pose proof (argmin_le_best f l x). lra.
      * apply IH. now left.
      * apply IH. now right.
    + apply Rltb_false in E.
      destruct Hy as [->|[->|Hy]].
      * apply IH. now left.
      * pose proof (argmin_le_best f l best). lra.
      * apply IH. now right.
Qed.

Lemma insert_everywhere_sound (x : nat) (l p : list nat) :
  In p (insert_everywhere x l) -> Permutation (x :: l) p.
Proof.
  revert p. induction l as [|y l IH]; intros p Hp; simpl in Hp.
  - destruct Hp as [<-|[]]. apply Permutation_refl.
  - destruct Hp as [<-|Hp]; [apply Permutation_refl|].
    apply in_map_iff in Hp. destruct Hp as [q [<- Hq]].
    apply perm_trans with (y :: x :: l); [apply perm_swap|].
    apply perm_skip. now apply IH.
Qed.

Lemma insert_everywhere_complete (x : nat) (l1 l2 : list nat) :
  In (l1 ++ x :: l2) (insert_everywhere x (l1 ++ l2)).
Proof.
  induction l1 as [|y l1 IH]; simpl.
  - destruct l2; simpl; now left.
  - right. apply in_map. exact IH.
Qed.

Lemma permutations_sound (l p : list nat) :
  In p (permutations l) -> Permutation l p.
Proof.
  revert p. induction l as [|x l IH]; intros p Hp; simpl in Hp.
  - destruct Hp as [<-|[]]. constructor.
  - apply in_flat_map in Hp. destruct Hp as [q [Hq Hp]].
    apply insert_everywhere_sound in Hp.
    apply perm_trans with (x :: q); [apply perm_skip; now apply IH | exact Hp].
Qed.

Lemma permutations_complete (l p : list nat) :
  Permutation l p -> In p (permutations l).
Proof.
  revert p. induction l as [|x l IH]; intros p Hp; simpl.
  - apply Permutation_nil in Hp. subst. now left.
  - assert (Hin : In x p) by (apply (Permutation_in _ Hp); now left).
    apply in_split in Hin. destruct Hin as [l1 [l2 ->]].
    apply Permutation_cons_app_inv in Hp.
    apply in_flat_map. exists (l1 ++ l2). split.
    + now apply IH.
    + apply insert_everywhere_complete.
Qed.

Lemma linear_sum_assignment_rows (costmat : list (list R)) :
  fst (linear_sum_assignment costmat) = seq 0 (length costmat).
Proof. reflexivity. Qed.

Lemma linear_sum_assignment_perm (costmat : list (list R)) :
  Permutation (seq 0 (length costmat)) (snd (linear_sum_assignment costmat)).
Proof.
  unfold linear_sum_assignment. simpl.
  destruct (argmin_in (assignment_cost costmat)
              (permutations (seq 0 (length costmat))) (seq 0 (length costmat)))
    as [<-|H].
  - apply Permutation_refl.
  - now apply permutations_sound.
Qed.

Lemma linear_sum_assignment_optimal (costmat : list (list R)) (p : list nat) :
  Permutation (seq 0 (length costmat)) p ->
  assignment_cost costmat (snd (linear_sum_assignment costmat))
  <= assignment_cost costmat p.
Proof.
  intros Hp. unfold linear_sum_assignment. simpl.
  apply argmin_least. right. now apply permutations_complete.
Qed.

(** *** The matrix branch of [fp_distance] on two matrices of one shape *)


Lemma costmatrix_ok (c : nat) (rows1 rows2 : list (list R)) :
  Forall (fun r => length r = c) rows1 ->
  Forall (fun r => length r = c) rows2 ->
  length rows1 = length rows2 ->
  _costmatrix (Mat c rows1) (Mat c rows2) = OK (cost_of rows1 rows2).
Proof.
  intros H1 H2 Hlen. unfold _costmatrix. simpl.
  rewrite Hlen, Nat.eqb_refl. simpl.
  rewrite Forall_forall in H1, H2.
  apply mapM_ok. intros r1 Hr1.
  apply mapM_ok. intros r2 Hr2.
  rewrite np_sub_same_length by (rewrite (H1 _ Hr1), (H2 _ Hr2); reflexivity).
  reflexivity.
Qed.

Lemma entry_cost_of (rows1 rows2 : list (list R)) (i j : nat) :
  (i < length rows1)%nat -> (j < length rows2)%nat ->
  entry (cost_of rows1 rows2) i j = dist (nth i rows1 []) (nth j rows2 []).
Proof.
  intros Hi Hj. unfold entry, cost_of.
  rewrite (nth_indep _ [] (map (fun r2 => dist (@nil R) r2) rows2))
    by (rewrite length_map; exact Hi).
  rewrite (map_nth (fun r1 => map (fun r2 => dist r1 r2) rows2) rows1 [] i).
  rewrite (nth_indep _ 0 (dist (nth i rows1 []) [])) by (rewrite length_map; exact Hj).
  rewrite (map_nth (fun r2 => dist (nth i rows1 []) r2) rows2 [] j).
  reflexivity.
Qed.

Lemma perm_seq_bounds (n : nat) (p : list nat) :
  Permutation (seq 0 n) p -> length p = n /\ Forall (fun j => (j < n)%nat) p.
Proof.
  intros Hp. split.
  - rewrite <- (Permutation_length Hp). apply length_seq.
  - apply Forall_forall. intros j Hj.
    apply Permutation_sym in Hp.
    apply (Permutation_in _ Hp) in Hj. apply in_seq in Hj. lia.
Qed.

Lemma Rsum_map_ext_in {A : Type} (f g : A -> R) (l : list A) :
  (forall x, In x l -> f x = g x) -> Rsum (map f l) = Rsum (map g l).
Proof.
  intros H. f_equal. apply map_ext_in. exact H.
Qed.

Lemma in_combine_seq (n : nat) (p : list nat) (i j : nat) :
  In (i, j) (combine (seq 0 n) p) -> (i < n)%nat /\ In j p.
Proof.
  intros H. split.
  - apply in_combine_l in H. apply in_seq in H. lia.
  - apply in_combine_r in H. exact H.
Qed.

Lemma assignment_cost_cost_of (rows1 rows2 : list (list R)) (p : list nat) :
  length rows1 = length rows2 ->
  Permutation (seq 0 (length rows1)) p ->
  assignment_cost (cost_of rows1 rows2) p = sum_matched dist rows1 rows2 p.
Proof.
  intros Hlen Hp. destruct (perm_seq_bounds _ _ Hp) as [Hn Hb].
  unfold assignment_cost, sum_matched.
  apply Rsum_map_ext_in. intros [i j] Hij. simpl.
  apply in_combine_seq in Hij. destruct Hij as [Hi Hj].
  rewrite Forall_forall in Hb.
  apply entry_cost_of; [lia | rewrite <- Hlen; now apply Hb].
Qed.

Lemma fold_left_Rplus {A : Type} (h : A -> R) (l : list A) (s : R) :
  fold_left (fun acc x => acc + h x) l s = s + Rsum (map h l).
Proof.
  revert s. induction l as [|x l IH]; intros s; simpl.
  - lra.
  - rewrite IH. lra.
Qed.

Lemma matched_sq_sum (c : nat) (rows1 rows2 : list (list R)) (p : list nat) :
  Forall (fun r => length r = c) rows1 ->
  Forall (fun r => length r = c) rows2 ->
  length rows1 = length rows2 ->
  Permutation (seq 0 (length rows1)) p ->
  foldM (matched_sq rows1 rows2) (combine (seq 0 (length rows1)) p) 0
  = OK (sum_matched (fun a b => dist a b * dist a b) rows1 rows2 p).
Proof.
  intros H1 H2 Hlen Hp. destruct (perm_seq_bounds _ _ Hp) as [Hn Hb].
  rewrite Forall_forall in H1, H2, Hb.
  rewrite (foldM_ok _
    (fun acc idx => acc + (fun idx => dist (nth (fst idx) rows1 []) (nth (snd idx) rows2 [])
                          * dist (nth (fst idx) rows1 []) (nth (snd idx) rows2 [])) idx)).
  - rewrite fold_left_Rplus. unfold sum_matched. rewrite Hn. f_equal. lra.
  - intros s [i j] Hij. apply in_combine_seq in Hij. destruct Hij as [Hi Hj].
    unfold matched_sq. simpl.
    rewrite np_sub_same_length.
    + simpl. rewrite np_dot_self_norm. reflexivity.
    + rewrite (H1 (nth i rows1 [])) by (apply nth_In; lia).
      rewrite (H2 (nth j rows2 [])) by (apply nth_In; rewrite <- Hlen; now apply Hb).
      reflexivity.
Qed.

Lemma length_cost_of (rows1 rows2 : list (list R)) :
  length (cost_of rows1 rows2) = length rows1.
Proof. unfold cost_of. apply length_map. Qed.

Lemma fp_distance_mat (c : nat) (rows1 rows2 : list (list R)) :
  Forall (fun r => length r = c) rows1 ->
  Forall (fun r => length r = c) rows2 ->
  length rows1 = length rows2 ->
  fp_distance (Mat c rows1) (Mat c rows2)
  = OK (sqrt (sum_matched (fun a b => dist a b * dist a b) rows1 rows2
                (snd (linear_sum_assignment (cost_of rows1 rows2))))).
Proof.
  intros H1 H2 Hlen. unfold fp_distance. simpl ndim. simpl py_assert. cbn [bind].
  rewrite (costmatrix_ok c) by assumption. cbn [bind].
  rewrite linear_sum_assignment_rows, length_cost_of. simpl mat_rows.
  rewrite (matched_sq_sum c) by
    (try assumption; rewrite <- (length_cost_of rows1 rows2);
     apply linear_sum_assignment_perm).
  reflexivity.
Qed.

(** *** Evaluating the engine on given numbers *)

Ltac Rltb_eval :=
  repeat match goal with
  | |- context [Rltb ?a ?b] =>
      first [ rewrite (proj2 (Rltb_true a b)) by lra
            | rewrite (proj2 (Rltb_false a b)) by lra ]
  end.

Lemma sqrt_of_square (x y : R) : 0 <= y -> x = y * y -> sqrt x = y.
Proof. intros Hy ->. apply sqrt_square. exact Hy. Qed.

Ltac dist_eval :=
  unfold dist, diff, np_linalg_norm; simpl;
  apply sqrt_of_square; lra.

Lemma sqrt2_pos : 0 < sqrt 2.
Proof. apply sqrt_lt_R0. lra. Qed.

Lemma fp_distance_vec (v1 v2 : list R) :
  length v1 = length v2 -> fp_distance (Vec v1) (Vec v2) = OK (dist v1 v2).
Proof.
  intros H. unfold fp_distance. simpl.
  rewrite np_sub_same_length by exact H. reflexivity.
Qed.

(** Flat descriptors of different lengths are left to numpy's subtraction:
    unless one of them has length 1 (and is broadcast), it raises. *)
Lemma fp_distance_vec_unequal (v1 v2 : list R) :
  length v1 <> length v2 -> length v1 <> 1%nat -> length v2 <> 1%nat ->
  fp_distance (Vec v1) (Vec v2)
  = Raise (ValueError "operands could not be broadcast together").
Proof.
  intros H H1 H2. unfold fp_distance, np_sub. simpl.
  apply Nat.eqb_neq in H, H1, H2. rewrite H, H1, H2. reflexivity.
Qed.

Lemma Rsum_nonneg (l : list R) : Forall (fun x => 0 <= x) l -> 0 <= Rsum l.
Proof.
  induction 1 as [|x l Hx _ IH]; simpl; lra.
Qed.

Lemma Rsum_nonneg_zero (l : list R) :
  Forall (fun x => 0 <= x) l -> Rsum l = 0 -> Forall (fun x => x = 0) l.
Proof.
  induction 1 as [|x l Hx Hl IH]; simpl; intros H.
  - constructor.
  - pose proof (Rsum_nonneg l Hl). constructor; [lra | apply IH; lra].
Qed.

Lemma sum_matched_nonneg (f : list R -> list R -> R) rows1 rows2 cols :
  (forall a b, 0 <= f a b) -> 0 <= sum_matched f rows1 rows2 cols.
Proof.
  intros Hf. unfold sum_matched. apply Rsum_nonneg.
  apply Forall_forall. intros x Hx. apply in_map_iff in Hx.
  destruct Hx as [p [<- _]]. apply Hf.
Qed.

Lemma sum_matched_zero (f : list R -> list R -> R) rows1 rows2 cols i j :
  (forall a b, 0 <= f a b) ->
  sum_matched f rows1 rows2 cols = 0 ->
  In (i, j) (combine (seq 0 (length cols)) cols) ->
  f (nth i rows1 []) (nth j rows2 []) = 0.
Proof.
  intros Hf H Hin. unfold sum_matched in H.
  apply Rsum_nonneg_zero in H.
  - rewrite Forall_forall in H.
    apply (H (f (nth i rows1 []) (nth j rows2 []))).
    apply in_map_iff. exists (i, j). split; [reflexivity | exact Hin].
  - apply Forall_forall. intros x Hx. apply in_map_iff in Hx.
    destruct Hx as [p [<- _]]. apply Hf.
Qed.

Lemma sum_matched_all_zero (f : list R -> list R -> R) rows1 rows2 cols :
  (forall i j, In (i, j) (combine (seq 0 (length cols)) cols) ->
               f (nth i rows1 []) (nth j rows2 []) = 0) ->
  sum_matched f rows1 rows2 cols = 0.
Proof.
  intros H. unfold sum_matched. apply Rsum_all_zero.
  apply Forall_forall. intros x Hx. apply in_map_iff in Hx.
  destruct Hx as [[i j] [<- Hin]]. simpl. now apply H.
Qed.

Lemma combine_seq_nth (p : list nat) (k i : nat) :
  (i < length p)%nat -> In ((k + i)%nat, nth i p 0%nat) (combine (seq k (length p)) p).
Proof.
  revert k i. induction p as [|j p IH]; intros k i Hi; simpl in *.
  - lia.
  - destruct i as [|i].
    + left. f_equal. lia.
    + right. replace (k + S i)%nat with (S k + i)%nat by lia.
      apply IH. lia.
Qed.

Lemma in_combine_seq_nth (p : list nat) (k i j : nat) :
  In (i, j) (combine (seq k (length p)) p) -> j = nth (i - k) p 0%nat /\ (k <= i)%nat.
Proof.
  revert k. induction p as [|x p IH]; intros k H; simpl in *.
  - contradiction.
  - destruct H as [H|H].
    + inversion H; subst. rewrite Nat.sub_diag. split; [reflexivity | lia].
    + apply IH in H. destruct H as [-> Hk].
      replace (i - k)%nat with (S (i - S k))%nat by lia. split; [reflexivity | lia].
Qed.

Lemma dist_nonneg (a b : list R) : 0 <= dist a b.
Proof. apply np_linalg_norm_nonneg. Qed.

Lemma dist_sq_nonneg (a b : list R) : 0 <= dist a b * dist a b.
Proof. pose proof (dist_nonneg a b). nra. Qed.

(** The distance of two matrices of one shape is zero exactly when their
    rows agree up to an assignment permutation. *)
Lemma fp_distance_zero_iff (c : nat) (rows1 rows2 : list (list R)) :
  Forall (fun r => length r = c) rows1 ->
  Forall (fun r => length r = c) rows2 ->
  length rows1 = length rows2 ->
  fp_distance (Mat c rows1) (Mat c rows2) = OK 0
  <-> identical_up_to_permutation rows1 rows2.
Proof.
  intros H1 H2 Hlen. rewrite (fp_distance_mat c) by assumption.
  set (cols := snd (linear_sum_assignment (cost_of rows1 rows2))).
  assert (Hp : Permutation (seq 0 (length rows1)) cols).
  { rewrite <- (length_cost_of rows1 rows2). apply linear_sum_assignment_perm. }
  destruct (perm_seq_bounds _ _ Hp) as [Hn Hb].
  rewrite Forall_forall in H1, H2, Hb.
  split.
  - intros H. injection H as H.
    apply sqrt_eq_0 in H; [|apply sum_matched_nonneg, dist_sq_nonneg].
    exists cols. split; [exact Hp|]. intros i Hi.
    assert (Hin : In (i, nth i cols 0%nat) (combine (seq 0 (length cols)) cols)).
    { apply (combine_seq_nth cols 0 i). lia. }
    pose proof (sum_matched_zero _ _ _ _ _ _ dist_sq_nonneg H Hin) as Hz.
    apply dist_zero.
    + rewrite (H1 (nth i rows1 [])) by (apply nth_In; lia).
      rewrite (H2 (nth (nth i cols 0%nat) rows2 [])); [reflexivity|].
      apply nth_In. rewrite <- Hlen. apply Hb. apply nth_In. lia.
    + destruct (Rmult_integral _ _ Hz); assumption.
  - intros [p [Hperm Hrows]].
    destruct (perm_seq_bounds _ _ Hperm) as [Hpn _].
    assert (Hcost : sum_matched dist rows1 rows2 p = 0).
    { apply sum_matched_all_zero. intros i j Hin.
      destruct (in_combine_seq_nth _ _ _ _ Hin) as [-> _].
      apply in_combine_l in Hin. apply in_seq in Hin.
      rewrite Nat.sub_0_r, <- Hrows by lia. apply dist_self. }
    pose proof (linear_sum_assignment_optimal (cost_of rows1 rows2) p) as Hopt.
    rewrite length_cost_of in Hopt. specialize (Hopt Hperm).
    rewrite !assignment_cost_cost_of in Hopt by assumption.
    fold cols in Hopt. rewrite Hcost in Hopt.
    pose proof (sum_matched_nonneg dist rows1 rows2 cols dist_nonneg) as Hge.
    assert (Hzero : sum_matched dist rows1 rows2 cols = 0) by lra.
    f_equal.
    replace (sum_matched (fun a b => dist a b * dist a b) rows1 rows2 cols) with 0;
      [apply sqrt_0|].
    symmetry. apply sum_matched_all_zero. intros i j Hin.
    rewrite (sum_matched_zero _ _ _ _ _ _ dist_nonneg Hzero Hin). lra.
Qed.

(** *** The scenario of two sites in two dimensions *)

Lemma scenario_cost :
  cost_of [[0; 0]; [1; 1]] [[1; 1]; [0; 0]] = [[sqrt 2; 0]; [0; sqrt 2]].
Proof.
  unfold cost_of. simpl.
  repeat f_equal; try dist_eval;
    unfold dist, diff, np_linalg_norm; simpl; f_equal; lra.
Qed.

Lemma scenario_assignment :
  linear_sum_assignment [[sqrt 2; 0]; [0; sqrt 2]] = ([0; 1]%nat, [1; 0]%nat).
Proof.
  pose proof sqrt2_pos.
  unfold linear_sum_assignment. simpl.
  unfold assignment_cost, entry. simpl.
  Rltb_eval. reflexivity.
Qed.

Lemma scenario_distance : fp_distance scenario_d1 scenario_d2 = OK 0.
Proof.
  unfold scenario_d1, scenario_d2.
  rewrite (fp_distance_mat 2) by (repeat constructor).
  rewrite scenario_cost, scenario_assignment.
  unfold sum_matched. simpl. f_equal.
  replace (dist [0; 0] [0; 0]) with 0 by (symmetry; apply dist_self).
  replace (dist [1; 1] [1; 1]) with 0 by (symmetry; apply dist_self).
  apply sqrt_of_square; lra.
Qed.

(** C2, as stated: on [[0,0],[1,1]] and [[1,1],[0,0]] the distance is 2.0.
    It is not: [fp_distance] does not return 2 on these descriptors. *)
Lemma scenario_distance_is_not_two :
  fp_distance scenario_d1 scenario_d2 <> OK 2.
Proof.
  rewrite scenario_distance. intros H. injection H as H. lra.
Qed.

(** C2, amended: on [[0,0],[1,1]] and [[1,1],[0,0]], [fp_distance] returns
    0; the assignment matches site 0 to row 1 and site 1 to row 0, and each
    matched pair is at distance 0.  This agrees with the contract, which
    holds for all descriptors of one shape: the distance of two matrices is
    zero exactly when they are identical up to an assignment permutation,
    and the distance of two vectors exactly when they are identical. *)
Theorem scenario_distance_is_zero :
  fp_distance scenario_d1 scenario_d2 = OK 0 /\
  chosen_assignment scenario_d1 scenario_d2 = OK [1; 0]%nat /\
  dist (nth 0 (mat_rows scenario_d1) []) (nth 1 (mat_rows scenario_d2) []) = 0 /\
  dist (nth 1 (mat_rows scenario_d1) []) (nth 0 (mat_rows scenario_d2) []) = 0 /\
  (forall c rows1 rows2,
      well_shaped (Mat c rows1) -> well_shaped (Mat c rows2) ->
      shape (Mat c rows1) = shape (Mat c rows2) ->
      (fp_distance (Mat c rows1) (Mat c rows2) = OK 0
       <-> identical_up_to_permutation rows1 rows2)) /\
  (forall v1 v2,
      shape (Vec v1) = shape (Vec v2) ->
      (fp_distance (Vec v1) (Vec v2) = OK 0 <-> v1 = v2)).
Proof.
  split; [exact scenario_distance|].
  split.
  { unfold chosen_assignment, scenario_d1, scenario_d2.
    rewrite (costmatrix_ok 2) by (repeat constructor). cbn [bind].
    rewrite scenario_cost, scenario_assignment. reflexivity. }
  split; [apply dist_self|].
  split; [apply dist_self|].
  split.
  - intros c rows1 rows2 H1 H2 Hs. simpl in H1, H2, Hs.
    apply fp_distance_zero_iff; try assumption. congruence.
  - intros v1 v2 Hs. simpl in Hs. injection Hs as Hlen.
    rewrite fp_distance_vec by exact Hlen. split.
    + intros H. injection H as H. apply dist_zero; assumption.
    + intros ->. f_equal. apply dist_self.
Qed.

(** *** The objective of the assignment *)

Lemma triangle_cost :
  cost_of [[0; 3]; [-4; 0]] [[0; 3]; [4; 0]] = [[0; 5]; [5; 8]].
Proof.
  unfold cost_of. simpl. repeat f_equal; dist_eval.
Qed.

Lemma triangle_assignment :
  linear_sum_assignment [[0; 5]; [5; 8]] = ([0; 1]%nat, [0; 1]%nat).
Proof.
  unfold linear_sum_assignment. simpl.
  unfold assignment_cost, entry. simpl.
  Rltb_eval. reflexivity.
Qed.

Lemma triangle_chosen :
  chosen_assignment triangle_d1 triangle_d2 = OK [0; 1]%nat.
Proof.
  unfold chosen_assignment, triangle_d1, triangle_d2.
  rewrite (costmatrix_ok 2) by (repeat constructor). cbn [bind].
  rewrite triangle_cost, triangle_assignment. reflexivity.
Qed.

Lemma triangle_squares_chosen :
  sum_of_squares [[0; 3]; [-4; 0]] [[0; 3]; [4; 0]] [0; 1]%nat = 64.
Proof.
  unfold sum_of_squares, sum_matched. simpl.
  replace (dist [0; 3] [0; 3]) with 0 by (symmetry; dist_eval).
  replace (dist [-4; 0] [4; 0]) with 8 by (symmetry; dist_eval).
  lra.
Qed.

Lemma triangle_squares_swapped :
  sum_of_squares [[0; 3]; [-4; 0]] [[0; 3]; [4; 0]] [1; 0]%nat = 50.
Proof.
  unfold sum_of_squares, sum_matched. simpl.
  replace (dist [0; 3] [4; 0]) with 5 by (symmetry; dist_eval).
  replace (dist [-4; 0] [0; 3]) with 5 by (symmetry; dist_eval).
  lra.
Qed.

(** C3, as stated: the assignment chosen by [fp_distance] minimises the sum
    of squared matched distances.  It does not on the rows (0,3), (-4,0)
    against (0,3), (4,0): the chosen assignment keeps the rows in place
    (squares 0 + 64) although swapping them gives 25 + 25. *)
Lemma triangle_not_sum_of_squares :
  ~ minimises_sum_of_squares triangle_d1 triangle_d2.
Proof.
  intros [cols [Hc [Hmin _]]].
  rewrite triangle_chosen in Hc. injection Hc as <-.
  specialize (Hmin [1; 0]%nat). simpl in Hmin.
  rewrite triangle_squares_chosen, triangle_squares_swapped in Hmin.
  assert (Hp : Permutation [0; 1]%nat [1; 0]%nat) by apply perm_swap.
  specialize (Hmin Hp). lra.
Qed.

(** C3, amended: for two matrices of one shape, the assignment chosen by
    [fp_distance] is a permutation of the rows that minimises the sum of the
    matched Euclidean distances (the entries of the cost matrix), and the
    value returned is the square root of the sum of the squared matched
    distances under that assignment. *)
Theorem fp_distance_minimises_sum_of_distances
  (c : nat) (rows1 rows2 : list (list R)) :
  well_shaped (Mat c rows1) -> well_shaped (Mat c rows2) ->
  length rows1 = length rows2 ->
  exists cols,
    chosen_assignment (Mat c rows1) (Mat c rows2) = OK cols /\
    Permutation (seq 0 (length rows1)) cols /\
    (forall p, Permutation (seq 0 (length rows1)) p ->
       sum_of_distances rows1 rows2 cols <= sum_of_distances rows1 rows2 p) /\
    fp_distance (Mat c rows1) (Mat c rows2)
    = OK (sqrt (sum_of_squares rows1 rows2 cols)).
Proof.
  intros H1 H2 Hlen. simpl in H1, H2.
  exists (snd (linear_sum_assignment (cost_of rows1 rows2))).
  assert (Hp : Permutation (seq 0 (length rows1))
                 (snd (linear_sum_assignment (cost_of rows1 rows2)))).
  { rewrite <- (length_cost_of rows1 rows2). apply linear_sum_assignment_perm. }
  split.
  { unfold chosen_assignment. rewrite (costmatrix_ok c) by assumption. reflexivity. }
  split; [exact Hp|].
  split.
  - intros p Hperm. unfold sum_of_distances.
    rewrite <- !assignment_cost_cost_of by assumption.
    apply linear_sum_assignment_optimal. rewrite length_cost_of. exact Hperm.
  - apply (fp_distance_mat c); assumption.
Qed.

Lemma fp_distance_minimises_sum_of_distances_witness :
  exists cols,
    chosen_assignment triangle_d1 triangle_d2 = OK cols /\
    Permutation (seq 0 2) cols /\
    (forall p, Permutation (seq 0 2) p ->
       sum_of_distances [[0; 3]; [-4; 0]] [[0; 3]; [4; 0]] cols
       <= sum_of_distances [[0; 3]; [-4; 0]] [[0; 3]; [4; 0]] p) /\
    fp_distance triangle_d1 triangle_d2
    = OK (sqrt (sum_of_squares [[0; 3]; [-4; 0]] [[0; 3]; [4; 0]] cols)).
Proof.
  apply (fp_distance_minimises_sum_of_distances 2
           [[0; 3]; [-4; 0]] [[0; 3]; [4; 0]]);
    simpl; repeat constructor.
Defined.

(** *** The shape contract *)

Lemma np_sub_returns (a b : list R) :
  broadcastable (length a) (length b) -> exists d, np_sub a b = OK d.
Proof.
  intros H. unfold np_sub.
  destruct (length a =? length b)%nat eqn:E; [eauto|].
  destruct (length a =? 1)%nat eqn:E1; [eauto|].
  destruct (length b =? 1)%nat eqn:E2; [eauto|].
  apply Nat.eqb_neq in E, E1, E2. destruct H as [H|[H|H]]; contradiction.
Qed.

Lemma np_sub_not_broadcastable (a b : list R) :
  ~ broadcastable (length a) (length b) ->
  np_sub a b = Raise (ValueError "operands could not be broadcast together").
Proof.
  intros H. unfold np_sub, broadcastable in *.
  destruct (Nat.eqb_spec (length a) (length b)); [tauto|].
  destruct (Nat.eqb_spec (length a) 1); [tauto|].
  destruct (Nat.eqb_spec (length b) 1); [tauto|].
  reflexivity.
Qed.

Lemma mapM_returns {A B : Type} (f : A -> result B) (l : list A) :
  (forall x, In x l -> exists y, f x = OK y) ->
  exists ys, mapM f l = OK ys /\ length ys = length l.
Proof.
  induction l as [|x l IH]; intros Hf; simpl.
  - exists []. split; reflexivity.
  - destruct (Hf x (or_introl eq_refl)) as [y Hy]. rewrite Hy. simpl.
    destruct IH as [ys [Hys Hlen]]; [intros z Hz; apply Hf; now right|].
    rewrite Hys. simpl. exists (y :: ys). split; [reflexivity | simpl; congruence].
Qed.

Lemma foldM_returns {A S : Type} (P : S -> Prop) (f : S -> A -> result S)
  (l : list A) (s : S) :
  (forall s' x, In x l -> P s' -> exists s'', f s' x = OK s'' /\ P s'') ->
  P s -> exists s', foldM f l s = OK s' /\ P s'.
Proof.
  revert s. induction l as [|x l IH]; intros s Hf Hs; simpl.
  - exists s. split; [reflexivity | exact Hs].
  - destruct (Hf s x (or_introl eq_refl) Hs) as [s1 [H1 P1]]. rewrite H1. simpl.
    apply IH; [|exact P1]. intros s' y Hy. apply Hf. now right.
Qed.

(** Two matrices with the same number of rows whose row widths numpy can
    subtract (or that have no rows at all) get a distance. *)
Lemma fp_distance_mat_returns (c1 c2 : nat) (rows1 rows2 : list (list R)) :
  Forall (fun r => length r = c1) rows1 ->
  Forall (fun r => length r = c2) rows2 ->
  length rows1 = length rows2 ->
  rows1 = [] \/ broadcastable c1 c2 ->
  exists r, fp_distance (Mat c1 rows1) (Mat c2 rows2) = OK r /\ 0 <= r.
Proof.
  intros H1 H2 Hlen Hb. rewrite Forall_forall in H1, H2.
  assert (Hsub : forall r1 r2, In r1 rows1 -> In r2 rows2 ->
                   exists d, np_sub r1 r2 = OK d).
  { intros r1 r2 I1 I2. destruct Hb as [-> | Hb]; [destruct I1|].
    apply np_sub_returns. now rewrite (H1 _ I1), (H2 _ I2). }
  unfold fp_distance. simpl ndim. simpl py_assert. cbn [bind].
  unfold _costmatrix. simpl shape0. rewrite Hlen, Nat.eqb_refl.
  simpl py_assert. cbn [bind]. simpl mat_rows.
  destruct (mapM_returns
              (fun vec1 => mapM (fun vec2 => d <- np_sub vec1 vec2 ;;
                                                OK (np_linalg_norm d)) rows2)
              rows1) as [costmat [Hc Hn]].
  { intros r1 I1.
    destruct (mapM_returns (fun vec2 => d <- np_sub r1 vec2 ;; OK (np_linalg_norm d))
                rows2) as [row [Hrow _]].
    - intros r2 I2. destruct (Hsub r1 r2 I1 I2) as [d Hd]. rewrite Hd. simpl. eauto.
    - eauto. }
  rewrite Hc. cbn [bind].
  rewrite linear_sum_assignment_rows.
  pose proof (linear_sum_assignment_perm costmat) as Hp.
  destruct (perm_seq_bounds _ _ Hp) as [_ Hbnd]. rewrite Forall_forall in Hbnd.
  destruct (foldM_returns (fun s => 0 <= s) (matched_sq rows1 rows2)
              (combine (seq 0 (length costmat)) (snd (linear_sum_assignment costmat))) 0)
    as [s [Hs Ps]].
  - intros s' [i j] Hij Ps'. apply in_combine_seq in Hij. destruct Hij as [Hi Hj].
    apply Hbnd in Hj. unfold matched_sq. simpl fst. simpl snd.
    destruct (Hsub (nth i rows1 []) (nth j rows2 [])) as [d Hd].
    + apply nth_In. lia.
    + apply nth_In. lia.
    + rewrite Hd. simpl. eexists. split; [reflexivity|].
      rewrite np_dot_self. pose proof (Rsum_squares_nonneg d). lra.
  - lra.
  - rewrite Hs. cbn [bind]. eexists. split; [reflexivity | apply sqrt_pos].
Qed.

(** Two matrices with the same positive number of rows whose row widths
    numpy cannot subtract: the first entry of the cost matrix raises. *)
Lemma fp_distance_mat_raises (c1 c2 : nat) (rows1 rows2 : list (list R)) :
  Forall (fun r => length r = c1) rows1 ->
  Forall (fun r => length r = c2) rows2 ->
  length rows1 = length rows2 ->
  rows1 <> [] -> ~ broadcastable c1 c2 ->
  fp_distance (Mat c1 rows1) (Mat c2 rows2)
  = Raise (ValueError "operands could not be broadcast together").
Proof.
  intros H1 H2 Hlen Hne Hb.
  destruct rows1 as [|r1 rows1]; [congruence|].
  destruct rows2 as [|r2 rows2]; [discriminate|].
  inversion H1; subst. inversion H2; subst.
  unfold fp_distance. simpl ndim. simpl py_assert. cbn [bind].
  unfold _costmatrix.
  replace (shape0 (Mat (length r1) (r1 :: rows1))
           =? shape0 (Mat (length r2) (r2 :: rows2)))%nat with true
    by (symmetry; apply Nat.eqb_eq; exact Hlen).
  simpl py_assert. cbn [bind]. simpl mat_rows. cbn [mapM].
  rewrite (np_sub_not_broadcastable r1 r2 Hb). reflexivity.
Qed.

(** C9, as stated: every pair of descriptors of matching dimensionality
    and, for matrices, matching row count gets a number.  It does not: the
    flat descriptors (1, 2) and (1, 2, 3) are both 1-D, pass the three
    assertions of [fp_distance], and numpy's subtraction raises
    ValueError. *)
Lemma matching_dimensions_can_raise :
  matching_dimensions (Vec [1; 2]) (Vec [1; 2; 3]) /\
  fp_distance (Vec [1; 2]) (Vec [1; 2; 3])
  = Raise (ValueError "operands could not be broadcast together") /\
  ~ returns_on_matching_dimensions.
Proof.
  assert (M : matching_dimensions (Vec [1; 2]) (Vec [1; 2; 3]))
    by (split; [reflexivity | discriminate]).
  split; [exact M|].
  split; [apply fp_distance_vec_unequal; simpl; discriminate|].
  intros H. destruct (H (Vec [1; 2]) (Vec [1; 2; 3]) I I M) as [r Hr].
  discriminate Hr.
Qed.

(** C9, amended: two descriptors of different dimensionality, or two
    matrices with different row counts, make [fp_distance] fail with an
    assertion.  Among the pairs that pass the assertions, the lengths of the
    operands of numpy's subtraction decide (the lengths of two vectors, the
    row widths of two matrices): if they are equal, or one of them is 1 and
    that operand is broadcast, or the matrices have no rows so that nothing
    is subtracted, [fp_distance] returns a number that is not negative;
    otherwise it raises numpy's ValueError.  In particular two descriptors
    of one and the same shape get a number. *)
Theorem fp_distance_shape_contract (d1 d2 : ndarray) :
  (ndim d1 <> ndim d2 ->
   fp_distance d1 d2
   = Raise (AssertionError "Dimension of vector 1 is and vector 2 is different")) /\
  (ndim d1 = 2%nat -> ndim d2 = 2%nat -> shape0 d1 <> shape0 d2 ->
   fp_distance d1 d2
   = Raise (AssertionError "descriptor has not the same length")) /\
  (well_shaped d1 -> well_shaped d2 -> shape d1 = shape d2 ->
   exists r, fp_distance d1 d2 = OK r /\ 0 <= r) /\
  (well_shaped d1 -> well_shaped d2 -> matching_dimensions d1 d2 ->
   no_rows d1 \/ broadcastable (last_axis d1) (last_axis d2) ->
   exists r, fp_distance d1 d2 = OK r /\ 0 <= r) /\
  (well_shaped d1 -> well_shaped d2 -> matching_dimensions d1 d2 ->
   ~ no_rows d1 -> ~ broadcastable (last_axis d1) (last_axis d2) ->
   fp_distance d1 d2
   = Raise (ValueError "operands could not be broadcast together")).
Proof.
  split; [|split; [|split; [|split]]].
  - intros H. destruct d1, d2; simpl in H; try congruence; reflexivity.
  - intros Hn1 Hn2 H. destruct d1, d2; simpl in Hn1, Hn2; try discriminate.
    simpl in H. unfold fp_distance, _costmatrix. simpl.
    apply Nat.eqb_neq in H. rewrite H. reflexivity.
  - intros H1 H2 Hs. destruct d1 as [v1|c1 rows1], d2 as [v2|c2 rows2];
      simpl in Hs; try discriminate.
    + injection Hs as Hlen. rewrite fp_distance_vec by exact Hlen.
      eexists. split; [reflexivity | apply dist_nonneg].
    + injection Hs as Hlen Hc. subst c2. simpl in H1, H2.
      rewrite (fp_distance_mat c1) by assumption.
      eexists. split; [reflexivity | apply sqrt_pos].
  - intros H1 H2 [Hd Hr] Hb.
    destruct d1 as [v1|c1 rows1], d2 as [v2|c2 rows2]; simpl in Hd; try discriminate.
    + destruct Hb as [[]|Hb]. simpl in Hb.
      destruct (np_sub_returns v1 v2 Hb) as [d Hsub].
      unfold fp_distance. simpl. rewrite Hsub. simpl.
      eexists. split; [reflexivity | apply np_linalg_norm_nonneg].
    + simpl in H1, H2, Hr, Hb.
      apply fp_distance_mat_returns; auto.
  - intros H1 H2 [Hd Hr] Hn Hb.
    destruct d1 as [v1|c1 rows1], d2 as [v2|c2 rows2]; simpl in Hd; try discriminate.
    + simpl in Hb. unfold fp_distance. simpl.
      rewrite (np_sub_not_broadcastable v1 v2 Hb). reflexivity.
    + simpl in H1, H2, Hr, Hn, Hb.
      apply fp_distance_mat_raises; auto.
Qed.


Lemma fp_distance_shape_contract_witness :
  fp_distance (Vec [1; 2]) (Mat 2 [[1; 2]])
  = Raise (AssertionError "Dimension of vector 1 is and vector 2 is different") /\
  fp_distance (Mat 2 [[1; 2]]) (Mat 2 [[1; 2]; [3; 4]])
  = Raise (AssertionError "descriptor has not the same length") /\
  (exists r, fp_distance (Vec [1; 2; 3]) (Vec [1; 2; 3]) = OK r /\ 0 <= r) /\
  (exists r, fp_distance (Mat 2 [[1; 2]; [3; 4]]) (Mat 2 [[3; 4]; [1; 2]]) = OK r /\ 0 <= r) /\
  (exists r, fp_distance (Vec [1]) (Vec [1; 2; 3]) = OK r /\ 0 <= r) /\
  (exists r, fp_distance (Mat 1 [[1]; [2]]) (Mat 2 [[1; 2]; [3; 4]]) = OK r /\ 0 <= r) /\
  (exists r, fp_distance (Mat 2 []) (Mat 3 []) = OK r /\ 0 <= r) /\
  fp_distance (Mat 2 [[1; 2]]) (Mat 3 [[1; 2; 3]])
  = Raise (ValueError "operands could not be broadcast together").
Proof.
  split; [|split; [|split; [|split; [|split; [|split; [|split]]]]]].
  - apply (proj1 (fp_distance_shape_contract (Vec [1; 2]) (Mat 2 [[1; 2]]))).
    simpl. discriminate.
  - apply (proj1 (proj2 (fp_distance_shape_contract
                           (Mat 2 [[1; 2]]) (Mat 2 [[1; 2]; [3; 4]]))));
      simpl; try reflexivity; discriminate.
  - apply (proj1 (proj2 (proj2 (fp_distance_shape_contract
                                  (Vec [1; 2; 3]) (Vec [1; 2; 3])))));
      simpl; auto.
  - apply (proj1 (proj2 (proj2 (fp_distance_shape_contract
                                  (Mat 2 [[1; 2]; [3; 4]]) (Mat 2 [[3; 4]; [1; 2]])))));
      simpl; repeat constructor.
  - apply (proj1 (proj2 (proj2 (proj2 (fp_distance_shape_contract
                                         (Vec [1]) (Vec [1; 2; 3]))))));
      [exact I | exact I | split; [reflexivity | discriminate]
      | right; right; left; reflexivity].
  - apply (proj1 (proj2 (proj2 (proj2 (fp_distance_shape_contract
                                         (Mat 1 [[1]; [2]]) (Mat 2 [[1; 2]; [3; 4]]))))));
      [simpl; repeat constructor | simpl; repeat constructor
      | split; reflexivity | right; right; left; reflexivity].
  - apply (proj1 (proj2 (proj2 (proj2 (fp_distance_shape_contract
                                         (Mat 2 []) (Mat 3 []))))));
      [simpl; constructor | simpl; constructor
      | split; reflexivity | left; reflexivity].
  - apply (proj2 (proj2 (proj2 (proj2 (fp_distance_shape_contract
                                         (Mat 2 [[1; 2]]) (Mat 3 [[1; 2; 3]]))))));
      [simpl; repeat constructor | simpl; repeat constructor
      | split; reflexivity | simpl; discriminate
      | unfold broadcastable; simpl; intros [H | [H | H]]; discriminate].
Defined.

(** ** The controller: which step changes what *)

Lemma bind_ok {A B : Type} (m : result A) (k : A -> result B) (b : B) :
  bind m k = OK b -> exists a, m = OK a /\ k a = OK b.
Proof.
  destruct m as [a|e]; simpl; intros H; [exists a; auto | discriminate].
Qed.

Ltac bind_inv H :=
  let x := fresh "x" in
  let Hx := fresh "Hx" in
  apply bind_ok in H; destruct H as [x [Hx H]].

Lemma escape_keeps_refl (st : State) : escape_keeps st st.
Proof. unfold escape_keeps. repeat split; auto. Qed.

Lemma escape_keeps_trans (st1 st2 st3 : State) :
  escape_keeps st1 st2 -> escape_keeps st2 st3 -> escape_keeps st1 st3.
Proof.
  unfold escape_keeps.
  intros (A1 & A2 & A3 & A4 & A5 & A6 & A7 & A8 & A9 & A10 & A11 & A12 & A13)
         (B1 & B2 & B3 & B4 & B5 & B6 & B7 & B8 & B9 & B10 & B11 & B12 & B13).
  repeat split; try congruence.
  intros H. rewrite B13 by congruence. auto.
Qed.

Lemma check_energy_threshold_keeps (x : R) (st : State) :
  escape_keeps st (_check_energy_threshold x st) /\
  _atoms (_check_energy_threshold x st) = _atoms st /\
  all_minima_sorted (_check_energy_threshold x st) = all_minima_sorted st.
Proof.
  unfold _check_energy_threshold, escape_keeps.
  destruct (Rltb _ _); cbn; repeat split; auto.
Qed.

Lemma mutate_atoms_keeps (a : Atoms) (st : State) :
  escape_keeps st (mutate_atoms a st) /\ _atoms (mutate_atoms a st) = a.
Proof.
  unfold mutate_atoms, escape_keeps.
  destruct (_atoms_alias st) eqn:E; cbn; repeat split; auto; try discriminate.
Qed.

Lemma escape_loop_keeps (outcomes : list md_outcome) :
  forall fp_in e_in esc esc_e i st st',
    escape_loop outcomes fp_in e_in esc esc_e i st = OK st' ->
    escape_keeps st st'.
Proof.
  induction outcomes as [|o outcomes IH]; intros fp_in e_in esc esc_e i st st' H;
    simpl in H.
  - destruct (_ || _); [discriminate|]. injection H as <-. apply escape_keeps_refl.
  - destruct (_ || _); [|injection H as <-; apply escape_keeps_refl].
    bind_inv H. apply IH in H.
    eapply escape_keeps_trans; [|exact H]. clear H Hx IH.
    match goal with
    | |- escape_keeps st (set_n_min _ (emit _ (set_fp _
           (_check_energy_threshold _ (mutate_atoms _ ?s))))) =>
        assert (Hs : escape_keeps st s)
    end.
    { destruct (0 <? i)%Z; [|apply escape_keeps_refl].
      unfold escape_keeps. cbn. repeat split; auto. }
    match goal with
    | |- escape_keeps st (set_n_min _ (emit _ (set_fp _
           (_check_energy_threshold ?x (mutate_atoms ?a ?s))))) =>
        destruct (mutate_atoms_keeps a s) as [Hm _];
        destruct (check_energy_threshold_keeps x (mutate_atoms a s)) as [Hc _];
        pose proof (escape_keeps_trans _ _ _ (escape_keeps_trans _ _ _ Hs Hm) Hc) as Hk
    end.
    eapply escape_keeps_trans; [exact Hk|].
    unfold escape_keeps. cbn. repeat split; auto.
Qed.

(** [_escape] appends the structure it ends on to the list of candidates
    and leaves the acceptance threshold alone. *)
Lemma escape_appends (outcomes : list md_outcome) (st st' : State) :
  _escape outcomes st = OK st' ->
  intermediate_minima st' = intermediate_minima st ++ [_atoms st'] /\
  settings st' = settings st /\ _Ediff st' = _Ediff st /\
  _atoms_cur st' = _atoms_cur st /\ _counter st' = _counter st /\
  _i_step st' = _i_step st /\ _n_unique st' = _n_unique st /\
  _n_notunique st' = _n_notunique st /\ _atoms_alias st' = _atoms_alias st /\
  (_atoms_alias st = None -> all_minima_sorted st' = all_minima_sorted st) /\
  unique_minima st' = unique_minima st.
Proof.
  unfold _escape. intros H. bind_inv H. injection H as <-.
  apply escape_loop_keeps in Hx.
  destruct Hx as (A1 & A2 & A3 & A4 & A5 & A6 & A7 & A8 & A9 & A10 & A11 & A12 & A13).
  cbn. rewrite A9. repeat split; auto.
Qed.

Lemma acc_rej_body_keeps (e_cur : R) (st : State) (atom : Atoms) :
  acc_rej_keeps st (acc_rej_body e_cur st atom).
Proof.
  unfold acc_rej_body, acc_rej_keeps.
  destruct (Rltb _ _); cbn; repeat split; reflexivity.
Qed.

Lemma acc_rej_fold_keeps (e_cur : R) (l : list Atoms) (st : State) :
  acc_rej_keeps st (fold_left (acc_rej_body e_cur) l st).
Proof.
  revert st. induction l as [|a l IH]; intros st; simpl.
  - unfold acc_rej_keeps. repeat split; reflexivity.
  - specialize (IH (acc_rej_body e_cur st a)).
    pose proof (acc_rej_body_keeps e_cur st a) as Hb.
    unfold acc_rej_keeps in *. 
    destruct IH as (A1 & A2 & A3 & A4 & A5 & A6 & A7 & A8 & A9 & A10 & A11 & A12 & A13 & A14).
    destruct Hb as (B1 & B2 & B3 & B4 & B5 & B6 & B7 & B8 & B9 & B10 & B11 & B12 & B13 & B14).
    repeat split; congruence.
Qed.

Lemma acc_rej_step_keeps (st st' : State) :
  _acc_rej_step st = OK st' -> acc_rej_keeps st st'.
Proof.
  unfold _acc_rej_step.
  pose proof (acc_rej_fold_keeps (get_potential_energy (_atoms_cur st))
                (intermediate_minima st) st) as Hk.
  destruct (intermediate_minima st) eqn:E; [discriminate|].
  intros H. injection H as <-. exact Hk.
Qed.

Lemma adj_temperature_frame (st st' : State) :
  _adj_temperature st = OK st' -> adj_temperature_keeps st st'.
Proof.
  unfold _adj_temperature, _write_fp, get_fp, adj_temperature_keeps.
  destruct (1 <? _n_visits st)%Z.
  - cbn. destruct (enhanced_feedback (settings st)); intros H; injection H as <-;
      cbn; repeat split; reflexivity.
  - cbn. destruct (_fp st) eqn:E; cbn; intros H; [|discriminate]. injection H as <-.
    cbn. rewrite ?E. repeat split; reflexivity.
Qed.

Lemma update_data_frame (st st' : State) :
  _update_data st = OK st' -> update_data_keeps st st'.
Proof.
  unfold _update_data, get_fp, update_data_keeps.
  destruct (tag_eqb (_acc_rej st) Accepted); cbn;
    destruct (_fp st) eqn:E; cbn; intros H; try discriminate; injection H as <-;
    destruct (_atoms_alias st); cbn;
    try match goal with |- context [if ?b then _ else _] => destruct b end;
    cbn; rewrite ?E; repeat split; reflexivity.
Qed.

Lemma write_poslow_loop_frame (l : list Minimum) :
  forall i st, same_but_out st (write_poslow_loop l i st).
Proof.
  induction l as [|s l IH]; intros i st; simpl.
  - unfold same_but_out. repeat split; reflexivity.
  - assert (H : same_but_out st
                  (if (n_visit s =? 1)%Z then emit (WritePoslow i (atoms s)) st else st)).
    { destruct (n_visit s =? 1)%Z; unfold same_but_out; cbn; repeat split; reflexivity. }
    assert (Hs : settings (if (n_visit s =? 1)%Z
                           then emit (WritePoslow i (atoms s)) st else st) = settings st).
    { destruct (n_visit s =? 1)%Z; reflexivity. }
    destruct (_ <? _)%Z; [exact H|].
    match goal with |- same_but_out _ (write_poslow_loop l ?j ?s') =>
      specialize (IH j s') end.
    unfold same_but_out in *.
    destruct H as (A1 & A2 & A3 & A4 & A5 & A6 & A7 & A8 & A9 & A10 & A11 & A12
                   & A13 & A14 & A15 & A16 & A17 & A18 & A19 & A20).
    destruct IH as (B1 & B2 & B3 & B4 & B5 & B6 & B7 & B8 & B9 & B10 & B11 & B12
                   & B13 & B14 & B15 & B16 & B17 & B18 & B19 & B20).
    repeat split; congruence.
Qed.

Lemma write_poslow_frame (st : State) : same_but_out st (_write_poslow st).
Proof. apply write_poslow_loop_frame. Qed.

(** A hop that returns went through its six steps. *)
Lemma hop_steps (outcomes : list md_outcome) (st st' : State) :
  hop outcomes st = OK st' ->
  exists st1 st2 n st3 st4,
    _escape outcomes st = OK st1 /\
    _acc_rej_step st1 = OK st2 /\
    _in_history_fp (_hoplog st2) = OK n /\
    _adj_temperature (set_n_visits n (_hoplog st2)) = OK st3 /\
    _update_data st3 = OK st4 /\
    st' = set_counter (_counter (_write_poslow st4) + 1)%Z
            (rebind_atoms (_atoms_cur (_write_poslow st4))
               (_history_log (_write_poslow st4))).
Proof.
  unfold hop. intros H.
  apply bind_ok in H. destruct H as [st1 [H1 H]].
  apply bind_ok in H. destruct H as [st2 [H2 H]].
  apply bind_ok in H. destruct H as [n [Hn H]].
  apply bind_ok in H. destruct H as [st3 [H3 H]].
  apply bind_ok in H. destruct H as [st4 [H4 H]].
  injection H as <-.
  exists st1, st2, n, st3, st4. repeat split; assumption.
Qed.

(** What a hop does to the counters and to the settings. *)
Lemma hop_counters (outcomes : list md_outcome) (st st' : State) :
  hop outcomes st = OK st' ->
  settings st' = settings st /\
  _counter st' = (_counter st + 1)%Z /\
  _i_step st' = (_i_step st + 1)%Z.
Proof.
  intros H. apply hop_steps in H.
  destruct H as (st1 & st2 & n & st3 & st4 & H1 & H2 & Hn & H3 & H4 & ->).
  apply escape_appends in H1. apply acc_rej_step_keeps in H2.
  apply adj_temperature_frame in H3. apply update_data_frame in H4.
  pose proof (write_poslow_frame st4) as H5.
  unfold acc_rej_keeps, adj_temperature_keeps, update_data_keeps, same_but_out in *.
  cbn in *.
  destruct H1 as (_ & E1 & _ & _ & E2 & E3 & _).
  destruct H2 as (A1 & _ & _ & _ & _ & A2 & _ & _ & _ & _ & A3 & _).
  destruct H3 as (B1 & _ & _ & _ & _ & _ & B2 & _ & _ & _ & _ & B3 & _).
  destruct H4 as (C1 & _ & _ & _ & _ & _ & C2 & _ & _ & C3 & _).
  destruct H5 as (D1 & _ & _ & _ & _ & _ & _ & D2 & _ & _ & _ & _ & _ & D3 & _).
  repeat split; congruence.
Qed.

(** ** The acceptance policy *)

Lemma acc_rej_body_accept (e_cur : R) (st : State) (atom : Atoms) :
  get_potential_energy atom - e_cur < _Ediff st ->
  acc_rej_body e_cur st atom
  = set_intermediate_minima []
      (set_acc_rej Accepted
         (set_atoms_cur atom (set_Ediff (_Ediff st * alpha_a (settings st)) st))).
Proof.
  intros H. unfold acc_rej_body. rewrite (proj2 (Rltb_true _ _) H). reflexivity.
Qed.

Lemma acc_rej_body_reject (e_cur : R) (st : State) (atom : Atoms) :
  ~ get_potential_energy atom - e_cur < _Ediff st ->
  acc_rej_body e_cur st atom
  = set_acc_rej Rejected (set_Ediff (_Ediff st * alpha_r (settings st)) st).
Proof.
  intros H. unfold acc_rej_body.
  rewrite (proj2 (Rltb_false _ _)) by lra. reflexivity.
Qed.

Lemma acc_rej_fold_empty (e_cur : R) (l : list Atoms) (st : State) :
  intermediate_minima st = [] ->
  intermediate_minima (fold_left (acc_rej_body e_cur) l st) = [].
Proof.
  revert st. induction l as [|a l IH]; intros st H; simpl; [exact H|].
  apply IH. unfold acc_rej_body. destruct (Rltb _ _); cbn; auto.
Qed.

Lemma acc_rej_fold_all_rejected (e_cur : R) (l : list Atoms) (st : State) :
  all_rejected e_cur (_Ediff st) (alpha_r (settings st)) l = true ->
  intermediate_minima (fold_left (acc_rej_body e_cur) l st) = intermediate_minima st /\
  _Ediff (fold_left (acc_rej_body e_cur) l st)
  = _Ediff st * alpha_r (settings st) ^ length l /\
  _atoms_cur (fold_left (acc_rej_body e_cur) l st) = _atoms_cur st /\
  (l <> [] -> _acc_rej (fold_left (acc_rej_body e_cur) l st) = Rejected).
Proof.
  revert st. induction l as [|a l IH]; intros st H; simpl in *.
  - repeat split; try reflexivity; [lra | congruence].
  - destruct (Rltb (get_potential_energy a - e_cur) (_Ediff st)) eqn:E;
      [discriminate|].
    apply Rltb_false in E.
    rewrite acc_rej_body_reject by lra.
    specialize (IH (set_acc_rej Rejected
                      (set_Ediff (_Ediff st * alpha_r (settings st)) st))).
    cbn in IH. destruct (IH H) as (I1 & I2 & I3 & I4).
    repeat split; auto.
    + rewrite I2. lra.
    + intros _. destruct l as [|b l]; [reflexivity | apply I4; discriminate].
Qed.

Lemma acc_rej_fold_some_accepted (e_cur : R) (l : list Atoms) (st : State) :
  all_rejected e_cur (_Ediff st) (alpha_r (settings st)) l = false ->
  intermediate_minima (fold_left (acc_rej_body e_cur) l st) = [].
Proof.
  revert st. induction l as [|a l IH]; intros st H; simpl in *; [discriminate|].
  destruct (Rltb (get_potential_energy a - e_cur) (_Ediff st)) eqn:E.
  - apply acc_rej_fold_empty. apply Rltb_true in E.
    rewrite acc_rej_body_accept by exact E. reflexivity.
  - apply Rltb_false in E. rewrite acc_rej_body_reject by lra.
    apply IH. cbn. exact H.
Qed.

(** Every candidate of the list multiplies the threshold once, by
    [alpha_a] or by [alpha_r]. *)
Lemma acc_rej_fold_factors (e_cur : R) (l : list Atoms) (st : State) :
  exists factors,
    length factors = length l /\
    Forall (fun f => f = alpha_a (settings st) \/ f = alpha_r (settings st)) factors /\
    _Ediff (fold_left (acc_rej_body e_cur) l st) = _Ediff st * Rprod factors.
Proof.
  revert st. induction l as [|a l IH]; intros st; simpl.
  - exists []. repeat split; [constructor | simpl; lra].
  - destruct (Rlt_dec (get_potential_energy a - e_cur) (_Ediff st)) as [Hlt|Hge].
    + rewrite acc_rej_body_accept by exact Hlt.
      match goal with |- context [fold_left _ l ?s] =>
        destruct (IH s) as [fs [Hl [Hf He]]] end.
      cbn in Hf, He.
      exists (alpha_a (settings st) :: fs). repeat split.
      * simpl. congruence.
      * constructor; [now left | exact Hf].
      * rewrite He. simpl. lra.
    + rewrite acc_rej_body_reject by exact Hge.
      match goal with |- context [fold_left _ l ?s] =>
        destruct (IH s) as [fs [Hl [Hf He]]] end.
      cbn in Hf, He.
      exists (alpha_r (settings st) :: fs). repeat split.
      * simpl. congruence.
      * constructor; [now right | exact Hf].
      * rewrite He. simpl. lra.
Qed.

(** *** After the acceptance step, a hop leaves the threshold, the tag and
    the candidates alone. *)
Lemma hop_after_acceptance (outcomes : list md_outcome) (st st' : State) :
  hop outcomes st = OK st' ->
  exists st1 st2,
    _escape outcomes st = OK st1 /\ _acc_rej_step st1 = OK st2 /\
    _Ediff st' = _Ediff st2 /\ _acc_rej st' = _acc_rej st2 /\
    intermediate_minima st' = intermediate_minima st2 /\
    _atoms_cur st' = _atoms_cur st2 /\ _atoms st' = _atoms_cur st2.
Proof.
  intros H. apply hop_steps in H.
  destruct H as (st1 & st2 & n & st3 & st4 & H1 & H2 & Hn & H3 & H4 & ->).
  exists st1, st2. split; [exact H1|]. split; [exact H2|].
  apply adj_temperature_frame in H3. apply update_data_frame in H4.
  pose proof (write_poslow_frame st4) as H5.
  unfold adj_temperature_keeps, update_data_keeps, same_but_out in *.
  cbn in *.
  destruct H3 as (_ & _ & _ & B0 & _ & B1 & _ & _ & _ & _ & B2 & _ & _ & B3).
  destruct H4 as (_ & _ & C0 & _ & _ & C1 & _ & _ & C2 & _ & _ & _ & _ & C3).
  destruct H5 as (_ & _ & _ & D0 & _ & _ & D1 & _ & _ & _ & _ & _ & D2 & _ & _ & _
                  & _ & _ & _ & D3).
  repeat split; congruence.
Qed.

(** A start that is not a restart. *)
Lemma startup_fresh (fs : files) (opt : Atoms -> Atoms) (st st0 : State) :
  is_restart fs (settings st) = false ->
  _startup fs opt st = OK st0 ->
  settings st0 = settings st /\ _Ediff st0 = _Ediff st /\
  _temperature st0 = _temperature st /\ _counter st0 = _counter st /\
  intermediate_minima st0 = [] /\ all_minima_sorted st0 = [] /\
  _atoms_alias st0 = None /\ _i_step st0 = 0%Z /\
  _atoms st0 = opt (_atoms st) /\ _atoms_cur st0 = opt (_atoms st).
Proof.
  unfold is_restart, _startup. intros Hr H. cbn in H.
  destruct (exists_min fs && exists_history fs) eqn:E.
  - simpl in Hr. destruct (new_start (settings st)) eqn:En; [|discriminate].
    cbn in H. injection H as <-. cbn. repeat split; reflexivity.
  - cbn in H. destruct (py_assert _ _); [|discriminate].
    cbn in H. injection H as <-. cbn. repeat split; reflexivity.
Qed.

(** ** The sorted archive *)

Lemma Minimum_lt_true (x y : Minimum) : Minimum_lt x y = true <-> energy x < energy y.
Proof. unfold Minimum_lt, energy. apply Rltb_true. Qed.

Lemma Minimum_lt_false (x y : Minimum) : Minimum_lt x y = false <-> energy y <= energy x.
Proof. unfold Minimum_lt, energy. apply Rltb_false. Qed.

Lemma nth_error_nth_default (a : list Minimum) (i : nat) (d : Minimum) :
  (i < length a)%nat -> nth_error a i = Some (nth i a d).
Proof. intros H. apply nth_error_nth'. exact H. Qed.

Lemma mid_bounds (lo hi : nat) :
  (lo < hi)%nat -> (lo <= (lo + hi) / 2 < hi)%nat.
Proof.
  intros H. split.
  - apply Nat.div_le_lower_bound; lia.
  - apply Nat.Div0.div_lt_upper_bound. lia.
Qed.

(** The binary search stays between its bounds. *)
Lemma bisect_loop_bounds (a : list Minimum) (x : Minimum) :
  forall fuel lo hi, (lo <= hi)%nat ->
    (lo <= bisect_loop fuel a x lo hi <= hi)%nat.
Proof.
  induction fuel as [|fuel IH]; intros lo hi Hle; cbn [bisect_loop]; [lia|].
  destruct (lo <? hi)%nat eqn:E; [|lia].
  apply Nat.ltb_lt in E.
  pose proof (mid_bounds lo hi E) as Hmid.
  set (mid := ((lo + hi) / 2)%nat) in *.
  destruct (Minimum_lt x (nth mid a x)).
  - assert (Hm : (lo <= mid)%nat) by lia.
    pose proof (IH lo mid Hm). lia.
  - assert (Hm : (mid + 1 <= hi)%nat) by lia.
    pose proof (IH (mid + 1)%nat hi Hm). lia.
Qed.

Lemma bisect_le_length (a : list Minimum) (x : Minimum) :
  (bisect a x <= length a)%nat.
Proof.
  unfold bisect. pose proof (bisect_loop_bounds a x (length a) 0 (length a)). lia.
Qed.

(** On a sorted list the binary search returns the place after the last
    record that is not above [x]. *)
Lemma bisect_loop_sorted (a : list Minimum) (x : Minimum) :
  sorted_by_energy a ->
  forall fuel lo hi,
    (hi - lo <= fuel)%nat -> (lo <= hi <= length a)%nat ->
    (forall i m, (i < lo)%nat -> nth_error a i = Some m -> energy m <= energy x) ->
    (forall i m, (hi <= i)%nat -> nth_error a i = Some m -> energy x < energy m) ->
    let r := bisect_loop fuel a x lo hi in
    (forall i m, (i < r)%nat -> nth_error a i = Some m -> energy m <= energy x) /\
    (forall i m, (r <= i)%nat -> nth_error a i = Some m -> energy x < energy m).
Proof.
  intros Hs. induction fuel as [|fuel IH]; intros lo hi Hf Hb Hlo Hhi; cbn [bisect_loop].
  - assert (lo = hi) by lia. subst. split; assumption.
  - destruct (lo <? hi)%nat eqn:E.
    + apply Nat.ltb_lt in E.
      pose proof (mid_bounds lo hi E) as Hmid.
      set (mid := ((lo + hi) / 2)%nat) in *.
      assert (Hnth : nth_error a mid = Some (nth mid a x))
        by (apply nth_error_nth_default; lia).
      destruct (Minimum_lt x (nth mid a x)) eqn:Elt.
      * apply Minimum_lt_true in Elt.
        apply IH; try lia; try assumption.
        intros i m Hi Hm. 
        destruct (Nat.le_gt_cases hi i) as [Hge|Hlt]; [now apply (Hhi i)|].
        pose proof (Hs mid i _ _ Hnth Hm Hi). lra.
      * apply Minimum_lt_false in Elt.
        apply IH; try lia; try assumption.
        intros i m Hi Hm.
        destruct (Nat.le_gt_cases lo i) as [Hge|Hlt]; [|now apply (Hlo i)].
        assert (Hle : (i <= mid)%nat) by lia.
        pose proof (Hs i mid _ _ Hm Hnth Hle). lra.
    + apply Nat.ltb_ge in E. assert (lo = hi) by lia. subst. split; assumption.
Qed.

Lemma bisect_sorted (a : list Minimum) (x : Minimum) :
  sorted_by_energy a ->
  (forall i m, (i < bisect a x)%nat -> nth_error a i = Some m -> energy m <= energy x) /\
  (forall i m, (bisect a x <= i)%nat -> nth_error a i = Some m -> energy x < energy m).
Proof.
  intros Hs. unfold bisect.
  apply (bisect_loop_sorted a x Hs (length a) 0 (length a)); try lia.
  intros i m Hi Hm. exfalso. assert (H : nth_error a i <> None) by congruence.
  apply nth_error_Some in H. lia.
Qed.

Lemma nth_error_list_insert (a : list Minimum) (p : nat) (x : Minimum) (i : nat) :
  (p <= length a)%nat ->
  nth_error (list_insert a p x) i =
  if (i <? p)%nat then nth_error a i
  else if (i =? p)%nat then Some x
  else nth_error a (i - 1).
Proof.
  intros Hp. unfold list_insert.
  assert (Hlen : length (firstn p a) = p) by (apply firstn_length_le; exact Hp).
  destruct (i <? p)%nat eqn:E1.
  - apply Nat.ltb_lt in E1. rewrite nth_error_app1 by lia.
    rewrite nth_error_firstn. apply Nat.ltb_lt in E1. rewrite E1. reflexivity.
  - apply Nat.ltb_ge in E1. rewrite nth_error_app2 by lia. rewrite Hlen.
    destruct (i =? p)%nat eqn:E2.
    + apply Nat.eqb_eq in E2. subst. rewrite Nat.sub_diag. reflexivity.
    + apply Nat.eqb_neq in E2.
      replace (i - p)%nat with (S (i - p - 1))%nat by lia. simpl.
      rewrite nth_error_skipn. f_equal. lia.
Qed.

(** An insertion by bisection keeps a sorted archive sorted. *)
Lemma insort_sorted (a : list Minimum) (x : Minimum) :
  sorted_by_energy a -> sorted_by_energy (insort a x).
Proof.
  intros Hs. destruct (bisect_sorted a x Hs) as [Hbefore Hafter].
  pose proof (bisect_le_length a x) as Hp.
  unfold insort. set (p := bisect a x) in *.
  intros i j mi mj Hi Hj Hij.
  rewrite nth_error_list_insert in Hi, Hj by exact Hp.
  revert Hi Hj.
  destruct (Nat.ltb_spec i p) as [Ei|Ei]; destruct (Nat.ltb_spec j p) as [Ej|Ej];
    try (exfalso; lia).
  - intros Hi Hj. exact (Hs i j mi mj Hi Hj Hij).
  - destruct (Nat.eqb_spec j p) as [Ejp|Ejp]; intros Hi Hj.
    + injection Hj as <-. exact (Hbefore i mi Ei Hi).
    + apply (Hs i (j - 1)%nat mi mj Hi Hj). lia.
  - destruct (Nat.eqb_spec i p) as [Eip|Eip]; destruct (Nat.eqb_spec j p) as [Ejp|Ejp];
      intros Hi Hj; try (exfalso; lia).
    + injection Hi as <-. injection Hj as <-. lra.
    + injection Hi as <-.
      assert (Hlt : energy x < energy mj) by (apply (Hafter (j - 1)%nat); [lia | exact Hj]).
      lra.
    + apply (Hs (i - 1)%nat (j - 1)%nat mi mj Hi Hj). lia.
Qed.

(** The insertion keeps the records that were there, in their order. *)
Lemma insort_keeps_order (a : list Minimum) (x : Minimum) :
  exists p, (p <= length a)%nat /\ insort a x = firstn p a ++ x :: skipn p a /\
            firstn p (insort a x) = firstn p a /\
            skipn (S p) (insort a x) = skipn p a.
Proof.
  exists (bisect a x). pose proof (bisect_le_length a x) as Hp.
  unfold insort, list_insert.
  assert (Hlen : length (firstn (bisect a x) a) = bisect a x)
    by (apply firstn_length_le; exact Hp).
  repeat split; try assumption.
  - rewrite firstn_app, Hlen, Nat.sub_diag. simpl.
    rewrite firstn_firstn, Nat.min_id. apply app_nil_r.
  - rewrite skipn_app.
    rewrite (skipn_all2 (n := S (bisect a x)) (firstn (bisect a x) a))
      by (rewrite Hlen; lia).
    rewrite Hlen.
    replace (S (bisect a x) - bisect a x)%nat with 1%nat by lia. reflexivity.
Qed.

Lemma sorted_nil : sorted_by_energy [].
Proof. intros i j mi mj Hi. destruct i; discriminate. Qed.

Lemma fold_insort_sorted (l a : list Minimum) :
  sorted_by_energy a -> sorted_by_energy (fold_left insort l a).
Proof.
  revert a. induction l as [|x l IH]; intros a Ha; simpl; [exact Ha|].
  apply IH. apply insort_sorted. exact Ha.
Qed.

(** The full sort of the restart returns a sorted archive. *)
Lemma list_sort_sorted (l : list Minimum) : sorted_by_energy (list_sort l).
Proof. unfold list_sort. apply fold_insort_sorted. apply sorted_nil. Qed.

(** [_update_data] appends the new record to the log and inserts it into
    the sorted archive by bisection. *)
Lemma update_data_insert (st st' : State) :
  _update_data st = OK st' ->
  exists fp, _fp st = Some fp /\
    all_minima_sorted st' = insort (all_minima_sorted st) (new_record st fp) /\
    all_minima st' = all_minima st ++ [new_record st fp] /\
    (_atoms_alias st = None -> _atoms_alias st' = None).
Proof.
  unfold _update_data, get_fp.
  destruct (tag_eqb (_acc_rej st) Accepted); cbn;
    destruct (_fp st) as [fp|] eqn:E; cbn; intros H; try discriminate;
    injection H as <-; exists fp;
    (split; [reflexivity|]);
    destruct (_atoms_alias st) eqn:Ea; cbn;
    try match goal with |- context [if ?b then _ else _] => destruct b end;
    cbn; repeat split; try reflexivity; try (intros; discriminate); auto.
Qed.

Lemma hop_archive_ok (outcomes : list md_outcome) (st st' : State) :
  archive_ok st -> hop outcomes st = OK st' -> archive_ok st'.
Proof.
  intros [Ha Hs] H. apply hop_steps in H.
  destruct H as (st1 & st2 & n & st3 & st4 & H1 & H2 & Hn & H3 & H4 & ->).
  apply escape_appends in H1. apply acc_rej_step_keeps in H2.
  apply adj_temperature_frame in H3. apply update_data_insert in H4.
  pose proof (write_poslow_frame st4) as H5.
  unfold acc_rej_keeps, adj_temperature_keeps, same_but_out in *.
  destruct H1 as (_ & _ & _ & _ & _ & _ & _ & _ & E1 & E2 & _).
  destruct H2 as (_ & _ & A1 & _ & _ & _ & _ & A2 & _).
  destruct H3 as (_ & _ & B1 & _ & _ & _ & _ & _ & B2 & _).
  destruct H4 as (fp & _ & C1 & _ & C2).
  destruct H5 as (_ & _ & _ & _ & _ & _ & _ & _ & _ & D1 & _).
  cbn in B1, B2.
  split; [reflexivity|]. cbn. rewrite D1, C1, B2, A2, E2 by exact Ha.
  apply insort_sorted. exact Hs.
Qed.

(** The archive that a restart builds is sorted; and no record shares its
    structure with [self._atoms] unless [start_lowest] is set. *)
Lemma startup_restart_sorted (fs : files) (opt : Atoms -> Atoms) (st st' : State) :
  startup_restart fs opt st = OK st' ->
  sorted_by_energy (all_minima_sorted st') /\
  settings st' = settings st /\
  (_atoms_alias st = None -> start_lowest (settings st) = false ->
   _atoms_alias st' = None).
Proof.
  unfold startup_restart. intros H.
  apply bind_ok in H. destruct H as [s1 [H1 H]].
  apply bind_ok in H. destruct H as [s2 [H2 H]].
  apply bind_ok in H. destruct H as [s3 [H3 H]].
  apply bind_ok in H. destruct H as [line [Hl H]].
  injection H as <-. cbn.
  assert (E1 : settings s1 = settings st /\ _atoms_alias s1 = _atoms_alias st).
  { destruct (exists_acc fs).
    - apply bind_ok in H1. destruct H1 as [a [_ H1]]. injection H1 as <-. auto.
    - apply bind_ok in H1. destruct H1 as [a [_ H1]]. injection H1 as <-. auto. }
  assert (E2 : settings s2 = settings s1 /\ _atoms_alias s2 = _atoms_alias s1).
  { destruct (negb _).
    - injection H2 as <-. auto.
    - apply bind_ok in H2. destruct H2 as [u [_ H2]]. injection H2 as <-. auto. }
  destruct E1 as [E1 E1']. destruct E2 as [E2 E2'].
  match type of H3 with
  | (if start_lowest (settings ?s) then _ else _) = _ =>
      remember s as sx eqn:Esx
  end.
  assert (Es : settings sx = settings st
               /\ _atoms_alias sx = _atoms_alias st
               /\ sorted_by_energy (all_minima_sorted sx)).
  { subst sx. cbn. destruct (restart_optim (settings s2)); cbn;
      (split; [congruence | split; [congruence | apply list_sort_sorted]]). }
  clear Esx. destruct Es as (Es1 & Es2 & Es3).
  destruct (start_lowest (settings sx)) eqn:El.
  - destruct (all_minima_sorted sx) as [|m l] eqn:Em; [discriminate|].
    injection H3 as <-. cbn. rewrite Em.
    split; [exact Es3|]. split; [exact Es1|].
    intros _ Hf. rewrite Es1 in El. congruence.
  - injection H3 as <-. split; [exact Es3|]. split; [exact Es1|].
    intros Ha _. congruence.
Qed.

Lemma startup_archive_ok (fs : files) (opt : Atoms -> Atoms) (st st0 : State) :
  start_lowest (settings st) = false ->
  _startup fs opt st = OK st0 -> archive_ok st0.
Proof.
  unfold _startup. intros Hl H.
  apply bind_ok in H. destruct H as [r [Hr H]].
  apply bind_ok in H. destruct H as [s [Hs H]].
  injection H as <-. unfold archive_ok. cbn.
  destruct r.
  - apply startup_restart_sorted in Hs. cbn in Hs.
    destruct Hs as (S1 & S2 & S3). split; [apply S3; auto | exact S1].
  - injection Hs as <-. cbn. split; [reflexivity | apply sorted_nil].
Qed.

Lemma print_summary_frame (n : Z) (t : R) (st : State) :
  same_but_out st (print_summary n t st).
Proof. unfold same_but_out, print_summary. cbn. repeat split; reflexivity. Qed.

Lemma print_summary_archive_ok (n : Z) (t : R) (st : State) :
  archive_ok st -> archive_ok (print_summary n t st).
Proof. intros H. exact H. Qed.

Lemma call_loop_archive_ok (w : world) (totalsteps : Z) :
  forall fuel st st',
    archive_ok st -> call_loop fuel w totalsteps st = Some (OK st') -> archive_ok st'.
Proof.
  induction fuel as [|fuel IH]; intros st st' Hok H; simpl in H.
  - destruct (_counter st <=? totalsteps)%Z; [discriminate|].
    injection H as <-. apply print_summary_archive_ok. exact Hok.
  - destruct (_counter st <=? totalsteps)%Z;
      [|injection H as <-; apply print_summary_archive_ok; exact Hok].
    destruct (hop _ st) as [st1|e] eqn:Eh; [|discriminate].
    pose proof (hop_archive_ok _ _ _ Hok Eh) as Hok1.
    destruct (run_time (settings st1)) as [t|].
    + destruct (Rltb _ _).
      * injection H as <-. exact Hok1.
      * eapply IH; eauto.
    + eapply IH; eauto.
Qed.

(** Without [start_lowest], whatever the run driver returns has a sorted
    archive. *)
Lemma call_archive_sorted (fs : files) (opt : Atoms -> Atoms) (w : world)
  (totalsteps : Z) (st st' : State) :
  start_lowest (settings st) = false ->
  __call__ fs opt w totalsteps st = Some (OK st') ->
  sorted_by_energy (all_minima_sorted st').
Proof.
  unfold __call__. intros Hl H.
  destruct (_startup fs opt st) as [st0|e] eqn:E; [|discriminate].
  apply startup_archive_ok in E; [|exact Hl].
  eapply call_loop_archive_ok in H; [|exact E]. apply H.
Qed.

(** ** Evaluating the controller on given numbers *)

Lemma dist_singleton (x y : R) : dist [x] [y] = Rabs (x - y).
Proof.
  unfold dist, diff, np_linalg_norm. simpl.
  replace ((x - y) * (x - y) + 0) with (Rsqr (x - y)) by (unfold Rsqr; lra).
  apply sqrt_Rsqr_abs.
Qed.

Ltac Rabs_eval :=
  repeat match goal with
  | |- context [Rabs ?e] =>
      first [ rewrite (Rabs_pos_eq e) by lra
            | rewrite (Rabs_left e) by lra ]
  end.

Ltac unfold_steps :=
  unfold hop, _escape, _acc_rej_step, _in_history_fp, _adj_temperature,
    _update_data, _write_fp, get_fp, _write_poslow, _hoplog.

Ltac eval_step :=
  cbn -[fp_distance Rltb INR];
  unfold _check_energy_threshold, acc_rej_body, compare_record, np_lt,
    Minimum_lt, np_true_divide;
  cbn -[fp_distance Rltb INR];
  rewrite ?fp_distance_vec by reflexivity;
  cbn -[fp_distance Rltb INR];
  rewrite ?dist_singleton; rewrite ?dist_self;
  Rabs_eval; simpl INR; Rltb_eval.

(** ** Novelty lookup *)

(** C1: the forward scan does not mirror the backward scan.  A structure
    whose descriptor is at distance 0 from the one archived record, and
    whose energy is within the energy threshold of it, gets the novelty
    count 1 when its energy is the lower one (the record then sits at the
    insertion point, where the forward scan never looks), and the count 2
    when its energy is the higher one (the record is then found by the
    backward scan). *)
Theorem forward_scan_skips_insertion_point :
  fp_distance (omfp found_below) (fingerprint archived) = OK 0 /\
  Rabs (energy archived - get_potential_energy found_below)
    < energy_threshold _default_settings /\
  _in_history_fp (lookup_state archived found_below) = OK 1%Z /\
  _in_history_fp (lookup_state archived found_above) = OK 2%Z.
Proof.
  split; [|split; [|split]].
  - cbn -[fp_distance]. rewrite fp_distance_vec by reflexivity.
    f_equal. apply dist_self.
  - cbn. Rabs_eval. lra.
  - unfold _in_history_fp, lookup_state, get_fp, bisect. do 3 eval_step. reflexivity.
  - unfold _in_history_fp, lookup_state, get_fp, bisect. do 4 eval_step. reflexivity.
Qed.

(** ** Restart *)

(** C4, as stated: partially present or mismatched restart data make
    start-up fall back with a warning.  They do not: with history.dat but
    no min.extxyz, and with an fp.dat shorter than min.extxyz, [_startup]
    raises an assertion error. *)
Lemma startup_aborts_on_inconsistent_restart :
  _startup only_history identity_opt (__init__ (structure 0 0) _default_settings)
  = Raise (AssertionError "Some but not all files exist for a restart.") /\
  _startup short_cache identity_opt (__init__ (structure 0 0) _default_settings)
  = Raise (AssertionError
      "FP and minima file have not the same length, delete fp file for fp recalculation").
Proof. split; lazy; reflexivity. Qed.

Lemma startup_restart_warns (fs : files) (opt : Atoms -> Atoms) (st st' : State) :
  exists_fp fs && negb (restart_optim (settings st)) = false ->
  startup_restart fs opt st = OK st' ->
  In (Warn "Fingerprints all recalculated for all found minima") (out st').
Proof.
  unfold startup_restart. intros Hre H. cbv zeta in H. rewrite Hre in H.
  apply bind_ok in H. destruct H as [s1 [H1 H]].
  apply bind_ok in H. destruct H as [s2 [H2 H]].
  apply bind_ok in H. destruct H as [s3 [H3 H]].
  apply bind_ok in H. destruct H as [l [Hl H]].
  injection H as <-. cbn [negb] in H2. injection H2 as E2.
  assert (Hout : In (Warn "Fingerprints all recalculated for all found minima") (out s2)).
  { rewrite <- E2. cbn. apply in_or_app. right. now left. }
  clear E2 H1.
  assert (H3' : out s3 = out s2).
  { destruct (start_lowest _).
    - destruct (all_minima_sorted _); [discriminate|]. injection H3 as <-.
      destruct (restart_optim (settings s2)); reflexivity.
    - injection H3 as <-. destruct (restart_optim (settings s2)); reflexivity. }
  cbn. rewrite H3'. exact Hout.
Qed.

(** C4, amended: when exactly one of history.dat and min.extxyz exists,
    [_startup] aborts with an assertion error; on a restart that reads
    fp.dat, a record count different from that of min.extxyz aborts with an
    assertion error too.  The fallbacks that only warn are others: on a
    restart without fp.dat, or with [restart_optim], the descriptors are
    recomputed with a warning; and [restart] of file_handling.py answers
    "no restart" with a warning when the output directory exists without
    the restart directory. *)
Theorem startup_restart_inconsistency (fs : files) (opt : Atoms -> Atoms) (st : State) :
  (exists_min fs <> exists_history fs ->
   _startup fs opt st
   = Raise (AssertionError "Some but not all files exist for a restart.")) /\
  (is_restart fs (settings st) = true ->
   exists_fp fs = true -> restart_optim (settings st) = false ->
   length (fp_dat fs) <> length (min_extxyz fs) ->
   (if exists_acc fs then acc_extxyz fs <> [] else min_extxyz fs <> []) ->
   _startup fs opt st
   = Raise (AssertionError
       "FP and minima file have not the same length, delete fp file for fp recalculation")) /\
  (is_restart fs (settings st) = true ->
   exists_fp fs && negb (restart_optim (settings st)) = false ->
   forall st0, _startup fs opt st = OK st0 ->
     In (Warn "Fingerprints all recalculated for all found minima") (out st0)) /\
  (forall d restart_path is_master,
     exists_outpath d = true -> exists_restart_path d = false ->
     restart d restart_path is_master
     = (false, ["Preveous run detected but no restart files. New run is started."])).
Proof.
  split; [|split; [|split]].
  - intros H. unfold _startup. cbn.
    destruct (exists_min fs), (exists_history fs); try congruence; reflexivity.
  - unfold is_restart. intros Hr Hfp Hopt Hlen Hne.
    apply andb_prop in Hr. destruct Hr as [Hr Hn].
    unfold _startup. cbn. rewrite Hr. cbn.
    apply negb_true_iff in Hn. rewrite Hn. cbn.
    unfold startup_restart. cbn. rewrite Hfp, Hopt. cbn.
    apply Nat.eqb_neq in Hlen.
    destruct (exists_acc fs).
    + unfold last_item. destruct (rev (acc_extxyz fs)) eqn:E.
      * exfalso. apply Hne. apply (f_equal (@rev Atoms)) in E.
        rewrite rev_involutive in E. exact E.
      * cbn. rewrite Hlen. reflexivity.
    + unfold last_item. destruct (rev (min_extxyz fs)) eqn:E.
      * exfalso. apply Hne. apply (f_equal (@rev Atoms)) in E.
        rewrite rev_involutive in E. exact E.
      * cbn. rewrite Hlen. reflexivity.
  - unfold is_restart. intros Hr Hre st0 H.
    apply andb_prop in Hr. destruct Hr as [Hr Hn].
    apply negb_true_iff in Hn.
    unfold _startup in H. cbv zeta in H.
    apply bind_ok in H. destruct H as [r [Hrr H]].
    apply bind_ok in H. destruct H as [s [Hs H]]. injection H as <-.
    rewrite Hr in Hrr. cbn [settings set_n_same set_n_notunique set_n_unique set_n_min
      set_i_step set_intermediate_minima set_accepted_minima set_unique_minima
      set_atoms_alias set_all_minima_sorted set_all_minima] in Hrr.
    rewrite Hn in Hrr. injection Hrr as <-.
    apply startup_restart_warns in Hs; [|exact Hre].
    cbn. apply in_or_app. left. exact Hs.
  - intros d p m Ho Hr. unfold restart. rewrite Ho, Hr. reflexivity.
Qed.

(** ** The novelty lookup returns, and counts at least one *)

Lemma compare_record_total (L : nat) (s : Minimum) (epot : R) (fp1 : ndarray)
  (mthr : R) (i : Z) :
  vec_of_length L fp1 -> vec_of_length L (fingerprint s) ->
  exists e i', compare_record s epot fp1 mthr i = OK (e, i') /\ (i <= i')%Z.
Proof.
  intros [v1 [-> H1]] [v2 [E2 H2]]. unfold compare_record. rewrite E2.
  rewrite fp_distance_vec by congruence. cbn [bind].
  eexists. eexists. split; [reflexivity|].
  destruct (np_lt _ _); lia.
Qed.

Lemma list_get_total (a : list Minimum) (k : nat) :
  (k < length a)%nat -> exists s, list_get a k = OK s /\ In s a.
Proof.
  intros H. unfold list_get.
  destruct (nth_error a k) as [s|] eqn:E.
  - exists s. split; [reflexivity | eapply nth_error_In; eauto].
  - apply nth_error_None in E. lia.
Qed.

Lemma scan_backward_total (L : nat) (a : list Minimum) (epot : R) (fp1 : ndarray)
  (ethr mthr : R) :
  vec_of_length L fp1 ->
  Forall (fun m => vec_of_length L (fingerprint m)) a ->
  forall k e i, (k <= length a)%nat ->
    exists e' i', scan_backward a epot fp1 ethr mthr k e i = OK (e', i') /\ (i <= i')%Z.
Proof.
  intros Hfp Ha. induction k as [|k IH]; intros e i Hk; cbn [scan_backward].
  - destruct (Rltb e ethr); eexists; eexists; (split; [reflexivity | lia]).
  - destruct (Rltb e ethr); [|eexists; eexists; (split; [reflexivity | lia])].
    destruct (list_get_total a k) as [s [-> Hs]]; [lia|]. cbn [bind].
    rewrite Forall_forall in Ha.
    destruct (compare_record_total L s epot fp1 mthr i Hfp (Ha s Hs))
      as [e1 [i1 [-> Hi1]]].
    cbn [bind fst snd].
    destruct (IH e1 i1) as [e' [i' [-> Hi']]]; [lia|].
    eexists. eexists. split; [reflexivity | lia].
Qed.

Lemma scan_forward_total (L : nat) (a : list Minimum) (epot : R) (fp1 : ndarray)
  (ethr mthr : R) :
  vec_of_length L fp1 ->
  Forall (fun m => vec_of_length L (fingerprint m)) a ->
  forall fuel k e i,
    exists n, scan_forward fuel a epot fp1 ethr mthr k e i = OK n /\ (i <= n)%Z.
Proof.
  intros Hfp Ha. induction fuel as [|fuel IH]; intros k e i; cbn [scan_forward].
  - exists i. split; [reflexivity | lia].
  - destruct (Rltb e ethr); [|exists i; split; [reflexivity | lia]].
    destruct (length a <? k + 1 + 1)%nat eqn:E;
      [exists i; split; [reflexivity | lia]|].
    apply Nat.ltb_ge in E.
    destruct (list_get_total a (k + 1)) as [s [-> Hs]]; [lia|]. cbn [bind].
    rewrite Forall_forall in Ha.
    destruct (compare_record_total L s epot fp1 mthr i Hfp (Ha s Hs))
      as [e1 [i1 [-> Hi1]]].
    cbn [bind fst snd].
    destruct (IH (k + 1)%nat e1 i1) as [n [-> Hn]].
    exists n. split; [reflexivity | lia].
Qed.

(** [_in_history_fp] returns a count of at least 1: the structure itself. *)
Lemma in_history_fp_total (L : nat) (st : State) (fp : ndarray) :
  _fp st = Some fp -> vec_of_length L fp ->
  Forall (fun m => vec_of_length L (fingerprint m)) (all_minima_sorted st) ->
  exists n, _in_history_fp st = OK n /\ (1 <= n)%Z.
Proof.
  intros Hfp Hv Ha. unfold _in_history_fp, get_fp. rewrite Hfp. cbn [bind].
  match goal with
  | |- context [scan_backward ?a ?ep ?f ?et ?mt ?k ?e ?i] =>
      destruct (scan_backward_total L a ep f et mt Hv Ha k e i) as [e' [i' [-> Hi']]];
        [apply bisect_le_length|]
  end.
  cbn [bind fst snd].
  match goal with
  | |- context [scan_forward ?fu ?a ?ep ?f ?et ?mt ?k ?e ?i] =>
      destruct (scan_forward_total L a ep f et mt Hv Ha fu k e i) as [n [-> Hn]]
  end.
  exists n. split; [reflexivity | lia].
Qed.

(** ** A hop that returns *)

Lemma escape_loop_stops (outcomes : list md_outcome) (fp_in : ndarray) (e_in : R)
  (esc : option R) (esc_e : R) (i : Z) (st : State) :
  np_lt esc (minima_threshold (settings st))
  || Rltb esc_e (energy_threshold (settings st)) = false ->
  escape_loop outcomes fp_in e_in esc esc_e i st = OK st.
Proof.
  intros H. destruct outcomes; cbn [escape_loop]; rewrite H; reflexivity.
Qed.

Lemma first_cycle_state (o : md_outcome) (st : State) :
  settings (_check_energy_threshold (noise o) (mutate_atoms (relaxed o) st))
  = settings st /\
  _atoms (_check_energy_threshold (noise o) (mutate_atoms (relaxed o) st))
  = relaxed o.
Proof.
  destruct (check_energy_threshold_keeps (noise o) (mutate_atoms (relaxed o) st))
    as [[Hs _] [Ha _]].
  destruct (mutate_atoms_keeps (relaxed o) st) as [[Hs' _] Ha'].
  split; congruence.
Qed.

(** An escape whose first cycle leaves the starting minimum. *)
Lemma escape_first_cycle (o : md_outcome) (rest : list md_outcome) (st : State) :
  exits_at_first (settings st) (_atoms st) o ->
  0 < minima_threshold (settings st) \/ 0 < energy_threshold (settings st) ->
  _escape (o :: rest) st = OK (escape_result o st).
Proof.
  intros (v1 & v2 & E1 & E2 & Hlen & Hnz & Hd & He) Hpos.
  destruct (first_cycle_state o st) as [Hs Ha].
  unfold _escape, escape_result. cbn [escape_loop].
  assert (Hin : np_lt (Some 0) (minima_threshold (settings st))
                || Rltb 0 (energy_threshold (settings st)) = true).
  { apply orb_true_iff. cbn [np_lt]. destruct Hpos as [H|H];
      [left | right]; apply Rltb_true; exact H. }
  rewrite Hin. cbn [Z.ltb Z.compare].
  remember (_check_energy_threshold (noise o) (mutate_atoms (relaxed o) st))
    as st1 eqn:Est1.
  unfold _get_OMFP. cbn [_atoms set_fp set_n_min emit set_out].
  rewrite Ha, E1, E2.
  rewrite fp_distance_vec by exact Hlen. cbn [bind shape0].
  rewrite escape_loop_stops.
  - cbn [bind _atoms _n_min set_n_min emit set_out set_fp]. rewrite ?Ha.
    reflexivity.
  - cbn [settings set_n_min emit set_out set_fp]. rewrite Hs.
    apply orb_false_iff. split.
    + unfold np_true_divide. apply Nat.eqb_neq in Hnz. rewrite Hnz.
      cbn [np_lt]. apply Rltb_false. exact Hd.
    + apply Rltb_false. exact He.
Qed.

Lemma Forall_update_nth (P : Minimum -> Prop) (f : Minimum -> Minimum) :
  (forall m, P m -> P (f m)) ->
  forall k l, Forall P l -> Forall P (update_nth k f l).
Proof.
  intros Hf k l H. revert k. induction H as [|m l Hm Hl IH]; intros k.
  - destruct k; constructor.
  - destruct k as [|k]; simpl; constructor; auto.
Qed.

Lemma Forall_firstn_skipn {A : Type} (P : A -> Prop) (n : nat) (l : list A) :
  Forall P l -> Forall P (firstn n l) /\ Forall P (skipn n l).
Proof.
  intros H. rewrite <- (firstn_skipn n l) in H. apply Forall_app in H. exact H.
Qed.

Lemma Forall_insort (P : Minimum -> Prop) (a : list Minimum) (x : Minimum) :
  Forall P a -> P x -> Forall P (insort a x).
Proof.
  intros Ha Hx. unfold insort, list_insert.
  destruct (Forall_firstn_skipn P (bisect a x) a Ha) as [H1 H2].
  apply Forall_app. split; [exact H1|].
  constructor; [exact Hx | exact H2].
Qed.

(** What the first-cycle escape leaves in the fields it changes. *)
Lemma escape_result_fields (o : md_outcome) (st : State) :
  _atoms (escape_result o st) = relaxed o /\
  _fp (escape_result o st) = Some (omfp (relaxed o)) /\
  intermediate_minima (escape_result o st) = intermediate_minima st ++ [relaxed o] /\
  all_minima_sorted (escape_result o st)
  = match _atoms_alias st with
    | Some k => update_nth k (update_record_atoms (relaxed o)) (all_minima_sorted st)
    | None => all_minima_sorted st
    end.
Proof.
  destruct (first_cycle_state o st) as [Hs Ha].
  destruct (check_energy_threshold_keeps (noise o) (mutate_atoms (relaxed o) st))
    as [Hk [_ Hm]].
  destruct (mutate_atoms_keeps (relaxed o) st) as [Hk' _].
  pose proof (escape_keeps_trans _ _ _ Hk' Hk) as Hkk.
  destruct Hkk as (A1 & A2 & A3 & A4 & A5 & A6 & A7 & A8 & A9 & A10 & A11 & A12 & A13).
  unfold escape_result, _get_OMFP.
  split; [|split; [|split]].
  - cbn. exact Ha.
  - cbn. rewrite Ha. reflexivity.
  - cbn. rewrite Ha, A9. reflexivity.
  - cbn. rewrite Hm. unfold mutate_atoms. destruct (_atoms_alias st); reflexivity.
Qed.

Lemma acc_rej_fold_cur (e_cur : R) (l : list Atoms) (st : State) :
  _atoms_cur (fold_left (acc_rej_body e_cur) l st) = _atoms_cur st \/
  In (_atoms_cur (fold_left (acc_rej_body e_cur) l st)) l.
Proof.
  revert st. induction l as [|a l IH]; intros st; simpl; [now left|].
  destruct (IH (acc_rej_body e_cur st a)) as [H|H]; [|right; now right].
  rewrite H. unfold acc_rej_body. destruct (Rltb _ _); cbn; [right | left]; auto.
Qed.

Lemma acc_rej_fold_inter (e_cur : R) (l : list Atoms) (st : State) :
  intermediate_minima (fold_left (acc_rej_body e_cur) l st) = intermediate_minima st \/
  intermediate_minima (fold_left (acc_rej_body e_cur) l st) = [].
Proof.
  revert st. induction l as [|a l IH]; intros st; simpl; [now left|].
  destruct (IH (acc_rej_body e_cur st a)) as [H|H]; [|now right].
  rewrite H. unfold acc_rej_body. destruct (Rltb _ _); cbn; [right | left]; auto.
Qed.

Lemma adj_temperature_total (st : State) (fp : ndarray) :
  _fp st = Some fp -> exists st', _adj_temperature st = OK st'.
Proof.
  intros H. unfold _adj_temperature, _write_fp, get_fp.
  destruct (1 <? _n_visits st)%Z.
  - destruct (enhanced_feedback _); eexists; reflexivity.
  - cbn. rewrite H. eexists. reflexivity.
Qed.

Lemma update_data_total (st : State) (fp : ndarray) :
  _fp st = Some fp -> exists st', _update_data st = OK st'.
Proof.
  intros H. unfold _update_data, get_fp.
  destruct (tag_eqb _ _); cbn; rewrite H; eexists; reflexivity.
Qed.

Lemma acc_rej_step_total (st : State) :
  intermediate_minima st <> [] ->
  _acc_rej_step st
  = OK (fold_left (acc_rej_body (get_potential_energy (_atoms_cur st)))
          (intermediate_minima st) st).
Proof.
  intros H. unfold _acc_rej_step.
  destruct (intermediate_minima st) eqn:E; [congruence | reflexivity].
Qed.

Lemma update_record_atoms_fingerprint (a : Atoms) (m : Minimum) :
  fingerprint (update_record_atoms a m) = fingerprint m.
Proof. reflexivity. Qed.

(** A hop of a non-periodic system whose escape leaves the starting minimum
    at its first cycle returns; the state it returns holds flat descriptors
    again, and its working structure is the current minimum. *)
Lemma hop_returns (L : nat) (o : md_outcome) (rest : list md_outcome) (st : State) :
  flat_descriptors L st ->
  vec_of_length L (omfp (relaxed o)) ->
  exits_at_first (settings st) (_atoms st) o ->
  0 < minima_threshold (settings st) \/ 0 < energy_threshold (settings st) ->
  exists st', hop (o :: rest) st = OK st' /\
    flat_descriptors L st' /\ _atoms st' = _atoms_cur st'.
Proof.
  intros (Fa & Fc & Fi & Fs) Hvo Hexit Hpos.
  pose proof (escape_first_cycle o rest st Hexit Hpos) as Hesc.
  destruct (escape_result_fields o st) as (F1 & F2 & F3 & F4).
  pose proof (escape_appends _ _ _ Hesc) as (_ & E1 & E2 & E3 & _).
  remember (escape_result o st) as s1 eqn:Es1.
  assert (Hne : intermediate_minima s1 <> []).
  { rewrite F3. intros H. apply app_eq_nil in H. destruct H as [_ H]. discriminate. }
  pose proof (acc_rej_step_total s1 Hne) as Hacc.
  pose proof (acc_rej_fold_keeps (get_potential_energy (_atoms_cur s1))
                (intermediate_minima s1) s1) as Hk.
  pose proof (acc_rej_fold_cur (get_potential_energy (_atoms_cur s1))
                (intermediate_minima s1) s1) as Hcur.
  pose proof (acc_rej_fold_inter (get_potential_energy (_atoms_cur s1))
                (intermediate_minima s1) s1) as Hint.
  remember (fold_left (acc_rej_body (get_potential_energy (_atoms_cur s1)))
              (intermediate_minima s1) s1) as s2 eqn:Es2.
  destruct Hk as (K1 & K2 & K3 & K4 & K5 & K6 & K7 & K8 & K9 & K10 & K11 & K12 & K13 & K14).
  assert (Fs1 : Forall (fun m => vec_of_length L (fingerprint m)) (all_minima_sorted s1)).
  { rewrite F4. destruct (_atoms_alias st); [|exact Fs].
    apply Forall_update_nth; [|exact Fs]. intros m Hm. exact Hm. }
  assert (Fi1 : Forall (fun a => vec_of_length L (omfp a)) (intermediate_minima s1)).
  { rewrite F3. apply Forall_app. split; [exact Fi|]. constructor; [exact Hvo | constructor]. }
  assert (Fc2 : vec_of_length L (omfp (_atoms_cur s2))).
  { destruct Hcur as [H|H].
    - rewrite H, E3. exact Fc.
    - rewrite Forall_forall in Fi1. apply Fi1. exact H. }
  assert (Fi2 : Forall (fun a => vec_of_length L (omfp a)) (intermediate_minima s2)).
  { destruct Hint as [H|H]; rewrite H; [exact Fi1 | constructor]. }
  destruct (in_history_fp_total L (_hoplog s2) (omfp (relaxed o))) as [n [Hn _]].
  { cbn. rewrite K4. exact F2. }
  { exact Hvo. }
  { cbn. rewrite K8. exact Fs1. }
  destruct (adj_temperature_total (set_n_visits n (_hoplog s2)) (omfp (relaxed o)))
    as [s3 H3].
  { cbn. rewrite K4. exact F2. }
  pose proof (adj_temperature_frame _ _ H3) as
    (T1 & T2 & T3 & T4 & T5 & T6 & T7 & T8 & T9 & T10 & T11 & T12 & T13 & T14).
  cbn in T1, T2, T3, T4, T5, T6, T7, T8, T9, T10, T11, T12, T13, T14.
  destruct (update_data_total s3 (omfp (relaxed o))) as [s4 H4].
  { rewrite T5, K4. exact F2. }
  pose proof (update_data_frame _ _ H4) as
    (U1 & U2 & U3 & U4 & U5 & U6 & U7 & U8 & U9 & U10 & U11 & U12 & U13 & U14).
  pose proof (update_data_insert _ _ H4) as (fp & Hfp & Hins & _ & _).
  rewrite T5, K4, F2 in Hfp. injection Hfp as <-.
  pose proof (write_poslow_frame s4) as
    (W1 & W2 & W3 & W4 & W5 & W6 & W7 & W8 & W9 & W10 & W11 & W12 & W13 & _).
  eexists. split.
  - unfold hop. rewrite Hesc. cbn [bind]. rewrite Hacc. cbn [bind].
    rewrite Hn. cbn [bind]. rewrite H3. cbn [bind]. rewrite H4.
    cbn [bind]. reflexivity.
  - split; [|reflexivity].
    unfold flat_descriptors. cbn.
    rewrite W4, U3, T4, W13, U9, T11, W10, Hins, T9, K8.
    repeat split; try assumption.
    apply Forall_insort; [exact Fs1 | exact Hvo].
Qed.

(** ** Hops in which every candidate is rejected *)

Lemma hop_all_rejected (outcomes : list md_outcome) (st st1 st' : State) :
  _escape outcomes st = OK st1 ->
  hop outcomes st = OK st' ->
  all_rejected (get_potential_energy (_atoms_cur st)) (_Ediff st)
    (alpha_r (settings st)) (intermediate_minima st ++ [_atoms st1]) = true ->
  intermediate_minima st' = intermediate_minima st ++ [_atoms st1] /\
  _Ediff st'
  = _Ediff st * alpha_r (settings st) ^ (length (intermediate_minima st) + 1) /\
  _atoms_cur st' = _atoms_cur st /\ _atoms st' = _atoms_cur st /\
  _acc_rej st' = Rejected.
Proof.
  intros Hesc Hhop Hrej.
  destruct (hop_after_acceptance _ _ _ Hhop)
    as (s1 & s2 & H1 & H2 & A1 & A2 & A3 & A4 & A5).
  rewrite Hesc in H1. injection H1 as <-.
  pose proof (escape_appends _ _ _ Hesc) as (E1 & E2 & E3 & E4 & _).
  assert (Hne : intermediate_minima st1 <> []).
  { rewrite E1. intros H. apply app_eq_nil in H. destruct H as [_ H]. discriminate. }
  rewrite (acc_rej_step_total st1 Hne) in H2. injection H2 as H2.
  assert (Hrej' : all_rejected (get_potential_energy (_atoms_cur st1)) (_Ediff st1)
                    (alpha_r (settings st1)) (intermediate_minima st1) = true).
  { rewrite E1, E2, E3, E4. exact Hrej. }
  destruct (acc_rej_fold_all_rejected _ _ _ Hrej') as (R1 & R2 & R3 & R4).
  rewrite H2 in R1, R2, R3, R4.
  rewrite A1, A2, A3, A4, A5, R1, R2, R3, R4 by exact Hne.
  rewrite E1, E2, E3, E4, length_app. simpl length.
  repeat split; reflexivity.
Qed.

(** ** The loop of the run driver *)

Lemma call_loop_unbounded (w : world) (totalsteps : Z) :
  forall n st,
    run_time (settings st) = None ->
    (_counter st + Z.of_nat n = totalsteps + 1)%Z ->
    hops_return w n st ->
    exists st',
      call_loop n w totalsteps st
      = Some (OK (print_summary totalsteps (elapsed_at_exit w) st')) /\
      _counter st' = (totalsteps + 1)%Z /\
      _i_step st' = (_i_step st + Z.of_nat n)%Z.
Proof.
  induction n as [|n IH]; intros st Hrt Hc Hh.
  - exists st. cbn [call_loop].
    assert (E : (_counter st <=? totalsteps)%Z = false) by (apply Z.leb_gt; lia).
    rewrite E. repeat split; lia.
  - destruct Hh as [st1 [Hhop Hh]].
    pose proof (hop_counters _ _ _ Hhop) as (S1 & S2 & S3).
    destruct (IH st1) as [st' [Hl [Hc' Hi']]]; [congruence | lia | exact Hh |].
    exists st'. cbn [call_loop].
    assert (E : (_counter st <=? totalsteps)%Z = true) by (apply Z.leb_le; lia).
    rewrite E, Hhop, S1, Hrt. split; [exact Hl|]. split; [exact Hc' | lia].
Qed.

Lemma print_summary_out (n : Z) (t : R) (st : State) :
  exists d h m s, out (print_summary n t st) = out st ++ [PrintTerminated n d h m s].
Proof. unfold print_summary. cbn. repeat eexists. Qed.

(** ** A fresh start *)

Lemma startup_fresh_returns (fs : files) (opt : Atoms -> Atoms) (st : State) :
  exists_min fs = false -> exists_history fs = false ->
  exists st0, _startup fs opt st = OK st0.
Proof.
  intros H1 H2. unfold _startup. rewrite H1, H2. cbn. eexists. reflexivity.
Qed.

Lemma vec_structure (e x : R) : vec_of_length 1 (omfp (structure e x)).
Proof. exists [x]. split; reflexivity. Qed.

Lemma exits_structure (s : Settings) (e1 x1 e2 x2 nz : R) :
  minima_threshold s <= Rabs (x1 - x2) -> energy_threshold s <= Rabs (e1 - e2) ->
  exits_at_first s (structure e1 x1) (mkOutcome (structure e2 x2) nz).
Proof.
  intros Hx He. exists [x1], [x2]. cbn [omfp structure relaxed length].
  repeat split; try reflexivity; try discriminate.
  - rewrite dist_singleton. cbn [INR]. lra.
  - exact He.
Qed.

(** ** A hop with one candidate, accepted *)

Lemma hop_single_accepted (outcomes : list md_outcome) (st st1 st' : State) :
  _escape outcomes st = OK st1 ->
  hop outcomes st = OK st' ->
  intermediate_minima st = [] ->
  get_potential_energy (_atoms st1) - get_potential_energy (_atoms_cur st) < _Ediff st ->
  _acc_rej st' = Accepted /\
  _Ediff st' = _Ediff st * alpha_a (settings st) /\
  _atoms_cur st' = _atoms st1 /\ intermediate_minima st' = [].
Proof.
  intros Hesc Hhop Hnil Hlt.
  destruct (hop_after_acceptance _ _ _ Hhop)
    as (s1 & s2 & H1 & H2 & A1 & A2 & A3 & A4 & A5).
  rewrite Hesc in H1. injection H1 as <-.
  pose proof (escape_appends _ _ _ Hesc) as (E1 & E2 & E3 & E4 & _).
  rewrite Hnil in E1. cbn [app] in E1.
  unfold _acc_rej_step in H2. rewrite E1 in H2. cbn [fold_left] in H2.
  rewrite acc_rej_body_accept in H2 by (rewrite E3, E4; exact Hlt).
  injection H2 as <-. cbn in A1, A2, A3, A4.
  rewrite A1, A2, A3, A4, E2, E3. repeat split; reflexivity.
Qed.

(** ** The novelty count is at least one *)

Lemma compare_record_mono (s : Minimum) (epot : R) (fp1 : ndarray) (mthr : R)
  (i : Z) (r : R * Z) :
  compare_record s epot fp1 mthr i = OK r -> (i <= snd r)%Z.
Proof.
  unfold compare_record. intros H. bind_inv H. injection H as <-. cbn [snd].
  destruct (np_lt _ _); lia.
Qed.

Lemma scan_backward_mono (a : list Minimum) (epot : R) (fp1 : ndarray) (ethr mthr : R) :
  forall k e i r, scan_backward a epot fp1 ethr mthr k e i = OK r -> (i <= snd r)%Z.
Proof.
  induction k as [|k IH]; intros e i r H; cbn [scan_backward] in H.
  - destruct (Rltb e ethr); injection H as <-; cbn; lia.
  - destruct (Rltb e ethr); [|injection H as <-; cbn; lia].
    apply bind_ok in H. destruct H as [s [_ H]].
    apply bind_ok in H. destruct H as [r1 [H1 H]].
    apply compare_record_mono in H1. apply IH in H. lia.
Qed.

Lemma scan_forward_mono (a : list Minimum) (epot : R) (fp1 : ndarray) (ethr mthr : R) :
  forall fuel k e i n, scan_forward fuel a epot fp1 ethr mthr k e i = OK n -> (i <= n)%Z.
Proof.
  induction fuel as [|fuel IH]; intros k e i n H; cbn [scan_forward] in H.
  - injection H as <-. lia.
  - destruct (Rltb e ethr); [|injection H as <-; lia].
    destruct (length a <? k + 1 + 1)%nat; [injection H as <-; lia|].
    apply bind_ok in H. destruct H as [s [_ H]].
    apply bind_ok in H. destruct H as [r1 [H1 H]].
    apply compare_record_mono in H1. apply IH in H. lia.
Qed.

Lemma in_history_fp_ge_1 (st : State) (n : Z) :
  _in_history_fp st = OK n -> (1 <= n)%Z.
Proof.
  unfold _in_history_fp. intros H.
  apply bind_ok in H. destruct H as [fp [_ H]].
  apply bind_ok in H. destruct H as [r [H1 H]].
  apply scan_backward_mono in H1. apply scan_forward_mono in H. lia.
Qed.

(** ** The two branches of the temperature controller *)

Lemma adj_temperature_first_visit (st : State) (fp : ndarray) :
  _fp st = Some fp -> (_n_visits st <= 1)%Z ->
  _adj_temperature st
  = OK (emit (WriteFp fp)
          (emit (WriteMin (_atoms st))
             (set_unique_minima (unique_minima st ++ [_atoms st])
                (set_temperature (_temperature st * beta_decrease (settings st))
                   (set_n_unique (_n_unique st + 1)%Z st))))).
Proof.
  intros Hfp Hn. unfold _adj_temperature, _write_fp, get_fp.
  assert (E : (1 <? _n_visits st)%Z = false) by (apply Z.ltb_ge; lia).
  rewrite E. cbn. rewrite Hfp. reflexivity.
Qed.

Lemma adj_temperature_revisit (st : State) :
  (1 < _n_visits st)%Z ->
  _adj_temperature st
  = OK (set_temperature
          (_temperature st *
           (if enhanced_feedback (settings st)
            then beta_increase (settings st) * (1 + 1 * ln (IZR (_n_visits st)))
            else beta_increase (settings st)))
          (set_n_notunique (_n_notunique st + 1)%Z st)).
Proof.
  intros Hn. unfold _adj_temperature.
  assert (E : (1 <? _n_visits st)%Z = true) by (apply Z.ltb_lt; lia).
  rewrite E. cbn. destruct (enhanced_feedback (settings st)); cbn.
  - f_equal. f_equal. lra.
  - reflexivity.
Qed.

Lemma revisit_factor_gt_1 (b : R) (n : Z) (enhanced : bool) :
  1 < b -> (1 < n)%Z ->
  1 < (if enhanced then b * (1 + 1 * ln (IZR n)) else b).
Proof.
  intros Hb Hn. destruct enhanced; [|exact Hb].
  assert (H1 : 1 < IZR n) by (apply IZR_lt in Hn; exact Hn).
  assert (Hln : 0 < ln (IZR n)).
  { rewrite <- ln_1. apply ln_increasing; lra. }
  nra.
Qed.

(** In a hop the temperature controller runs once, on the novelty count of
    the structure that the escape ended on, and takes one of its two
    branches. *)
Lemma hop_temperature (outcomes : list md_outcome) (st st' : State) :
  hop outcomes st = OK st' ->
  exists st1 n,
    _escape outcomes st = OK st1 /\ (1 <= n)%Z /\
    ((n = 1%Z /\
      _temperature st' = _temperature st1 * beta_decrease (settings st) /\
      _n_unique st' = (_n_unique st + 1)%Z /\
      _n_notunique st' = _n_notunique st /\
      unique_minima st' = unique_minima st ++ [_atoms st1]) \/
     ((1 < n)%Z /\
      _temperature st'
      = _temperature st1 *
        (if enhanced_feedback (settings st)
         then beta_increase (settings st) * (1 + 1 * ln (IZR n))
         else beta_increase (settings st)) /\
      _n_unique st' = _n_unique st /\
      _n_notunique st' = (_n_notunique st + 1)%Z /\
      unique_minima st' = unique_minima st)).
Proof.
  intros H. apply hop_steps in H.
  destruct H as (st1 & st2 & n & st3 & st4 & H1 & H2 & Hn & H3 & H4 & ->).
  exists st1, n. split; [exact H1|].
  pose proof (in_history_fp_ge_1 _ _ Hn) as Hge. split; [exact Hge|].
  pose proof (escape_appends _ _ _ H1) as (_ & E1 & _ & _ & _ & _ & E2 & E3 & _ & _ & E4).
  pose proof (acc_rej_step_keeps _ _ H2) as
    (K1 & K2 & _ & K4 & K5 & _ & _ & _ & K9 & _ & _ & K12 & K13 & _).
  pose proof (update_data_frame _ _ H4) as
    (U1 & _ & _ & _ & U5 & _ & _ & U8 & _ & _ & U11 & U12 & _).
  pose proof (write_poslow_frame st4) as
    (_ & _ & _ & _ & _ & W6 & _ & _ & _ & _ & W11 & _ & _ & _ & _ & W16 & W17 & _).
  assert (Hfp : exists fp, _fp st2 = Some fp).
  { unfold _in_history_fp, get_fp in Hn. cbn in Hn.
    destruct (_fp st2) as [fp|]; [exists fp; reflexivity | discriminate]. }
  destruct Hfp as [fp Hfp].
  destruct (Z.eq_dec n 1) as [->|Hne].
  - left. split; [reflexivity|].
    rewrite (adj_temperature_first_visit _ fp) in H3 by (cbn; first [exact Hfp | lia]).
    injection H3 as <-. cbn in U5, U8, U11, U12.
    cbn. rewrite W6, W11, W16, W17, U5, U8, U11, U12, K1, K2, K5, K9, K12, K13, E1, E2, E3, E4.
    repeat split; reflexivity.
  - right. split; [lia|].
    rewrite adj_temperature_revisit in H3 by (cbn; lia).
    injection H3 as <-. cbn in U5, U8, U11, U12.
    cbn. rewrite W6, W11, W16, W17, U5, U8, U11, U12, K1, K5, K9, K12, K13, E1, E2, E3, E4.
    repeat split; reflexivity.
Qed.

(** ** Two example runs from a fresh start *)

Lemma fresh_start :
  exists st0,
    _startup no_files identity_opt fresh_state = OK st0 /\
    settings st0 = _default_settings /\ _Ediff st0 = 0.01 /\
    _counter st0 = 0%Z /\ _i_step st0 = 0%Z /\
    intermediate_minima st0 = [] /\
    _atoms st0 = structure 0 0 /\ _atoms_cur st0 = structure 0 0 /\
    flat_descriptors 1 st0.
Proof.
  destruct (startup_fresh_returns no_files identity_opt fresh_state) as [st0 H0];
    try reflexivity.
  exists st0. split; [exact H0|].
  destruct (startup_fresh no_files identity_opt fresh_state st0 eq_refl H0)
    as (S1 & S2 & S3 & S4 & S5 & S6 & S7 & S8 & S9 & S10).
  cbn in S1, S2, S4, S9, S10. unfold identity_opt in S9, S10.
  repeat split; try assumption.
  - rewrite S9. apply vec_structure.
  - rewrite S10. apply vec_structure.
  - rewrite S5. constructor.
  - rewrite S6. constructor.
Qed.

Lemma default_thresholds_positive (st : State) :
  settings st = _default_settings ->
  0 < minima_threshold (settings st) \/ 0 < energy_threshold (settings st).
Proof. intros ->. left. cbn. lra. Qed.

(** The run of [rejecting_world]: both hops return, and both reject every
    candidate they look at. *)
Lemma rejecting_run :
  exists st0 st1 st2 s1 s2,
    _startup no_files identity_opt fresh_state = OK st0 /\
    settings st0 = _default_settings /\ _counter st0 = 0%Z /\ _i_step st0 = 0%Z /\
    _escape [mkOutcome (structure 5 5) 0] st0 = OK s1 /\
    hop [mkOutcome (structure 5 5) 0] st0 = OK st1 /\
    settings st1 = _default_settings /\
    intermediate_minima st1 = [structure 5 5] /\
    _Ediff st1 = 0.01 * 1.05 /\ _atoms_cur st1 = structure 0 0 /\
    _escape [mkOutcome (structure 6 6) 0] st1 = OK s2 /\ _atoms s2 = structure 6 6 /\
    hop [mkOutcome (structure 6 6) 0] st1 = OK st2.
Proof.
  destruct fresh_start as (st0 & H0 & S1 & S2 & S3 & S4 & S5 & S6 & S7 & S8).
  assert (X1 : exits_at_first (settings st0) (_atoms st0) (mkOutcome (structure 5 5) 0)).
  { rewrite S1, S6. apply exits_structure; cbn; Rabs_eval; lra. }
  pose proof (default_thresholds_positive st0 S1) as P0.
  destruct (hop_returns 1 (mkOutcome (structure 5 5) 0) [] st0 S8
              (vec_structure 5 5) X1 P0) as (st1 & H1 & F1 & A1).
  pose proof (escape_first_cycle _ [] st0 X1 P0) as Hesc1.
  destruct (escape_result_fields (mkOutcome (structure 5 5) 0) st0) as (R1 & _).
  cbn [relaxed] in R1.
  assert (Hrej1 : all_rejected (get_potential_energy (_atoms_cur st0)) (_Ediff st0)
                    (alpha_r (settings st0))
                    (intermediate_minima st0
                     ++ [_atoms (escape_result (mkOutcome (structure 5 5) 0) st0)]) = true).
  { rewrite R1, S1, S2, S5, S7. cbn. Rltb_eval. reflexivity. }
  destruct (hop_all_rejected _ _ _ _ Hesc1 H1 Hrej1) as (I1 & I2 & I3 & I4 & I5).
  rewrite R1, S5 in I1. rewrite S1, S2, S5 in I2. rewrite S7 in I3, I4.
  cbn in I1, I2.
  pose proof (hop_counters _ _ _ H1) as (C1 & C2 & C3).
  rewrite S1 in C1.
  assert (X2 : exits_at_first (settings st1) (_atoms st1) (mkOutcome (structure 6 6) 0)).
  { rewrite C1, I4. apply exits_structure; cbn; Rabs_eval; lra. }
  pose proof (default_thresholds_positive st1 C1) as P1.
  destruct (hop_returns 1 (mkOutcome (structure 6 6) 0) [] st1 F1
              (vec_structure 6 6) X2 P1) as (st2 & H2 & F2 & A2).
  pose proof (escape_first_cycle _ [] st1 X2 P1) as Hesc2.
  destruct (escape_result_fields (mkOutcome (structure 6 6) 0) st1) as (R2 & _).
  cbn [relaxed] in R2.
  exists st0, st1, st2, (escape_result (mkOutcome (structure 5 5) 0) st0),
    (escape_result (mkOutcome (structure 6 6) 0) st1).
  repeat split; try assumption.
  rewrite I2. lra.
Qed.

(** A run whose first hop escapes to the structure of energy -1 and
    fingerprint [1], which is accepted. *)
Lemma accepting_run :
  exists st0 st1,
    _startup no_files identity_opt fresh_state = OK st0 /\
    hop [mkOutcome (structure (-1) 1) 0] st0 = OK st1 /\
    _acc_rej st1 = Accepted /\ _Ediff st1 = 0.01 * 0.95.
Proof.
  destruct fresh_start as (st0 & H0 & S1 & S2 & S3 & S4 & S5 & S6 & S7 & S8).
  assert (X1 : exits_at_first (settings st0) (_atoms st0) (mkOutcome (structure (-1) 1) 0)).
  { rewrite S1, S6. apply exits_structure; cbn; Rabs_eval; lra. }
  pose proof (default_thresholds_positive st0 S1) as P0.
  destruct (hop_returns 1 (mkOutcome (structure (-1) 1) 0) [] st0 S8
              (vec_structure (-1) 1) X1 P0) as (st1 & H1 & F1 & A1).
  pose proof (escape_first_cycle _ [] st0 X1 P0) as Hesc1.
  destruct (escape_result_fields (mkOutcome (structure (-1) 1) 0) st0) as (R1 & _).
  cbn [relaxed] in R1.
  destruct (hop_single_accepted _ _ _ _ Hesc1 H1 S5) as (I1 & I2 & _).
  { rewrite R1, S2, S7. cbn. lra. }
  rewrite S1, S2 in I2. cbn in I2.
  exists st0, st1. repeat split; assumption.
Qed.

(** ** The run driver counts its hops from zero *)

(** C5: with a step budget of [totalsteps = 1] and an unbounded time budget
    the run driver does not execute 1 hop: the loop test is
    [counter <= totalsteps] and the counter starts at 0, so the run below
    executes 2 hops (steps 0 and 1) and then prints that it terminated
    after 1 step. *)
Theorem run_driver_executes_one_hop_more :
  exists st' prefix d h m s,
    __call__ no_files identity_opt rejecting_world 1 fresh_state = Some (OK st') /\
    _i_step st' = 2%Z /\ _counter st' = 2%Z /\
    out st' = prefix ++ [PrintTerminated 1 d h m s].
Proof.
  destruct rejecting_run as
    (st0 & st1 & st2 & s1 & s2 & H0 & S1 & S2 & S3 & _ & H1 & T1 & _ & _ & _ & _ & _ & H2).
  pose proof (hop_counters _ _ _ H1) as (_ & C1 & _).
  assert (Hh : hops_return rejecting_world 2 st0).
  { cbn [hops_return]. exists st1. split.
    - rewrite S2. exact H1.
    - exists st2. split; [|exact I]. rewrite C1, S2. exact H2. }
  destruct (call_loop_unbounded rejecting_world 1 2 st0) as (st' & Hl & Hc & Hi).
  { rewrite S1. reflexivity. }
  { rewrite S2. reflexivity. }
  { exact Hh. }
  destruct (print_summary_out 1 (elapsed_at_exit rejecting_world) st')
    as (d & h & m & s & Hout).
  exists (print_summary 1 (elapsed_at_exit rejecting_world) st'), (out st'), d, h, m, s.
  split; [|split; [|split]].
  - unfold __call__. rewrite H0, S2. exact Hl.
  - change (_i_step (print_summary 1 (elapsed_at_exit rejecting_world) st'))
      with (_i_step st').
    rewrite Hi, S3. reflexivity.
  - change (_counter (print_summary 1 (elapsed_at_exit rejecting_world) st'))
      with (_counter st').
    rewrite Hc. reflexivity.
  - exact Hout.
Qed.

(** ** The acceptance policy and its threshold *)

(** C7: a candidate that is accepted multiplies [Ediff] by [alpha_a], and
    one that is rejected multiplies it by [alpha_r]; the default [alpha_a]
    is below 1 and the default [alpha_r] above 1; and a fresh run with
    [Ediff0 = 0.01] and [alpha_a = 0.95] that accepts its first hop ends
    that hop with [Ediff = 0.0095]. *)
Theorem acceptance_threshold_update :
  (forall e_cur st atom,
     (get_potential_energy atom - e_cur < _Ediff st ->
      _acc_rej (acc_rej_body e_cur st atom) = Accepted /\
      _Ediff (acc_rej_body e_cur st atom) = _Ediff st * alpha_a (settings st)) /\
     (~ get_potential_energy atom - e_cur < _Ediff st ->
      _acc_rej (acc_rej_body e_cur st atom) = Rejected /\
      _Ediff (acc_rej_body e_cur st atom) = _Ediff st * alpha_r (settings st))) /\
  alpha_a _default_settings < 1 /\ 1 < alpha_r _default_settings /\
  (forall a s fs opt outcomes st0 st1,
     Ediff0 s = 0.01 -> alpha_a s = 0.95 ->
     is_restart fs s = false ->
     _startup fs opt (__init__ a s) = OK st0 ->
     hop outcomes st0 = OK st1 ->
     _acc_rej st1 = Accepted ->
     _Ediff st1 = 0.0095).
Proof.
  split; [|split; [|split]].
  - intros e_cur st atom. split; intros H.
    + rewrite acc_rej_body_accept by exact H. split; reflexivity.
    + rewrite acc_rej_body_reject by exact H. split; reflexivity.
  - cbn. lra.
  - cbn. lra.
  - intros a s fs opt outcomes st0 st1 HE Ha Hr H0 H1 Hacc.
    destruct (startup_fresh fs opt (__init__ a s) st0 Hr H0)
      as (S1 & S2 & _ & _ & S5 & _).
    cbn in S1, S2.
    destruct (hop_after_acceptance _ _ _ H1) as (s1 & _ & Hesc & _).
    destruct (Rlt_dec (get_potential_energy (_atoms s1)
                       - get_potential_energy (_atoms_cur st0)) (_Ediff st0))
      as [Hlt|Hge].
    + destruct (hop_single_accepted _ _ _ _ Hesc H1 S5 Hlt) as (_ & I2 & _).
      rewrite I2, S1, S2, HE, Ha. lra.
    + assert (Hrej : all_rejected (get_potential_energy (_atoms_cur st0)) (_Ediff st0)
                       (alpha_r (settings st0))
                       (intermediate_minima st0 ++ [_atoms s1]) = true).
      { rewrite S5. cbn. rewrite (proj2 (Rltb_false _ _)) by lra. reflexivity. }
      destruct (hop_all_rejected _ _ _ _ Hesc H1 Hrej) as (_ & _ & _ & _ & I5).
      congruence.
Qed.

Lemma acceptance_threshold_update_witness :
  exists st0 st1,
    _startup no_files identity_opt fresh_state = OK st0 /\
    hop [mkOutcome (structure (-1) 1) 0] st0 = OK st1 /\
    _acc_rej st1 = Accepted /\ _Ediff st1 = 0.0095.
Proof.
  destruct accepting_run as (st0 & st1 & H0 & H1 & Hacc & _).
  exists st0, st1. repeat split; try assumption.
  apply (proj2 (proj2 (proj2 acceptance_threshold_update))
           (structure 0 0) _default_settings no_files identity_opt
           [mkOutcome (structure (-1) 1) 0] st0 st1);
    try reflexivity; assumption.
Defined.

(** ** The temperature controller *)

(** C8: with a novelty count of 1 the controller multiplies the temperature
    by [beta_decrease], appends the structure to the unique minima and
    writes it and its descriptor out; with a count above 1 it multiplies
    the temperature by a factor above 1 (when [beta_increase] is);
    the default [beta_decrease] is below 1 and the default [beta_increase]
    above 1; and a hop runs the controller once, on a count of at least 1,
    through exactly one of the two branches. *)
Theorem temperature_controller_sign :
  (forall st fp,
     _fp st = Some fp -> _n_visits st = 1%Z ->
     exists st',
       _adj_temperature st = OK st' /\
       _temperature st' = _temperature st * beta_decrease (settings st) /\
       unique_minima st' = unique_minima st ++ [_atoms st] /\
       out st' = out st ++ [WriteMin (_atoms st); WriteFp fp] /\
       _n_unique st' = (_n_unique st + 1)%Z /\
       _n_notunique st' = _n_notunique st) /\
  (forall st,
     (1 < _n_visits st)%Z -> 1 < beta_increase (settings st) ->
     exists st' factor,
       _adj_temperature st = OK st' /\ 1 < factor /\
       _temperature st' = _temperature st * factor /\
       unique_minima st' = unique_minima st /\ out st' = out st /\
       _n_unique st' = _n_unique st /\
       _n_notunique st' = (_n_notunique st + 1)%Z) /\
  (beta_decrease _default_settings < 1 /\ 1 < beta_increase _default_settings) /\
  (forall outcomes st st',
     hop outcomes st = OK st' ->
     exists st1 n factor,
       _escape outcomes st = OK st1 /\ (1 <= n)%Z /\
       _temperature st' = _temperature st1 * factor /\
       ((n = 1%Z /\ factor = beta_decrease (settings st) /\
         _n_unique st' = (_n_unique st + 1)%Z /\
         _n_notunique st' = _n_notunique st) \/
        ((1 < n)%Z /\ (1 < beta_increase (settings st) -> 1 < factor) /\
         _n_unique st' = _n_unique st /\
         _n_notunique st' = (_n_notunique st + 1)%Z))).
Proof.
  split; [|split; [|split]].
  - intros st fp Hfp Hn.
    eexists. split; [apply (adj_temperature_first_visit st fp Hfp); lia|].
    cbn. rewrite <- app_assoc. repeat split; reflexivity.
  - intros st Hn Hb.
    eexists.
    exists (if enhanced_feedback (settings st)
            then beta_increase (settings st) * (1 + 1 * ln (IZR (_n_visits st)))
            else beta_increase (settings st)).
    split; [apply (adj_temperature_revisit st Hn)|].
    split; [apply revisit_factor_gt_1; assumption|].
    cbn. repeat split; reflexivity.
  - cbn. split; lra.
  - intros outcomes st st' H.
    destruct (hop_temperature _ _ _ H) as (st1 & n & Hesc & Hge & [Hb|Hb]).
    + destruct Hb as (-> & T1 & T2 & T3 & _).
      exists st1, 1%Z, (beta_decrease (settings st)).
      repeat split; try assumption; try lia. left. repeat split; assumption.
    + destruct Hb as (Hn & T1 & T2 & T3 & _).
      exists st1, n. eexists.
      split; [exact Hesc|]. split; [exact Hge|]. split; [exact T1|].
      right. repeat split; try assumption.
      intros Hbi. apply revisit_factor_gt_1; assumption.
Qed.

Lemma temperature_controller_sign_witness :
  (exists st',
     _adj_temperature (set_n_visits 1 (lookup_state archived found_below)) = OK st' /\
     _temperature st' = 2000 * (1 / 1.1)) /\
  (exists st' factor,
     _adj_temperature (set_n_visits 2 (lookup_state archived found_below)) = OK st' /\
     1 < factor /\ _temperature st' = 2000 * factor).
Proof.
  split.
  - destruct (proj1 temperature_controller_sign
                (set_n_visits 1 (lookup_state archived found_below))
                (Vec [1; 2; 3]) eq_refl eq_refl)
      as (st' & H & HT & _).
    exists st'. split; [exact H | exact HT].
  - destruct (proj1 (proj2 temperature_controller_sign)
                (set_n_visits 2 (lookup_state archived found_below)))
      as (st' & factor & H & Hf & HT & _).
    + reflexivity.
    + cbn. lra.
    + exists st', factor. repeat split; assumption.
Defined.

(** ** Candidates that were rejected *)

(** C10: when every candidate that one call of the acceptance policy looks
    at is rejected, the list of candidates is left as it was, and [Ediff]
    has been multiplied by [alpha_r] once per candidate; the list is
    emptied as soon as one candidate is accepted; so in a hop that rejects
    all, the candidates stored by earlier hops stay stored next to the new
    one, and each of them has multiplied [Ediff] once more. *)
Theorem rejected_candidates_stay_stored :
  (forall st,
     intermediate_minima st <> [] ->
     all_rejected (get_potential_energy (_atoms_cur st)) (_Ediff st)
       (alpha_r (settings st)) (intermediate_minima st) = true ->
     exists st',
       _acc_rej_step st = OK st' /\
       intermediate_minima st' = intermediate_minima st /\
       _Ediff st' = _Ediff st * alpha_r (settings st) ^ length (intermediate_minima st)) /\
  (forall st st',
     _acc_rej_step st = OK st' ->
     all_rejected (get_potential_energy (_atoms_cur st)) (_Ediff st)
       (alpha_r (settings st)) (intermediate_minima st) = false ->
     intermediate_minima st' = []) /\
  (forall outcomes st st1 st',
     _escape outcomes st = OK st1 ->
     hop outcomes st = OK st' ->
     all_rejected (get_potential_energy (_atoms_cur st)) (_Ediff st)
       (alpha_r (settings st)) (intermediate_minima st ++ [_atoms st1]) = true ->
     intermediate_minima st' = intermediate_minima st ++ [_atoms st1] /\
     _Ediff st'
     = _Ediff st * alpha_r (settings st) ^ (length (intermediate_minima st) + 1)).
Proof.
  split; [|split].
  - intros st Hne Hrej. eexists. split; [apply acc_rej_step_total; exact Hne|].
    destruct (acc_rej_fold_all_rejected _ _ _ Hrej) as (R1 & R2 & _).
    split; assumption.
  - intros st st' H Hacc. unfold _acc_rej_step in H.
    pose proof (acc_rej_fold_some_accepted _ _ _ Hacc) as He.
    destruct (intermediate_minima st); [discriminate|].
    injection H as <-. exact He.
  - intros outcomes st st1 st' Hesc Hhop Hrej.
    destruct (hop_all_rejected _ _ _ _ Hesc Hhop Hrej) as (I1 & I2 & _).
    split; assumption.
Qed.

Lemma rejected_candidates_stay_stored_witness :
  exists st1 st2,
    hop [mkOutcome (structure 6 6) 0] st1 = OK st2 /\
    intermediate_minima st1 = [structure 5 5] /\
    intermediate_minima st2 = [structure 5 5; structure 6 6] /\
    _Ediff st2 = _Ediff st1 * 1.05 ^ 2.
Proof.
  destruct rejecting_run as
    (st0 & st1 & st2 & s1 & s2 & _ & _ & _ & _ & _ & _ & T1 & T2 & T3 & T4 & Hesc & Ha & H2).
  exists st1, st2.
  destruct (proj2 (proj2 rejected_candidates_stay_stored) _ st1 s2 st2 Hesc H2)
    as (I1 & I2).
  - rewrite T1, T2, T3, T4, Ha. cbn. Rltb_eval. reflexivity.
  - rewrite T1, T2 in I2. rewrite T2, Ha in I1.
    repeat split; assumption.
Defined.

(** ** The sorted archive and the working structure *)

(** What a hop leaves in the sorted archive: the archive as the escape left
    it, with the new record inserted by bisection. *)
Lemma hop_archive (outcomes : list md_outcome) (st st' : State) :
  hop outcomes st = OK st' ->
  exists st1 s3 fp,
    _escape outcomes st = OK st1 /\ _atoms s3 = _atoms st1 /\
    all_minima_sorted st' = insort (all_minima_sorted st1) (new_record s3 fp).
Proof.
  intros H. apply hop_steps in H.
  destruct H as (st1 & st2 & n & st3 & st4 & H1 & H2 & Hn & H3 & H4 & ->).
  pose proof (acc_rej_step_keeps _ _ H2) as (_ & K2 & _ & _ & _ & _ & _ & K8 & _).
  pose proof (adj_temperature_frame _ _ H3) as (_ & T2 & _ & _ & _ & _ & _ & _ & T9 & _).
  pose proof (update_data_insert _ _ H4) as (fp & _ & Hins & _).
  pose proof (write_poslow_frame st4) as (_ & _ & _ & _ & _ & _ & _ & _ & _ & W10 & _).
  cbn in T2, T9.
  exists st1, st3, fp. split; [exact H1|]. split; [congruence|].
  cbn. rewrite W10, Hins, T9, K8. reflexivity.
Qed.

(** A restart that reads the descriptor cache and starts from the lowest
    minimum. *)
Lemma startup_lowest (fs : files) (opt : Atoms -> Atoms) (st : State)
  (a : Atoms) (m : Minimum) (rest : list Minimum) (line : R * R) :
  is_restart fs (settings st) = true ->
  exists_acc fs = true -> last_item (acc_extxyz fs) = OK a ->
  exists_fp fs = true -> restart_optim (settings st) = false ->
  length (fp_dat fs) = length (min_extxyz fs) ->
  start_lowest (settings st) = true ->
  list_sort (map (fun p => restart_record (fst p) (snd p))
               (combine (fp_dat fs) (min_extxyz fs))) = m :: rest ->
  last_item (history_dat fs) = OK line ->
  exists st0,
    _startup fs opt st = OK st0 /\
    settings st0 = settings st /\
    _atoms st0 = atoms m /\ _atoms_cur st0 = atoms m /\
    _atoms_alias st0 = Some 0%nat /\
    all_minima_sorted st0 = m :: rest /\
    intermediate_minima st0 = [] /\
    _Ediff st0 = snd line /\ _counter st0 = _counter st.
Proof.
  unfold is_restart. intros Hr Hacc Ha Hfp Hopt Hlen Hlow Hsort Hline.
  apply andb_prop in Hr. destruct Hr as [Hr Hn]. apply negb_true_iff in Hn.
  unfold _startup. cbv zeta. rewrite Hr.
  cbn [settings set_n_same set_n_notunique set_n_unique set_n_min
    set_i_step set_intermediate_minima set_accepted_minima set_unique_minima
    set_atoms_alias set_all_minima_sorted set_all_minima].
  rewrite Hn. cbn [bind].
  unfold startup_restart. cbv zeta.
  cbn [settings set_n_same set_n_notunique set_n_unique set_n_min
    set_i_step set_intermediate_minima set_accepted_minima set_unique_minima
    set_atoms_alias set_all_minima_sorted set_all_minima set_atoms emit set_out].
  rewrite Hacc, Ha, Hfp, Hopt. cbn [bind negb andb].
  rewrite Hlen, Nat.eqb_refl. cbn [py_assert bind].
  cbn [settings set_n_same set_n_notunique set_n_unique set_n_min
    set_i_step set_intermediate_minima set_accepted_minima set_unique_minima
    set_atoms_alias set_all_minima_sorted set_all_minima set_atoms emit set_out
    all_minima_sorted].
  rewrite Hopt.
  cbn [settings set_n_same set_n_notunique set_n_unique set_n_min
    set_i_step set_intermediate_minima set_accepted_minima set_unique_minima
    set_atoms_alias set_all_minima_sorted set_all_minima set_atoms emit set_out
    all_minima_sorted].
  rewrite Hlow.
  cbn [settings set_n_same set_n_notunique set_n_unique set_n_min
    set_i_step set_intermediate_minima set_accepted_minima set_unique_minima
    set_atoms_alias set_all_minima_sorted set_all_minima set_atoms emit set_out
    all_minima_sorted].
  rewrite Hsort. cbn [bind]. rewrite Hline. cbn [bind].
  eexists. split; [reflexivity|].
  cbn. repeat split; reflexivity.
Qed.

Lemma two_minima_sorted :
  list_sort [restart_record (Vec [1]) (structure 1 1);
             restart_record (Vec [2]) (structure 2 2)]
  = [restart_record (Vec [1]) (structure 1 1);
     restart_record (Vec [2]) (structure 2 2)].
Proof.
  unfold list_sort, insort, bisect, list_insert. cbn [fold_left length bisect_loop].
  cbn. unfold Minimum_lt. cbn. Rltb_eval. reflexivity.
Qed.

(** The restart from [two_minima] with [start_lowest]: the archive is
    sorted, and the working structure is the structure of its first record
    (the same object, not a copy). *)
Lemma lowest_restart :
  exists st0,
    _startup two_minima identity_opt restarted_state = OK st0 /\
    settings st0 = lowest_settings /\
    _atoms st0 = structure 1 1 /\ _atoms_alias st0 = Some 0%nat /\
    all_minima_sorted st0
    = [restart_record (Vec [1]) (structure 1 1);
       restart_record (Vec [2]) (structure 2 2)] /\
    flat_descriptors 1 st0.
Proof.
  destruct (startup_lowest two_minima identity_opt restarted_state (structure 2 2)
              (restart_record (Vec [1]) (structure 1 1))
              [restart_record (Vec [2]) (structure 2 2)] (2000, 0.01))
    as (st0 & H0 & S1 & S2 & S3 & S4 & S5 & S6 & _); try reflexivity.
  { exact two_minima_sorted. }
  exists st0. split; [exact H0|].
  unfold flat_descriptors. rewrite S1, S2, S3, S4, S5, S6.
  repeat split; try reflexivity.
  - apply vec_structure.
  - apply vec_structure.
  - constructor.
  - repeat constructor; eexists; split; reflexivity.
Qed.

Lemma insort_after_escape (x : Minimum) :
  energy x = 3 ->
  insort [update_record_atoms (structure 3 3) (restart_record (Vec [1]) (structure 1 1));
          restart_record (Vec [2]) (structure 2 2)] x
  = [update_record_atoms (structure 3 3) (restart_record (Vec [1]) (structure 1 1));
     restart_record (Vec [2]) (structure 2 2); x].
Proof.
  intros Hx.
  assert (E1 : Minimum_lt x (restart_record (Vec [2]) (structure 2 2)) = false).
  { apply Minimum_lt_false. rewrite Hx. cbn. lra. }
  unfold insort, bisect, list_insert. cbn -[Minimum_lt].
  rewrite E1. reflexivity.
Qed.

(** C6: the sorted archive does not stay sorted on a restart with
    [start_lowest].  [_startup] sorts the archive and then binds
    [self._atoms] to the structure object of its first record, without a
    copy; the escape of the first hop moves that object, and with it the
    energy of the archived record.  Here the archive of energies 1, 2 is
    sorted after start-up, and after one hop that escapes to a structure of
    energy 3 it holds the energies 3, 2, 3. *)
Theorem start_lowest_breaks_sorted_archive :
  exists st0 st1,
    _startup two_minima identity_opt restarted_state = OK st0 /\
    map energy (all_minima_sorted st0) = [1; 2] /\
    sorted_by_energy (all_minima_sorted st0) /\
    hop [mkOutcome (structure 3 3) 0] st0 = OK st1 /\
    map energy (all_minima_sorted st1) = [3; 2; 3] /\
    ~ sorted_by_energy (all_minima_sorted st1).
Proof.
  destruct lowest_restart as (st0 & H0 & S1 & S2 & S3 & S4 & S5).
  assert (X : exits_at_first (settings st0) (_atoms st0) (mkOutcome (structure 3 3) 0)).
  { rewrite S1, S2. apply exits_structure; cbn; Rabs_eval; lra. }
  assert (P : 0 < minima_threshold (settings st0) \/ 0 < energy_threshold (settings st0)).
  { rewrite S1. left. cbn. lra. }
  destruct (hop_returns 1 (mkOutcome (structure 3 3) 0) [] st0 S5
              (vec_structure 3 3) X P) as (st1 & H1 & _).
  destruct (hop_archive _ _ _ H1) as (s1 & s3 & fp & Hesc & Hat & Harch).
  rewrite (escape_first_cycle _ [] st0 X P) in Hesc. injection Hesc as <-.
  destruct (escape_result_fields (mkOutcome (structure 3 3) 0) st0)
    as (R1 & _ & _ & R4).
  rewrite S3, S4 in R4. cbn [update_nth relaxed] in R4, R1.
  rewrite R4 in Harch. rewrite R1 in Hat.
  rewrite insort_after_escape in Harch
    by (unfold energy; cbn [atoms new_record]; rewrite Hat; reflexivity).
  exists st0, st1.
  split; [exact H0|]. split; [rewrite S4; reflexivity|].
  split; [rewrite S4, <- two_minima_sorted; apply list_sort_sorted|].
  split; [exact H1|].
  split.
  - rewrite Harch. cbn [map]. unfold energy at 3. cbn [atoms new_record].
    rewrite Hat. reflexivity.
  - intros Hs. rewrite Harch in Hs.
    specialize (Hs 0%nat 1%nat _ _ eq_refl eq_refl (Nat.le_succ_diag_r 0)).
    cbn in Hs. lra.
Qed.
(** * Further properties of the distance engine *)

(** ** Flat descriptors: [fp_distance] is symmetric *)

Lemma Rsum_sq_diff_sym (a b : list R) :
  Rsum (map (fun x => x * x) (diff a b)) = Rsum (map (fun x => x * x) (diff b a)).
Proof.
  unfold diff. revert b.
  induction a as [|x a IH]; intros [|y b]; simpl; try reflexivity.
  rewrite IH. ring.
Qed.

Lemma Rsum_sq_broadcast_sym (x : R) (b : list R) :
  Rsum (map (fun z => z * z) (map (fun y => x - y) b))
  = Rsum (map (fun z => z * z) (map (fun y => y - x) b)).
Proof.
  induction b as [|y b IH]; simpl; [reflexivity|]. rewrite IH. ring.
Qed.

Lemma np_sub_broadcast_left (a b : list R) :
  length a <> length b -> length a = 1%nat ->
  np_sub a b = OK (map (fun y => hd 0 a - y) b).
Proof.
  intros Hne H1. unfold np_sub.
  apply Nat.eqb_neq in Hne. rewrite Hne.
  apply Nat.eqb_eq in H1. rewrite H1. reflexivity.
Qed.

Lemma np_sub_broadcast_right (a b : list R) :
  length a <> length b -> length b = 1%nat ->
  np_sub a b = OK (map (fun x => x - hd 0 b) a).
Proof.
  intros Hne H1. unfold np_sub.
  assert (Ha : length a <> 1%nat) by congruence.
  apply Nat.eqb_neq in Hne, Ha. rewrite Hne, Ha.
  apply Nat.eqb_eq in H1. rewrite H1. reflexivity.
Qed.

Lemma np_sub_raises (a b : list R) :
  length a <> length b -> length a <> 1%nat -> length b <> 1%nat ->
  np_sub a b = Raise (ValueError "operands could not be broadcast together").
Proof.
  intros H H1 H2. unfold np_sub.
  apply Nat.eqb_neq in H, H1, H2. rewrite H, H1, H2. reflexivity.
Qed.

Lemma fp_distance_flat (v1 v2 : list R) :
  fp_distance (Vec v1) (Vec v2) = d <- np_sub v1 v2 ;; OK (np_linalg_norm d).
Proof. reflexivity. Qed.

(** X1: on flat descriptors [fp_distance] is symmetric, whatever their
    lengths: either both orders of the arguments return the same number
    (descriptors of one length, and a descriptor of length 1 that numpy
    broadcasts against the other), or both orders raise ValueError. *)
Theorem fp_distance_flat_symmetric (v1 v2 : list R) :
  match fp_distance (Vec v1) (Vec v2), fp_distance (Vec v2) (Vec v1) with
  | OK x, OK y => x = y
  | Raise (ValueError _), Raise (ValueError _) => True
  | _, _ => False
  end.
Proof.
  rewrite !fp_distance_flat.
  destruct (Nat.eq_dec (length v1) (length v2)) as [E|N].
  - rewrite !np_sub_same_length by congruence. cbn [bind].
    unfold np_linalg_norm. now rewrite Rsum_sq_diff_sym.
  - destruct (Nat.eq_dec (length v1) 1) as [E1|N1].
    + rewrite (np_sub_broadcast_left v1 v2 N E1).
      rewrite (np_sub_broadcast_right v2 v1) by congruence. cbn [bind].
      unfold np_linalg_norm. now rewrite Rsum_sq_broadcast_sym.
    + destruct (Nat.eq_dec (length v2) 1) as [E2|N2].
      * rewrite (np_sub_broadcast_right v1 v2 N E2).
        rewrite (np_sub_broadcast_left v2 v1) by congruence. cbn [bind].
        unfold np_linalg_norm. now rewrite Rsum_sq_broadcast_sym.
      * rewrite !np_sub_raises by congruence. exact I.
Qed.

(** ** Flat descriptors of different lengths *)

(** X2: the assertions of [fp_distance] compare dimensionalities and row
    counts, not the lengths of flat descriptors.  Two flat descriptors of
    different lengths reach numpy's subtraction: it raises ValueError,
    unless one of the two has a single component, which is then compared
    with every component of the other. *)
Theorem fp_distance_flat_lengths :
  (forall v1 v2,
     length v1 <> length v2 -> length v1 <> 1%nat -> length v2 <> 1%nat ->
     fp_distance (Vec v1) (Vec v2)
     = Raise (ValueError "operands could not be broadcast together")) /\
  (forall x v,
     length v <> 1%nat ->
     fp_distance (Vec [x]) (Vec v)
     = OK (np_linalg_norm (map (fun y => x - y) v))) /\
  (forall x v,
     length v <> 1%nat ->
     fp_distance (Vec v) (Vec [x])
     = OK (np_linalg_norm (map (fun y => y - x) v))).
Proof.
  split; [|split].
  - intros v1 v2 H H1 H2. rewrite fp_distance_flat.
    rewrite np_sub_raises by assumption. reflexivity.
  - intros x v H. rewrite fp_distance_flat.
    rewrite np_sub_broadcast_left; simpl; congruence.
  - intros x v H. rewrite fp_distance_flat.
    rewrite np_sub_broadcast_right; simpl; congruence.
Qed.

Lemma fp_distance_flat_lengths_witness :
  fp_distance (Vec [1; 2]) (Vec [1; 2; 3])
  = Raise (ValueError "operands could not be broadcast together") /\
  fp_distance (Vec [1]) (Vec [1; 2; 3])
  = OK (np_linalg_norm [1 - 1; 1 - 2; 1 - 3]) /\
  fp_distance (Vec [1; 2; 3]) (Vec [1])
  = OK (np_linalg_norm [1 - 1; 2 - 1; 3 - 1]).
Proof.
  split; [|split].
  - apply (proj1 fp_distance_flat_lengths [1; 2] [1; 2; 3]); simpl; discriminate.
  - apply (proj1 (proj2 fp_distance_flat_lengths) 1 [1; 2; 3]); simpl; discriminate.
  - apply (proj2 (proj2 fp_distance_flat_lengths) 1 [1; 2; 3]); simpl; discriminate.
Defined.

(** ** Matrix descriptors: an upper bound *)

Lemma Rsum_sq_le_sq_Rsum (l : list R) :
  Forall (fun x => 0 <= x) l ->
  0 <= Rsum l /\ Rsum (map (fun x => x * x) l) <= Rsum l * Rsum l.
Proof.
  induction 1 as [|x l Hx _ [IH1 IH2]]; simpl; [lra|]. split; nra.
Qed.

Lemma sqrt_Rsum_sq_le (l : list R) :
  Forall (fun x => 0 <= x) l -> sqrt (Rsum (map (fun x => x * x) l)) <= Rsum l.
Proof.
  intros H. destruct (Rsum_sq_le_sq_Rsum l H) as [H1 H2].
  rewrite <- (sqrt_square (Rsum l)) by exact H1.
  apply sqrt_le_1; try assumption.
  - apply Rsum_squares_nonneg.
  - nra.
Qed.

Lemma sqrt_squares_le_distances (rows1 rows2 : list (list R)) (cols : list nat) :
  sqrt (sum_of_squares rows1 rows2 cols) <= sum_of_distances rows1 rows2 cols.
Proof.
  unfold sum_of_squares, sum_of_distances, sum_matched.
  set (l := map (fun p : nat * nat => dist (nth (fst p) rows1 []) (nth (snd p) rows2 []))
                (combine (seq 0 (length cols)) cols)).
  replace (map (fun p : nat * nat =>
                  dist (nth (fst p) rows1 []) (nth (snd p) rows2 [])
                  * dist (nth (fst p) rows1 []) (nth (snd p) rows2 []))
               (combine (seq 0 (length cols)) cols))
    with (map (fun x => x * x) l) by (unfold l; now rewrite map_map).
  apply sqrt_Rsum_sq_le.
  unfold l. apply Forall_forall. intros x Hx.
  apply in_map_iff in Hx. destruct Hx as (p & <- & _). apply dist_nonneg.
Qed.

(** X3: the distance between two matrix descriptors of one shape never
    exceeds the total of the row distances under any pairing of the rows,
    in particular under the row-by-row pairing. *)
Theorem fp_distance_below_every_pairing (c : nat) (rows1 rows2 : list (list R)) :
  well_shaped (Mat c rows1) -> well_shaped (Mat c rows2) ->
  length rows1 = length rows2 ->
  exists r,
    fp_distance (Mat c rows1) (Mat c rows2) = OK r /\
    (forall p, Permutation (seq 0 (length rows1)) p ->
       r <= sum_of_distances rows1 rows2 p) /\
    r <= sum_of_distances rows1 rows2 (seq 0 (length rows1)).
Proof.
  intros H1 H2 Hlen. simpl in H1, H2.
  set (cols := snd (linear_sum_assignment (cost_of rows1 rows2))).
  assert (Hp : Permutation (seq 0 (length rows1)) cols).
  { unfold cols. rewrite <- (length_cost_of rows1 rows2).
    apply linear_sum_assignment_perm. }
  assert (Hall : forall p, Permutation (seq 0 (length rows1)) p ->
            sqrt (sum_of_squares rows1 rows2 cols) <= sum_of_distances rows1 rows2 p).
  { intros p Hperm.
    apply Rle_trans with (sum_of_distances rows1 rows2 cols).
    - apply sqrt_squares_le_distances.
    - unfold sum_of_distances.
      rewrite <- !assignment_cost_cost_of by assumption.
      apply linear_sum_assignment_optimal. rewrite length_cost_of. exact Hperm. }
  exists (sqrt (sum_of_squares rows1 rows2 cols)).
  split; [apply (fp_distance_mat c); assumption|].
  split; [exact Hall|]. apply Hall. apply Permutation_refl.
Qed.

Lemma fp_distance_below_every_pairing_witness :
  exists r,
    fp_distance triangle_d1 triangle_d2 = OK r /\
    (forall p, Permutation (seq 0 2) p ->
       r <= sum_of_distances [[0; 3]; [-4; 0]] [[0; 3]; [4; 0]] p) /\
    r <= sum_of_distances [[0; 3]; [-4; 0]] [[0; 3]; [4; 0]] (seq 0 2).
Proof.
  apply (fp_distance_below_every_pairing 2 [[0; 3]; [-4; 0]] [[0; 3]; [4; 0]]);
    simpl; auto.
Defined.
(** * Further properties of the escape loop *)

Lemma escape_loop_step (o : md_outcome) (rest : list md_outcome) (fp_in : ndarray)
  (e_in : R) (esc : option R) (esc_e : R) (i : Z) (st : State) :
  escape_loop (o :: rest) fp_in e_in esc esc_e i st
  = if np_lt esc (minima_threshold (settings st))
       || Rltb esc_e (energy_threshold (settings st))
    then
      d <- fp_distance fp_in (omfp (_atoms (escape_cycle i o st))) ;;
      escape_loop rest fp_in e_in
        (np_true_divide d (shape0 (omfp (_atoms (escape_cycle i o st)))))
        (Rabs (e_in - get_potential_energy (_atoms (escape_cycle i o st))))
        (i + 1)%Z (escape_cycle i o st)
    else OK st.
Proof. reflexivity. Qed.

Lemma locm_written_app (l1 l2 : list event) :
  locm_written (l1 ++ l2) = locm_written l1 ++ locm_written l2.
Proof.
  induction l1 as [|e l1 IH]; simpl; [reflexivity|].
  destruct e; simpl; rewrite IH; reflexivity.
Qed.

Lemma history_tags_app (l1 l2 : list event) :
  history_tags (l1 ++ l2) = history_tags l1 ++ history_tags l2.
Proof.
  induction l1 as [|e l1 IH]; simpl; [reflexivity|].
  destruct e; simpl; rewrite IH; reflexivity.
Qed.

(** One turn of the loop: the fields it sets and the events it emits. *)
Lemma escape_cycle_fields (i : Z) (o : md_outcome) (st : State) :
  settings (escape_cycle i o st) = settings st /\
  _atoms (escape_cycle i o st) = relaxed o /\
  _fp (escape_cycle i o st) = Some (omfp (relaxed o)) /\
  _n_min (escape_cycle i o st) = (_n_min st + 1)%Z /\
  _n_same (escape_cycle i o st)
  = (_n_same st + if (0 <? i)%Z then 1 else 0)%Z /\
  _temperature (escape_cycle i o st)
  = _temperature st * (if (0 <? i)%Z then 1.05 else 1) /\
  exists evs,
    out (escape_cycle i o st) = out st ++ evs /\
    locm_written evs = [relaxed o] /\
    history_tags evs = if (0 <? i)%Z then [Same] else [].
Proof.
  unfold escape_cycle, _check_energy_threshold, mutate_atoms, _history_log, emit,
    _get_OMFP.
  destruct (0 <? i)%Z; cbn [settings _atoms _atoms_alias _fp _n_min _n_same
    _temperature out set_n_same set_acc_rej set_out set_n_visits set_temperature
    set_atoms set_all_minima_sorted set_fp set_n_min];
  destruct (_atoms_alias st);
  cbn [settings _atoms _atoms_alias _fp _n_min _n_same
    _temperature out set_n_same set_acc_rej set_out set_n_visits set_temperature
    set_atoms set_all_minima_sorted set_fp set_n_min energy_threshold];
  destruct (Rltb (energy_threshold (settings st)) (noise o));
  cbn [settings _atoms _atoms_alias _fp _n_min _n_same
    _temperature out set_n_same set_acc_rej set_out set_n_visits set_temperature
    set_atoms set_all_minima_sorted set_fp set_n_min];
  (repeat split; try reflexivity; try ring);
  rewrite <- ?app_assoc; eexists; (split; [reflexivity|]); split; reflexivity.
Qed.

(** The loop as a whole: it takes [k] turns, and what [k] turns leave
    behind.  After the first turn of an escape every further turn logs a
    line tagged Same and heats by 5%. *)
Lemma escape_loop_cycles (outcomes : list md_outcome) (fp_in : ndarray) (e_in : R) :
  forall esc esc_e i st st',
    (0 <= i)%Z ->
    escape_loop outcomes fp_in e_in esc esc_e i st = OK st' ->
    exists k evs,
      (k <= length outcomes)%nat /\
      settings st' = settings st /\
      _n_min st' = (_n_min st + Z.of_nat k)%Z /\
      _n_same st'
      = (_n_same st + Z.of_nat (if (0 <? i)%Z then k else (k - 1)%nat))%Z /\
      _temperature st'
      = _temperature st * 1.05 ^ (if (0 <? i)%Z then k else (k - 1)%nat) /\
      out st' = out st ++ evs /\
      locm_written evs = map relaxed (firstn k outcomes) /\
      history_tags evs = repeat Same (if (0 <? i)%Z then k else (k - 1)%nat) /\
      match k with
      | O => st' = st /\
             np_lt esc (minima_threshold (settings st))
             || Rltb esc_e (energy_threshold (settings st)) = false
      | S k' =>
          exists o d,
            nth_error outcomes k' = Some o /\
            _atoms st' = relaxed o /\ _fp st' = Some (omfp (relaxed o)) /\
            fp_distance fp_in (omfp (relaxed o)) = OK d /\
            np_lt (np_true_divide d (shape0 (omfp (relaxed o))))
                  (minima_threshold (settings st)) = false /\
            Rltb (Rabs (e_in - get_potential_energy (relaxed o)))
                 (energy_threshold (settings st)) = false
      end.
Proof.
  induction outcomes as [|o rest IH]; intros esc esc_e i st st' Hi H.
  - cbn [escape_loop] in H.
    destruct (np_lt esc (minima_threshold (settings st))
              || Rltb esc_e (energy_threshold (settings st))) eqn:C;
      [discriminate|].
    injection H as <-. exists 0%nat, [].
    rewrite app_nil_r, Z.add_0_r.
    destruct (0 <? i)%Z; cbn [Nat.sub Z.of_nat pow repeat];
      rewrite Z.add_0_r, Rmult_1_r; repeat split; auto.
  - rewrite escape_loop_step in H.
    destruct (np_lt esc (minima_threshold (settings st))
              || Rltb esc_e (energy_threshold (settings st))) eqn:C.
    + bind_inv H.
      destruct (escape_cycle_fields i o st)
        as (F1 & F2 & F3 & F4 & F5 & F6 & evs1 & F7 & F8 & F9).
      rewrite F2 in Hx, H.
      apply IH in H; [|lia].
      destruct H as (k & evs & Hk & S1 & S2 & S3 & S4 & S5 & S6 & S7 & S8).
      assert (Hpos : (0 <? i + 1)%Z = true) by (apply Z.ltb_lt; lia).
      rewrite Hpos in S3, S4, S7.
      exists (S k), (evs1 ++ evs).
      split; [simpl; lia|].
      split; [congruence|].
      split; [rewrite S2, F4; lia|].
      split.
      { rewrite S3, F5. destruct (0 <? i)%Z; cbn [Nat.sub]; rewrite ?Nat.sub_0_r; lia. }
      split.
      { rewrite S4, F6. destruct (0 <? i)%Z; cbn [Nat.sub]; rewrite ?Nat.sub_0_r;
          cbn [pow]; ring. }
      split; [rewrite S5, F7, app_assoc; reflexivity|].
      split; [rewrite locm_written_app, F8, S6; reflexivity|].
      split.
      { rewrite history_tags_app, F9, S7.
        destruct (0 <? i)%Z; cbn [Nat.sub]; rewrite ?Nat.sub_0_r; reflexivity. }
      destruct k as [|k'].
      * destruct S8 as [-> S8]. rewrite F1 in S8.
        apply orb_false_iff in S8. destruct S8 as [S8 S9].
        exists o, x. repeat split; assumption.
      * destruct S8 as (o' & d & N1 & N2 & N3 & N4 & N5 & N6).
        rewrite F1 in N5, N6.
        exists o', d. repeat split; assumption.
    + injection H as <-. exists 0%nat, [].
      rewrite app_nil_r, Z.add_0_r.
      destruct (0 <? i)%Z; cbn [Nat.sub Z.of_nat pow repeat];
        rewrite Z.add_0_r, Rmult_1_r; repeat split; auto; lia.
Qed.

Lemma np_lt_false (q : option R) (thr : R) :
  np_lt q thr = false <-> q = None \/ exists v, q = Some v /\ thr <= v.
Proof.
  unfold np_lt. destruct q as [v|].
  - rewrite Rltb_false. split.
    + intros H. right. exists v. split; [reflexivity | exact H].
    + intros [H|(w & E & H)]; [discriminate|]. now injection E as ->.
  - split; [now left | reflexivity].
Qed.

Lemma escape_starts (st : State) :
  0 < minima_threshold (settings st) \/ 0 < energy_threshold (settings st) ->
  np_lt (Some 0) (minima_threshold (settings st))
  || Rltb 0 (energy_threshold (settings st)) = true.
Proof.
  intros [H|H]; apply orb_true_iff; [left|right]; cbn [np_lt];
    now apply Rltb_true.
Qed.

(** X4: an escape that takes [k] perturb-and-relax cycles leaves the
    structure relaxed by the last one, counts [k] minima and [k - 1]
    returns to the same minimum, has multiplied the temperature by 1.05 for
    each of these returns, has appended the relaxed structure of every
    cycle to locm.extxyz, and has logged [k - 1] lines tagged Same followed
    by one line tagged Inter. *)
Theorem escape_cycles (outcomes : list md_outcome) (st st' : State) :
  0 < minima_threshold (settings st) \/ 0 < energy_threshold (settings st) ->
  _escape outcomes st = OK st' ->
  exists k o evs,
    (1 <= k <= length outcomes)%nat /\
    nth_error outcomes (k - 1) = Some o /\
    _atoms st' = relaxed o /\
    intermediate_minima st' = intermediate_minima st ++ [relaxed o] /\
    _n_min st' = (_n_min st + Z.of_nat k)%Z /\
    _n_same st' = (_n_same st + Z.of_nat (k - 1))%Z /\
    _temperature st' = _temperature st * 1.05 ^ (k - 1) /\
    out st' = out st ++ evs /\
    locm_written evs = map relaxed (firstn k outcomes) /\
    history_tags evs = repeat Same (k - 1) ++ [Inter].
Proof.
  intros Hthr H. unfold _escape in H. bind_inv H. injection H as <-.
  pose proof (escape_loop_keeps _ _ _ _ _ _ _ _ Hx) as K.
  destruct K as (_ & _ & _ & _ & _ & _ & _ & _ & K & _).
  apply escape_loop_cycles in Hx; [|lia].
  destruct Hx as (k & evs & Hk & S1 & S2 & S3 & S4 & S5 & S6 & S7 & S8).
  cbn [Z.ltb Z.compare] in S3, S4, S7.
  destruct k as [|k'].
  { destruct S8 as [_ S8]. rewrite (escape_starts st Hthr) in S8. discriminate. }
  destruct S8 as (o & d & N1 & N2 & N3 & _).
  replace (S k' - 1)%nat with k' in S3, S4, S7 by lia.
  exists (S k'), o.
  eexists (evs ++ [_]).
  replace (S k' - 1)%nat with k' by lia.
  split; [lia|].
  split; [exact N1|].
  unfold _history_log, emit.
  cbn [_atoms intermediate_minima _n_min _n_same _temperature out
       set_n_visits set_out set_acc_rej set_intermediate_minima].
  split; [exact N2|].
  split; [rewrite N2, K; reflexivity|].
  split; [exact S2|]. split; [exact S3|]. split; [exact S4|].
  split; [rewrite S5, app_assoc; reflexivity|].
  split; [rewrite locm_written_app, S6; cbn; now rewrite app_nil_r|].
  rewrite history_tags_app, S7. reflexivity.
Qed.

Lemma escape_cycles_witness :
  exists st0 st' k o evs,
    _startup no_files identity_opt fresh_state = OK st0 /\
    _escape [mkOutcome (structure 5 5) 0] st0 = OK st' /\
    (1 <= k <= 1)%nat /\
    nth_error [mkOutcome (structure 5 5) 0] (k - 1) = Some o /\
    _atoms st' = relaxed o /\
    _n_min st' = (_n_min st0 + Z.of_nat k)%Z /\
    _temperature st' = _temperature st0 * 1.05 ^ (k - 1) /\
    out st' = out st0 ++ evs /\
    history_tags evs = repeat Same (k - 1) ++ [Inter].
Proof.
  destruct rejecting_run as (st0 & _ & _ & s1 & _ & H0 & S1 & _ & _ & H1 & _).
  destruct (escape_cycles [mkOutcome (structure 5 5) 0] st0 s1)
    as (k & o & evs & Hk & N & A & _ & M & _ & T & O & _ & Hh).
  - rewrite S1. left. cbn. lra.
  - exact H1.
  - exists st0, s1, k, o, evs. repeat split; try assumption; apply Hk.
Defined.

(** X5: the structure that an escape returns differs from the structure
    it started from by both criteria of the loop: the fingerprint distance
    between the two, divided by the number of rows of the new fingerprint,
    is not below [minima_threshold] (numpy's division by a row count of
    zero gives nan or inf, which is not below it either), and their energies
    differ by at least [energy_threshold].  Both are measured from the
    starting structure, whatever the cycles in between. *)
Theorem escape_leaves_the_minimum (outcomes : list md_outcome) (st st' : State) :
  0 < minima_threshold (settings st) \/ 0 < energy_threshold (settings st) ->
  _escape outcomes st = OK st' ->
  exists d,
    fp_distance (omfp (_atoms st)) (omfp (_atoms st')) = OK d /\
    (shape0 (omfp (_atoms st')) = 0%nat \/
     minima_threshold (settings st) <= d / INR (shape0 (omfp (_atoms st')))) /\
    energy_threshold (settings st)
    <= Rabs (get_potential_energy (_atoms st) - get_potential_energy (_atoms st')) /\
    _fp st' = Some (omfp (_atoms st')).
Proof.
  intros Hthr H. unfold _escape in H. bind_inv H. injection H as <-.
  apply escape_loop_cycles in Hx; [|lia].
  destruct Hx as (k & evs & _ & _ & _ & _ & _ & _ & _ & _ & S8).
  destruct k as [|k'].
  { destruct S8 as [_ S8]. rewrite (escape_starts st Hthr) in S8. discriminate. }
  destruct S8 as (o & d & _ & N2 & N3 & N4 & N5 & N6).
  unfold _history_log, emit.
  cbn [_atoms _fp set_n_visits set_out set_acc_rej set_intermediate_minima].
  rewrite N2. exists d.
  split; [exact N4|].
  split.
  - apply np_lt_false in N5. destruct N5 as [N5|(v & N5 & Hv)];
      unfold np_true_divide in N5;
      destruct (Nat.eqb_spec (shape0 (omfp (relaxed o))) 0) as [E|E];
      try discriminate; [now left|].
    injection N5 as <-. now right.
  - split; [now apply Rltb_false | exact N3].
Qed.

Lemma escape_leaves_the_minimum_witness :
  exists st0 st' d,
    _escape [mkOutcome (structure 5 5) 0] st0 = OK st' /\
    fp_distance (omfp (_atoms st0)) (omfp (_atoms st')) = OK d /\
    energy_threshold (settings st0)
    <= Rabs (get_potential_energy (_atoms st0) - get_potential_energy (_atoms st')).
Proof.
  destruct rejecting_run as (st0 & _ & _ & s1 & _ & H0 & S1 & _ & _ & H1 & _).
  destruct (escape_leaves_the_minimum [mkOutcome (structure 5 5) 0] st0 s1)
    as (d & D & _ & E & _).
  - rewrite S1. left. cbn. lra.
  - exact H1.
  - exists st0, s1, d. repeat split; assumption.
Defined.
(** * Further properties of the novelty lookup *)

Lemma compare_record_inv (s : Minimum) (epot : R) (fp1 : ndarray) (mthr : R)
  (i : Z) (r : R * Z) :
  compare_record s epot fp1 mthr i = OK r ->
  exists d,
    fp_distance fp1 (fingerprint s) = OK d /\
    fst r = Rabs (energy s - epot) /\
    snd r = if np_lt (np_true_divide d (shape0 (fingerprint s))) mthr
            then (i + 1)%Z else i.
Proof.
  unfold compare_record. intros H. bind_inv H. injection H as <-.
  exists x. repeat split; assumption.
Qed.

Lemma list_get_inv (a : list Minimum) (k : nat) (s : Minimum) :
  list_get a k = OK s -> nth_error a k = Some s.
Proof.
  unfold list_get. destruct (nth_error a k); intros H; [|discriminate].
  now injection H as ->.
Qed.

Lemma scan_backward_bounds (a : list Minimum) (epot : R) (fp1 : ndarray)
  (ethr mthr : R) :
  forall k e i r,
    scan_backward a epot fp1 ethr mthr k e i = OK r ->
    (i <= snd r <= i + Z.of_nat k)%Z.
Proof.
  induction k as [|k IH]; intros e i r H; cbn [scan_backward] in H.
  - destruct (Rltb e ethr); injection H as <-; cbn; lia.
  - destruct (Rltb e ethr).
    + bind_inv H. bind_inv H.
      apply compare_record_inv in Hx0. destruct Hx0 as (d & _ & _ & E).
      apply IH in H. rewrite E in H.
      destruct (np_lt _ _); lia.
    + injection H as <-. cbn. lia.
Qed.

Lemma scan_forward_bounds (a : list Minimum) (epot : R) (fp1 : ndarray)
  (ethr mthr : R) :
  forall fuel k e i n,
    scan_forward fuel a epot fp1 ethr mthr k e i = OK n ->
    (i <= n <= i + Z.of_nat (length a - 1 - k))%Z.
Proof.
  induction fuel as [|fuel IH]; intros k e i n H; cbn [scan_forward] in H.
  - injection H as <-. lia.
  - destruct (Rltb e ethr); [|injection H as <-; lia].
    destruct (Nat.ltb_spec (length a) (k + 1 + 1)) as [L|L];
      [injection H as <-; lia|].
    bind_inv H. bind_inv H.
    apply compare_record_inv in Hx0. destruct Hx0 as (d & _ & _ & E).
    apply IH in H. rewrite E in H.
    destruct (np_lt _ _); lia.
Qed.

(** X6: the novelty count is at least 1 and at most one more than the
    number of archived records; on an empty archive it is 1. *)
Theorem in_history_fp_bounds :
  (forall st n,
     _in_history_fp st = OK n ->
     (1 <= n <= 1 + Z.of_nat (length (all_minima_sorted st)))%Z) /\
  (forall st fp,
     _fp st = Some fp -> all_minima_sorted st = [] ->
     _in_history_fp st = OK 1%Z).
Proof.
  split.
  - intros st n H. unfold _in_history_fp in H. bind_inv H. bind_inv H.
    apply scan_backward_bounds in Hx0. apply scan_forward_bounds in H.
    match type of Hx0 with
    | context [Z.of_nat (bisect ?a ?m)] => pose proof (bisect_le_length a m) as B
    end.
    lia.
  - intros st fp Hfp He. unfold _in_history_fp, get_fp. rewrite Hfp, He.
    cbn [bind bisect bisect_loop length scan_backward].
    destruct (Rltb 0 (energy_threshold (settings st)));
      cbn [bind fst snd Nat.add scan_forward];
      destruct (Rltb 0 (energy_threshold (settings st))); reflexivity.
Qed.

Lemma in_history_fp_bounds_witness :
  (1 <= 2 <= 1 + Z.of_nat (length (all_minima_sorted (lookup_state archived found_above))))%Z /\
  _in_history_fp (set_all_minima_sorted [] (lookup_state archived found_above))
  = OK 1%Z.
Proof.
  split.
  - apply (proj1 in_history_fp_bounds (lookup_state archived found_above) 2%Z).
    unfold_steps. do 4 eval_step. reflexivity.
  - apply (proj2 in_history_fp_bounds
             (set_all_minima_sorted [] (lookup_state archived found_above))
             (Vec [1; 2; 3])); reflexivity.
Defined.

(** The backward scan reaches every record that lies between a record
    within the energy threshold and the insertion point. *)
Lemma scan_backward_finds (a : list Minimum) (epot : R) (fp1 : ndarray)
  (ethr mthr : R) (j : nat) (r : Minimum) (d : R) :
  nth_error a j = Some r ->
  fp_distance fp1 (fingerprint r) = OK d ->
  np_lt (np_true_divide d (shape0 (fingerprint r))) mthr = true ->
  forall k e i res,
    (j < k)%nat -> e < ethr ->
    (forall i' m, (j < i' < k)%nat -> nth_error a i' = Some m ->
                  Rabs (energy m - epot) < ethr) ->
    scan_backward a epot fp1 ethr mthr k e i = OK res ->
    (i + 1 <= snd res)%Z.
Proof.
  intros Hj Hd Hclose.
  induction k as [|k IH]; intros e i res Hk He Hbetween H; [lia|].
  cbn [scan_backward] in H.
  rewrite (proj2 (Rltb_true _ _) He) in H.
  bind_inv H. bind_inv H.
  apply list_get_inv in Hx.
  apply compare_record_inv in Hx0. destruct Hx0 as (d' & D & E1 & E2).
  destruct (Nat.eq_dec k j) as [->|N].
  - rewrite Hj in Hx. injection Hx as <-.
    rewrite Hd in D. injection D as <-. rewrite Hclose in E2.
    apply scan_backward_mono in H. lia.
  - apply IH in H.
    + revert H. rewrite E2.
      destruct (np_lt (np_true_divide d' (shape0 (fingerprint x))) mthr); lia.
    + lia.
    + rewrite E1. apply (Hbetween k); [lia | exact Hx].
    + intros i' m Hi'. apply Hbetween. lia.
Qed.

(** X7: in an archive sorted by energy, a record whose energy is at most
    the energy of the structure looked up and within [energy_threshold] of
    it, and whose fingerprint is within [minima_threshold] of the
    structure's, is always counted: the novelty count is at least 2. *)
Theorem lookup_finds_lower_duplicate (st : State) (fp : ndarray) (j : nat)
  (r : Minimum) (d : R) (n : Z) :
  sorted_by_energy (all_minima_sorted st) ->
  _fp st = Some fp ->
  nth_error (all_minima_sorted st) j = Some r ->
  energy r <= get_potential_energy (_atoms st) ->
  get_potential_energy (_atoms st) - energy r < energy_threshold (settings st) ->
  fp_distance fp (fingerprint r) = OK d ->
  np_lt (np_true_divide d (shape0 (fingerprint r))) (minima_threshold (settings st))
  = true ->
  _in_history_fp st = OK n ->
  (2 <= n)%Z.
Proof.
  intros Hs Hfp Hj Hle Hthr Hd Hclose H.
  unfold _in_history_fp, get_fp in H. rewrite Hfp in H. cbn [bind] in H.
  bind_inv H.
  set (mini := {| atoms := _atoms st; n_visit := (-1)%Z; fingerprint := fp;
                  T := _temperature st; ediff := _Ediff st;
                  acc_rej := _acc_rej st |}) in *.
  destruct (bisect_sorted (all_minima_sorted st) mini Hs) as [Blow Bhigh].
  change (energy mini) with (get_potential_energy (_atoms st)) in Blow, Bhigh.
  assert (Hjb : (j < bisect (all_minima_sorted st) mini)%nat).
  { destruct (Nat.lt_ge_cases j (bisect (all_minima_sorted st) mini)) as [L|L];
      [exact L|].
    specialize (Bhigh j r L Hj). lra. }
  apply scan_forward_mono in H.
  apply (scan_backward_finds _ _ _ _ _ j r d Hj Hd Hclose) in Hx.
  - lia.
  - exact Hjb.
  - lra.
  - intros i' m Hi' Hm.
    assert (energy m <= get_potential_energy (_atoms st))
      by (apply (Blow i' m); [lia | exact Hm]).
    assert (energy r <= energy m)
      by (apply (Hs j i' r m Hj Hm); lia).
    rewrite Rabs_left1 by lra. lra.
Qed.

Lemma lookup_finds_lower_duplicate_witness :
  exists n,
    _in_history_fp (lookup_state archived found_above) = OK n /\ (2 <= n)%Z.
Proof.
  assert (H : _in_history_fp (lookup_state archived found_above) = OK 2%Z).
  { unfold_steps. do 4 eval_step. reflexivity. }
  exists 2%Z. split; [exact H|].
  apply (lookup_finds_lower_duplicate (lookup_state archived found_above)
           (Vec [1; 2; 3]) 0 archived 0 2%Z).
  - intros i j mi mj Hi Hj Hij.
    destruct i as [|[|i]], j as [|[|j]]; cbn in Hi, Hj; try discriminate.
    injection Hi as <-. injection Hj as <-. lra.
  - reflexivity.
  - reflexivity.
  - cbn. lra.
  - cbn. lra.
  - unfold archived. cbn [fingerprint].
    rewrite fp_distance_vec by reflexivity. now rewrite dist_self.
  - unfold np_true_divide, np_lt. cbn -[Rltb INR]. apply Rltb_true.
    simpl INR. lra.
  - exact H.
Defined.

Lemma scan_backward_stops (a : list Minimum) (epot : R) (fp1 : ndarray)
  (ethr mthr : R) (k : nat) (e : R) (i : Z) :
  ethr <= e -> scan_backward a epot fp1 ethr mthr k e i = OK (e, i).
Proof.
  intros H. destruct k; cbn [scan_backward];
    rewrite (proj2 (Rltb_false _ _) H); reflexivity.
Qed.

Lemma scan_forward_stops (fuel : nat) (a : list Minimum) (epot : R) (fp1 : ndarray)
  (ethr mthr : R) (k : nat) (e : R) (i : Z) :
  ethr <= e -> scan_forward fuel a epot fp1 ethr mthr k e i = OK i.
Proof.
  intros H. destruct fuel; cbn [scan_forward]; [reflexivity|].
  rewrite (proj2 (Rltb_false _ _) H). reflexivity.
Qed.

(** X8: the forward scan starts from the energy difference that the
    backward scan ended with.  In a sorted archive, when the record just
    below the structure looked up is [energy_threshold] or more away in
    energy, the lookup compares the structure with that record only: the
    records of higher energy are not examined, however close they are. *)
Theorem lookup_stops_at_far_lower_record (st : State) (fp : ndarray) (j : nat)
  (r : Minimum) (d : R) :
  sorted_by_energy (all_minima_sorted st) ->
  _fp st = Some fp ->
  nth_error (all_minima_sorted st) j = Some r ->
  energy r <= get_potential_energy (_atoms st) ->
  (forall m, nth_error (all_minima_sorted st) (S j) = Some m ->
             get_potential_energy (_atoms st) < energy m) ->
  0 < energy_threshold (settings st) ->
  energy_threshold (settings st) <= get_potential_energy (_atoms st) - energy r ->
  fp_distance fp (fingerprint r) = OK d ->
  _in_history_fp st
  = OK (if np_lt (np_true_divide d (shape0 (fingerprint r)))
                 (minima_threshold (settings st))
        then 2%Z else 1%Z).
Proof.
  intros Hs Hfp Hj Hle Hnext Hpos Hfar Hd.
  unfold _in_history_fp, get_fp. rewrite Hfp. cbn [bind].
  set (mini := {| atoms := _atoms st; n_visit := (-1)%Z; fingerprint := fp;
                  T := _temperature st; ediff := _Ediff st;
                  acc_rej := _acc_rej st |}).
  destruct (bisect_sorted (all_minima_sorted st) mini Hs) as [Blow Bhigh].
  change (energy mini) with (get_potential_energy (_atoms st)) in Blow, Bhigh.
  assert (Hb : bisect (all_minima_sorted st) mini = S j).
  { pose proof (bisect_le_length (all_minima_sorted st) mini) as Hlen.
    destruct (Nat.lt_trichotomy (bisect (all_minima_sorted st) mini) (S j))
      as [L|[L|L]]; [|exact L|].
    - assert (L' : (bisect (all_minima_sorted st) mini <= j)%nat) by lia.
      specialize (Bhigh j r L' Hj). lra.
    - destruct (nth_error (all_minima_sorted st) (S j)) as [m|] eqn:E.
      + specialize (Blow (S j) m L E). specialize (Hnext m eq_refl). lra.
      + apply nth_error_None in E. lia. }
  rewrite Hb. cbn [scan_backward].
  rewrite (proj2 (Rltb_true _ _) Hpos).
  unfold list_get. rewrite Hj. cbn [bind].
  unfold compare_record. rewrite Hd. cbn [bind fst snd].
  assert (Hfar' : energy_threshold (settings st)
                  <= Rabs (get_potential_energy (atoms r)
                           - get_potential_energy (_atoms st))).
  { unfold energy in Hle, Hfar. rewrite Rabs_left1 by lra. lra. }
  rewrite scan_backward_stops by exact Hfar'. cbn [bind fst snd].
  rewrite scan_forward_stops by exact Hfar'.
  destruct (np_lt (np_true_divide d (shape0 (fingerprint r)))
                  (minima_threshold (settings st))); reflexivity.
Qed.

Lemma lookup_stops_at_far_lower_record_witness :
  _in_history_fp
    (lookup_state archived (mkAtoms 2 (Vec [1; 2; 3])))
  = OK 2%Z.
Proof.
  rewrite (lookup_stops_at_far_lower_record
             (lookup_state archived (mkAtoms 2 (Vec [1; 2; 3])))
             (Vec [1; 2; 3]) 0 archived 0).
  - unfold np_true_divide, np_lt. cbn -[Rltb INR].
    rewrite (proj2 (Rltb_true _ _)); [reflexivity | simpl INR; lra].
  - intros i j mi mj Hi Hj Hij.
    destruct i as [|[|i]], j as [|[|j]]; cbn in Hi, Hj; try discriminate.
    injection Hi as <-. injection Hj as <-. lra.
  - reflexivity.
  - reflexivity.
  - cbn. lra.
  - intros m Hm. discriminate.
  - cbn. lra.
  - cbn. lra.
  - unfold archived. cbn [fingerprint].
    rewrite fp_distance_vec by reflexivity. now rewrite dist_self.
Defined.
(** * What a hop writes *)

Lemma min_written_app (l1 l2 : list event) :
  min_written (l1 ++ l2) = min_written l1 ++ min_written l2.
Proof.
  induction l1 as [|e l1 IH]; simpl; [reflexivity|].
  destruct e; simpl; rewrite IH; reflexivity.
Qed.

Lemma acc_written_app (l1 l2 : list event) :
  acc_written (l1 ++ l2) = acc_written l1 ++ acc_written l2.
Proof.
  induction l1 as [|e l1 IH]; simpl; [reflexivity|].
  destruct e; simpl; rewrite IH; reflexivity.
Qed.

Lemma fp_written_app (l1 l2 : list event) :
  fp_written (l1 ++ l2) = fp_written l1 ++ fp_written l2.
Proof.
  induction l1 as [|e l1 IH]; simpl; [reflexivity|].
  destruct e; simpl; rewrite IH; reflexivity.
Qed.

Lemma history_written_app (l1 l2 : list event) :
  history_written (l1 ++ l2) = history_written l1 ++ history_written l2.
Proof.
  induction l1 as [|e l1 IH]; simpl; [reflexivity|].
  destruct e; simpl; rewrite IH; reflexivity.
Qed.

(** ** The files of the lowest minima *)

Lemma write_poslow_loop_out (l : list Minimum) :
  forall i st,
    (0 <= i <= n_poslow (settings st) + 1)%Z ->
    out (write_poslow_loop l i st)
    = out st ++ poslow_files i
        (firstn (Z.to_nat (n_poslow (settings st) + 2 - i)) (filter visited_once l)).
Proof.
  induction l as [|s l IH]; intros i st Hi.
  - cbn [write_poslow_loop filter]. rewrite firstn_nil. cbn. now rewrite app_nil_r.
  - cbn [write_poslow_loop filter]. unfold visited_once at 1.
    destruct (n_visit s =? 1)%Z.
    + destruct (Z.ltb_spec (n_poslow (settings st)) (i + 1 - 1)) as [L|L].
      * assert (E : (n_poslow (settings st) + 2 - i = 1)%Z) by lia.
        rewrite E. cbn [Z.to_nat Pos.to_nat Pos.iter_op firstn poslow_files].
        destruct (filter visited_once l); reflexivity.
      * rewrite IH by (cbn; lia).
        cbn [settings emit set_out out].
        replace (Z.to_nat (n_poslow (settings st) + 2 - i))
          with (S (Z.to_nat (n_poslow (settings st) + 2 - (i + 1)))) by lia.
        cbn [firstn poslow_files]. rewrite <- app_assoc. reflexivity.
    + destruct (Z.ltb_spec (n_poslow (settings st)) (i - 1)) as [L|L]; [lia|].
      apply IH. exact Hi.
Qed.

(** X9: [_write_poslow] writes the records of the sorted archive that were
    visited once, lowest energy first, into files numbered from 0, and
    stops after [n_poslow + 2] files (32 files with the default
    [n_poslow = 30]); it changes nothing else. *)
Theorem write_poslow_files (st : State) :
  (-1 <= n_poslow (settings st))%Z ->
  out (_write_poslow st)
  = out st ++ poslow_files 0
      (firstn (Z.to_nat (n_poslow (settings st) + 2))
         (filter visited_once (all_minima_sorted st))) /\
  same_but_out st (_write_poslow st).
Proof.
  intros H. split.
  - unfold _write_poslow. rewrite write_poslow_loop_out by lia.
    now rewrite Z.sub_0_r.
  - apply write_poslow_frame.
Qed.

Lemma write_poslow_files_witness :
  out (_write_poslow three_unique_minima)
  = [WritePoslow 0 (structure 1 1); WritePoslow 1 (structure 2 2)].
Proof.
  assert (H : (-1 <= n_poslow (settings three_unique_minima))%Z) by (cbn; lia).
  rewrite (proj1 (write_poslow_files three_unique_minima H)). reflexivity.
Defined.

(** ** The files that a hop appends to *)

Lemma write_poslow_loop_appends (l : list Minimum) :
  forall i st,
    exists pos,
      out (write_poslow_loop l i st) = out st ++ pos /\
      min_written pos = [] /\ fp_written pos = [] /\ acc_written pos = [] /\
      history_written pos = [] /\ locm_written pos = [].
Proof.
  induction l as [|s l IH]; intros i st.
  - exists []. cbn. rewrite app_nil_r. repeat split; reflexivity.
  - cbn [write_poslow_loop].
    destruct (n_visit s =? 1)%Z.
    + destruct (n_poslow (settings st) <? i + 1 - 1)%Z.
      * exists [WritePoslow i (atoms s)]. repeat split; reflexivity.
      * destruct (IH (i + 1)%Z (emit (WritePoslow i (atoms s)) st))
          as (pos & E & P1 & P2 & P3 & P4 & P5).
        exists (WritePoslow i (atoms s) :: pos).
        rewrite E. cbn [emit set_out out]. rewrite <- app_assoc.
        repeat split; assumption.
    + destruct (n_poslow (settings st) <? i - 1)%Z.
      * exists []. cbn. rewrite app_nil_r. repeat split; reflexivity.
      * apply IH.
Qed.

Lemma update_data_out (st st' : State) :
  _update_data st = OK st' ->
  out st' = out st ++ (if tag_eqb (_acc_rej st) Accepted
                       then [WriteAcc (_atoms st)] else []) /\
  accepted_minima st' = accepted_minima st
                        ++ (if tag_eqb (_acc_rej st) Accepted then [_atoms st] else []).
Proof.
  unfold _update_data, get_fp. intros H.
  destruct (tag_eqb (_acc_rej st) Accepted);
    cbn [_fp emit set_out set_accepted_minima] in H;
    destruct (_fp st); cbn [bind] in H; try discriminate;
    injection H as <-;
    cbn [_atoms_alias set_all_minima set_accepted_minima set_out];
    match goal with
    | |- context [match _atoms_alias st with _ => _ end] =>
        destruct (_atoms_alias st);
        [match goal with |- context [if ?c then _ else _] => destruct c end|]
    end;
    cbn; rewrite ?app_nil_r; split; reflexivity.
Qed.

(** The events of the part of a hop that follows the escape. *)
Lemma hop_out (outcomes : list md_outcome) (st st' : State) :
  hop outcomes st = OK st' ->
  exists st1 st2 n fp pos line,
    _escape outcomes st = OK st1 /\
    _acc_rej_step st1 = OK st2 /\
    _in_history_fp (_hoplog st2) = OK n /\
    _fp st1 = Some fp /\
    out st'
    = out st1
      ++ (if (1 <? n)%Z then [] else [WriteMin (_atoms st1); WriteFp fp])
      ++ (if tag_eqb (_acc_rej st2) Accepted then [WriteAcc (_atoms st1)] else [])
      ++ pos ++ [WriteHistory line] /\
    (min_written pos = [] /\ fp_written pos = [] /\ acc_written pos = [] /\
     history_written pos = [] /\ locm_written pos = []) /\
    (h_energy line = get_potential_energy (_atoms st1) /\
     h_n_visits line = n /\ h_temperature line = _temperature st' /\
     h_Ediff line = _Ediff st' /\ h_tag line = _acc_rej st') /\
    _acc_rej st' = _acc_rej st2 /\
    accepted_minima st'
    = accepted_minima st1
      ++ (if tag_eqb (_acc_rej st2) Accepted then [_atoms st1] else []).
Proof.
  intros H.
  destruct (hop_steps _ _ _ H) as (st1 & st2 & n & st3 & st4 & H1 & H2 & H3 & H4 & H5 & ->).
  destruct (acc_rej_step_keeps _ _ H2)
    as (_ & A2 & _ & F2 & _ & _ & _ & _ & _ & M2 & _ & _ & _ & O2).
  destruct (adj_temperature_frame _ _ H4)
    as (_ & A3 & _ & _ & F3 & E3 & _ & _ & _ & M3 & _ & _ & V3 & R3).
  destruct (update_data_frame _ _ H5)
    as (_ & A4 & _ & _ & T4 & E4 & _ & _ & _ & _ & _ & _ & V4 & R4).
  destruct (write_poslow_frame st4)
    as (_ & A5 & _ & _ & _ & T5 & E5 & _ & _ & _ & _ & M5 & _ & _ & _ & _ & _ & _ & V5 & R5).
  destruct (update_data_insert _ _ H5) as (fp & Hfp3 & _).
  destruct (update_data_out _ _ H5) as (O4 & M4).
  destruct (write_poslow_loop_appends (all_minima_sorted st4) 0 st4)
    as (pos & O5 & P5).
  fold (_write_poslow st4) in O5.
  cbn [_fp set_n_visits _hoplog set_i_step] in F3.
  cbn [_atoms set_n_visits _hoplog set_i_step] in A3.
  cbn [_n_visits set_n_visits] in V3.
  cbn [_acc_rej set_n_visits _hoplog set_i_step] in R3.
  cbn [accepted_minima set_n_visits _hoplog set_i_step] in M3.
  assert (Hfp1 : _fp st1 = Some fp) by congruence.
  assert (O3 : out st3
               = out st1 ++ (if (1 <? n)%Z then []
                             else [WriteMin (_atoms st1); WriteFp fp])).
  { destruct (Z.ltb_spec 1 n) as [L|L].
    - rewrite adj_temperature_revisit in H4 by exact L.
      injection H4 as <-. cbn. rewrite app_nil_r. exact O2.
    - rewrite (adj_temperature_first_visit _ fp) in H4;
        [|cbn; congruence | exact L].
      injection H4 as <-. cbn. rewrite O2, A2, <- app_assoc. reflexivity. }
  exists st1, st2, n, fp, pos.
  eexists.
  split; [exact H1|]. split; [exact H2|]. split; [exact H3|].
  split; [exact Hfp1|].
  split.
  { cbn [out set_counter rebind_atoms set_atoms_alias set_atoms _history_log
         set_n_visits emit set_out].
    rewrite O5, O4, O3, ?R4, ?R3, ?A4, ?A3, ?A2, <- !app_assoc. reflexivity. }
  split; [exact P5|].
  cbn [h_energy h_n_visits h_temperature h_Ediff h_tag
       _temperature _Ediff _acc_rej accepted_minima
       out set_counter rebind_atoms set_atoms_alias set_atoms _history_log
       set_n_visits emit set_out].
  split.
  { repeat split; congruence. }
  split; [congruence|].
  rewrite M5, M4, M3, M2, ?R4, ?R3, ?A4, ?A3, ?A2. reflexivity.
Qed.


(** X10: what a hop appends to its files after the escape.  The escaped
    structure and its descriptor go to min.extxyz and fp.dat exactly when
    the novelty count is 1; the escaped structure goes to acc.extxyz exactly
    when the hop ends tagged Accepted; nothing more goes to locm.extxyz;
    and history.dat gets one line, which carries the energy of the escaped
    structure, the novelty count, the tag, and the temperature and the
    acceptance threshold as the hop leaves them. *)
Theorem hop_writes (outcomes : list md_outcome) (st st' : State) :
  hop outcomes st = OK st' ->
  exists st1 st2 n fp evs line,
    _escape outcomes st = OK st1 /\
    _acc_rej_step st1 = OK st2 /\
    _in_history_fp (_hoplog st2) = OK n /\
    _fp st1 = Some fp /\
    out st' = out st1 ++ evs /\
    min_written evs = (if (1 <? n)%Z then [] else [_atoms st1]) /\
    fp_written evs = (if (1 <? n)%Z then [] else [fp]) /\
    acc_written evs
    = (if tag_eqb (_acc_rej st') Accepted then [_atoms st1] else []) /\
    locm_written evs = [] /\
    history_written evs = [line] /\
    h_energy line = get_potential_energy (_atoms st1) /\
    h_n_visits line = n /\ h_tag line = _acc_rej st' /\
    h_temperature line = _temperature st' /\ h_Ediff line = _Ediff st'.
Proof.
  intros H.
  destruct (hop_out _ _ _ H)
    as (st1 & st2 & n & fp & pos & line & H1 & H2 & H3 & Hfp & O &
        (P1 & P2 & P3 & P4 & P5) & (L1 & L2 & L3 & L4 & L5) & R & _).
  exists st1, st2, n, fp.
  eexists. exists line.
  split; [exact H1|]. split; [exact H2|]. split; [exact H3|].
  split; [exact Hfp|]. split; [exact O|].
  rewrite !min_written_app, !fp_written_app, !acc_written_app,
    !locm_written_app, !history_written_app, P1, P2, P3, P4, P5, R.
  destruct (1 <? n)%Z; destruct (tag_eqb (_acc_rej st2) Accepted); cbn;
    repeat split; congruence.
Qed.

Lemma hop_writes_witness :
  exists st0 st' st1 evs line,
    hop [mkOutcome (structure (-1) 1) 0] st0 = OK st' /\
    _escape [mkOutcome (structure (-1) 1) 0] st0 = OK st1 /\
    out st' = out st1 ++ evs /\
    acc_written evs = [_atoms st1] /\
    history_written evs = [line] /\ h_tag line = Accepted /\
    h_Ediff line = 0.01 * 0.95.
Proof.
  destruct accepting_run as (st0 & st' & _ & H & Hacc & HE).
  destruct (hop_writes _ _ _ H)
    as (st1 & st2 & n & fp & evs & line & H1 & _ & _ & _ & O & _ & _ & A & _ &
        Hh & _ & _ & T & _ & E).
  rewrite Hacc in A, T. rewrite HE in E. cbn [tag_eqb] in A.
  exists st0, st', st1, evs, line. repeat split; assumption.
Defined.
(** * Start-up and restart: further properties *)

Lemma last_item_inv {A : Type} (l : list A) (x : A) :
  last_item l = OK x -> exists l', l = l' ++ [x].
Proof.
  unfold last_item. destruct (rev l) as [|y r] eqn:E; intros H; [discriminate|].
  injection H as ->. exists (rev r).
  rewrite <- (rev_involutive l), E. reflexivity.
Qed.

Lemma list_sort_length_aux (l a : list Minimum) :
  length (fold_left insort l a) = (length l + length a)%nat.
Proof.
  revert a. induction l as [|x l IH]; intros a; cbn [fold_left length]; [reflexivity|].
  rewrite IH. unfold insort, list_insert.
  rewrite length_app. cbn [length]. rewrite length_firstn, length_skipn.
  pose proof (bisect_le_length a x). lia.
Qed.

Lemma list_sort_length (l : list Minimum) : length (list_sort l) = length l.
Proof. unfold list_sort. rewrite list_sort_length_aux. cbn. lia. Qed.

Lemma insort_perm (a : list Minimum) (x : Minimum) :
  Permutation (insort a x) (x :: a).
Proof.
  unfold insort, list_insert. symmetry.
  rewrite <- (firstn_skipn (bisect a x) a) at 1.
  apply Permutation_middle.
Qed.

Lemma fold_insort_perm (l a : list Minimum) :
  Permutation (fold_left insort l a) (a ++ l).
Proof.
  revert a. induction l as [|x l IH]; intros a; cbn [fold_left].
  - now rewrite app_nil_r.
  - rewrite IH. rewrite insort_perm.
    change (x :: a) with ([x] ++ a). rewrite <- app_assoc.
    change (a ++ x :: l) with (a ++ [x] ++ l).
    rewrite !app_assoc. apply Permutation_app_tail. apply Permutation_app_comm.
Qed.

Lemma list_sort_perm (l : list Minimum) : Permutation (list_sort l) l.
Proof. unfold list_sort. apply (fold_insort_perm l []). Qed.

Lemma Forall_fold_insort (P : Minimum -> Prop) (l a : list Minimum) :
  Forall P l -> Forall P a -> Forall P (fold_left insort l a).
Proof.
  revert a. induction l as [|x l IH]; intros a Hl Ha; cbn [fold_left]; [exact Ha|].
  inversion Hl; subst. apply IH; [assumption|]. now apply Forall_insort.
Qed.

(** What the restart branch of [_startup] returns. *)
Lemma startup_restart_spec (fs : files) (opt : Atoms -> Atoms) (st st' : State) :
  startup_restart fs opt st = OK st' ->
  exists a line warns,
    last_item (if exists_acc fs then acc_extxyz fs
               else if restart_optim (settings st) then map opt (min_extxyz fs)
                    else min_extxyz fs) = OK a /\
    last_item (history_dat fs) = OK line /\
    _temperature st' = fst line /\ _Ediff st' = snd line /\
    (start_lowest (settings st) = false ->
     _atoms st' = if restart_optim (settings st) then opt a else a) /\
    (start_lowest (settings st) = true ->
     exists m l, all_minima_sorted st' = m :: l /\ _atoms st' = atoms m) /\
    length (all_minima_sorted st') = length (min_extxyz fs) /\
    length (all_minima st') = length (min_extxyz fs) /\
    Forall (fun m => n_visit m = 1%Z) (all_minima_sorted st') /\
    Permutation (all_minima_sorted st') (all_minima st') /\
    out st' = out st ++ map Warn warns /\
    settings st' = settings st /\ _counter st' = _counter st /\
    _n_min st' = _n_min st /\ _n_same st' = _n_same st /\
    _n_unique st' = _n_unique st /\ _n_notunique st' = _n_notunique st /\
    _i_step st' = _i_step st /\
    intermediate_minima st' = intermediate_minima st /\
    unique_minima st' = unique_minima st /\
    accepted_minima st' = accepted_minima st.
Proof.
  unfold startup_restart. intros H.
  apply bind_ok in H. destruct H as [s1 [H1 H]].
  apply bind_ok in H. destruct H as [s2 [H2 H]].
  apply bind_ok in H. destruct H as [s3 [H3 H]].
  apply bind_ok in H. destruct H as [line [Hl H]].
  injection H as <-.
  assert (E1 : exists a w1,
            last_item (if exists_acc fs then acc_extxyz fs
                       else if restart_optim (settings st) then map opt (min_extxyz fs)
                            else min_extxyz fs) = OK a /\
            s1 = set_atoms a (set_out (out st ++ map Warn w1) st)).
  { destruct (exists_acc fs).
    - apply bind_ok in H1. destruct H1 as [a [Ha H1]]. injection H1 as <-.
      exists a, []. split; [exact Ha|]. cbn [map]. rewrite app_nil_r.
      destruct st; reflexivity.
    - apply bind_ok in H1. destruct H1 as [a [Ha H1]]. injection H1 as <-.
      exists a, ["No previous accepted minima detected restart at last found minimum"].
      split; [exact Ha | reflexivity]. }
  destruct E1 as (a & w1 & Ha & ->).
  assert (E2 : exists records w2,
            length records = length (min_extxyz fs) /\
            Forall (fun m => n_visit m = 1%Z) records /\
            s2 = set_all_minima_sorted records
                   (set_all_minima records
                      (set_out (out st ++ map Warn (w1 ++ w2))
                         (set_atoms a st)))).
  { destruct (negb (exists_fp fs && negb (restart_optim (settings st)))).
    - injection H2 as <-.
      eexists. exists ["Fingerprints all recalculated for all found minima"].
      split; [|split; [|rewrite map_app, app_assoc; reflexivity]].
      + rewrite length_map. destruct (restart_optim (settings st));
          [apply length_map | reflexivity].
      + apply Forall_forall. intros m Hm. apply in_map_iff in Hm.
        destruct Hm as (x & <- & _). reflexivity.
    - apply bind_ok in H2. destruct H2 as [u [Hu H2]]. injection H2 as <-.
      unfold py_assert in Hu.
      destruct (Nat.eqb_spec (length (fp_dat fs)) (length (min_extxyz fs)))
        as [E|E]; [|discriminate].
      eexists. exists [].
      split; [|split; [|rewrite app_nil_r; reflexivity]].
      + rewrite length_map, length_combine. lia.
      + apply Forall_forall. intros m Hm. apply in_map_iff in Hm.
        destruct Hm as (x & <- & _). reflexivity. }
  destruct E2 as (records & w2 & Hlen & Hvis & ->).
  cbn [settings set_all_minima_sorted set_all_minima set_out set_atoms
       all_minima_sorted _atoms] in H3.
  exists a, line, (w1 ++ w2).
  split; [exact Ha|]. split; [exact Hl|].
  assert (Hsorted_len : length (list_sort records) = length (min_extxyz fs))
    by (rewrite list_sort_length; exact Hlen).
  assert (Hsorted_vis : Forall (fun m => n_visit m = 1%Z) (list_sort records))
    by (unfold list_sort; apply Forall_fold_insort; [exact Hvis | constructor]).
  pose proof (list_sort_perm records) as Hperm.
  destruct (restart_optim (settings st)) eqn:Eo;
    cbn [settings set_all_minima_sorted set_all_minima set_out set_atoms
         all_minima_sorted _atoms] in H3;
    destruct (start_lowest (settings st)) eqn:El;
    try (destruct (list_sort records) as [|m l] eqn:Em; [discriminate|]);
    injection H3 as <-; cbn;
    repeat split; try reflexivity; try (intros; discriminate); try assumption;
    intros _; eexists; eexists; split; reflexivity.
Qed.

(** What [_startup] returns in the fields that both branches set, and what
    it appends to its files. *)
Lemma startup_spec (fs : files) (opt : Atoms -> Atoms) (st st0 : State) :
  _startup fs opt st = OK st0 ->
  settings st0 = settings st /\ _counter st0 = _counter st /\
  _i_step st0 = 0%Z /\ _n_min st0 = 1%Z /\ _n_same st0 = 0%Z /\
  _n_unique st0 = 0%Z /\ _n_notunique st0 = 0%Z /\
  intermediate_minima st0 = [] /\ unique_minima st0 = [] /\
  accepted_minima st0 = [] /\ _atoms_cur st0 = _atoms st0 /\
  _acc_rej st0 = Initial /\
  exists evs line,
    out st0 = out st ++ evs ++ [WriteHistory line] /\
    h_tag line = Initial /\ h_n_visits line = 1%Z /\
    h_energy line = get_potential_energy (_atoms st0) /\
    h_temperature line = _temperature st0 /\ h_Ediff line = _Ediff st0 /\
    (if is_restart fs (settings st)
     then exists warns, evs = map Warn warns
     else evs = [WriteAcc (_atoms st0)] /\ _atoms st0 = opt (_atoms st)).
Proof.
  unfold _startup. intros H.
  apply bind_ok in H. destruct H as [r [Hr H]].
  apply bind_ok in H. destruct H as [s [Hs H]].
  injection H as <-.
  cbn [settings set_n_same set_n_notunique set_n_unique set_n_min
    set_i_step set_intermediate_minima set_accepted_minima set_unique_minima
    set_atoms_alias set_all_minima_sorted set_all_minima] in Hr.
  assert (Er : r = is_restart fs (settings st)).
  { unfold is_restart. destruct (exists_min fs && exists_history fs).
    - injection Hr as <-. destruct (new_start (settings st)); reflexivity.
    - apply bind_ok in Hr. destruct Hr as [u [_ Hr]]. now injection Hr as <-. }
  rewrite <- Er. clear Er Hr.
  destruct r.
  - apply startup_restart_spec in Hs.
    destruct Hs as (a & line & warns & _ & _ & _ & _ & _ & _ & _ & _ & _ & _ &
                    O & S1 & S2 & S3 & S4 & S5 & S6 & S7 & S8 & S9 & S10).
    cbn in O, S1, S2, S3, S4, S5, S6, S7, S8, S9, S10.
    unfold _history_log, emit. cbn.
    repeat split; try assumption.
    eexists. eexists. rewrite O, <- app_assoc.
    split; [reflexivity|]. repeat split. now exists warns.
  - injection Hs as <-. unfold _history_log, emit. cbn.
    repeat split.
    eexists. eexists. rewrite <- app_assoc.
    split; [reflexivity|]. repeat split.
Qed.

Lemma map_restart_record_combine (fps : list ndarray) (structures : list Atoms) :
  length fps = length structures ->
  map atoms (map (fun p => restart_record (fst p) (snd p)) (combine fps structures))
  = structures /\
  map fingerprint (map (fun p => restart_record (fst p) (snd p)) (combine fps structures))
  = fps.
Proof.
  revert structures. induction fps as [|fp fps IH]; intros [|a l] H; try discriminate.
  - split; reflexivity.
  - injection H as H. destruct (IH l H) as [E1 E2]. cbn. rewrite E1, E2.
    split; reflexivity.
Qed.

(** The records that the restart branch of [_startup] builds. *)
Lemma startup_restart_records (fs : files) (opt : Atoms -> Atoms) (st st' : State) :
  startup_restart fs opt st = OK st' ->
  map atoms (all_minima st')
  = (if restart_optim (settings st) then map opt (min_extxyz fs) else min_extxyz fs) /\
  map fingerprint (all_minima st')
  = (if exists_fp fs && negb (restart_optim (settings st)) then fp_dat fs
     else map omfp (if restart_optim (settings st) then map opt (min_extxyz fs)
                    else min_extxyz fs)) /\
  Forall (fun m => n_visit m = 1%Z /\ T m = -100 /\ ediff m = -10 /\ acc_rej m = NA)
         (all_minima st') /\
  all_minima_sorted st' = list_sort (all_minima st').
Proof.
  unfold startup_restart. intros H.
  apply bind_ok in H. destruct H as [s1 [H1 H]].
  apply bind_ok in H. destruct H as [s2 [H2 H]].
  apply bind_ok in H. destruct H as [s3 [H3 H]].
  apply bind_ok in H. destruct H as [line [Hl H]].
  injection H as <-.
  assert (E1 : settings s1 = settings st).
  { destruct (exists_acc fs);
      apply bind_ok in H1; destruct H1 as [a [_ H1]]; injection H1 as <-; reflexivity. }
  clear H1.
  set (structures := if restart_optim (settings st) then map opt (min_extxyz fs)
                     else min_extxyz fs) in *.
  assert (E2 : exists records,
            map atoms records = structures /\
            map fingerprint records
            = (if exists_fp fs && negb (restart_optim (settings st)) then fp_dat fs
               else map omfp structures) /\
            Forall (fun m => n_visit m = 1%Z /\ T m = -100 /\ ediff m = -10
                             /\ acc_rej m = NA) records /\
            all_minima s2 = records /\ all_minima_sorted s2 = records /\
            settings s2 = settings st /\
            forall a, all_minima (set_atoms a s2) = records /\
                      all_minima_sorted (set_atoms a s2) = records).
  { destruct (exists_fp fs && negb (restart_optim (settings st))) eqn:Ef;
      cbn [negb] in H2.
    - apply bind_ok in H2. destruct H2 as [u [Hu H2]]. injection H2 as <-.
      unfold py_assert in Hu.
      destruct (Nat.eqb_spec (length (fp_dat fs)) (length (min_extxyz fs)))
        as [E|E]; [|discriminate].
      assert (Eo : restart_optim (settings st) = false).
      { destruct (restart_optim (settings st)); [|reflexivity].
        now rewrite andb_false_r in Ef. }
      destruct (map_restart_record_combine (fp_dat fs) (min_extxyz fs) E) as [M1 M2].
      exists (map (fun p => restart_record (fst p) (snd p))
                  (combine (fp_dat fs) (min_extxyz fs))).
      split; [|split; [|split; [|split; [|split; [|split]]]]].
      + unfold structures. rewrite Eo. exact M1.
      + exact M2.
      + apply Forall_forall. intros m Hm. apply in_map_iff in Hm.
        destruct Hm as (x & <- & _). repeat split.
      + destruct s1; reflexivity.
      + destruct s1; reflexivity.
      + destruct s1; exact E1.
      + intros a. destruct s1; split; reflexivity.
    - injection H2 as <-.
      exists (map (fun atom => restart_record (_get_OMFP atom) atom) structures).
      split; [|split; [|split; [|split; [|split; [|split]]]]].
      + rewrite map_map. cbn [restart_record atoms]. apply map_id.
      + rewrite map_map. cbn [restart_record fingerprint]. reflexivity.
      + apply Forall_forall. intros m Hm. apply in_map_iff in Hm.
        destruct Hm as (x & <- & _). repeat split.
      + destruct s1; reflexivity.
      + destruct s1; reflexivity.
      + destruct s1; exact E1.
      + intros a. destruct s1; split; reflexivity. }
  destruct E2 as (records & M1 & M2 & F & A1 & A2 & S2 & A3).
  assert (E3 : all_minima s3 = records /\ all_minima_sorted s3 = list_sort records).
  { remember (if restart_optim (settings s2)
              then set_atoms (opt (_atoms s2)) s2 else s2) as s2a eqn:Ea.
    assert (Ha : all_minima s2a = records /\ all_minima_sorted s2a = records).
    { subst s2a. destruct (restart_optim (settings s2)); [apply A3 | now split]. }
    destruct Ha as [Ha1 Ha2]. clear Ea.
    remember (set_all_minima_sorted (list_sort (all_minima_sorted s2a)) s2a)
      as s2b eqn:Eb.
    assert (Hb : all_minima s2b = records /\ all_minima_sorted s2b = list_sort records).
    { subst s2b. rewrite Ha2. destruct s2a; cbn in *. now split. }
    destruct Hb as [Hb1 Hb2]. clear Eb.
    destruct (start_lowest (settings s2b)).
    - destruct (all_minima_sorted s2b) as [|m l] eqn:Em; [discriminate|].
      injection H3 as <-. rewrite <- Hb2, <- Hb1. destruct s2b; cbn in *.
      now split.
    - injection H3 as <-. now split. }
  destruct E3 as [B1 B2]. cbn. rewrite B1, B2.
  repeat split; assumption.
Qed.


(** X11: a restart resumes from the files and not from the arguments of the
    constructor.  The temperature and the acceptance threshold are those of
    the last line of history.dat (so that file has a line), not [T0] and
    [Ediff0].  Without [start_lowest] the working structure is the last
    structure of acc.extxyz or, when there is no acc.extxyz, the last of the
    structures of min.extxyz as the run holds them (optimised under
    [restart_optim]), optimised once more under [restart_optim]; with
    [start_lowest] it is the structure of the first record of the sorted
    archive.  The current structure is the working structure.  The log
    [all_minima] holds one record for every structure of min.extxyz, in the
    order of the file: its structure is the one read (optimised under
    [restart_optim]), its fingerprint is the entry of fp.dat at the same
    position when fp.dat exists and [restart_optim] is off and the
    fingerprint computed for the structure otherwise, its visit count is 1
    and its other fields are the placeholders -100, -10 and 'NA'.  The
    sorted archive holds the same records, ordered by energy. *)
Theorem restart_resumes_from_files (fs : files) (opt : Atoms -> Atoms)
  (st st0 : State) :
  is_restart fs (settings st) = true ->
  _startup fs opt st = OK st0 ->
  exists a line,
    last_item (history_dat fs) = OK line /\
    _temperature st0 = fst line /\ _Ediff st0 = snd line /\
    last_item (if exists_acc fs then acc_extxyz fs
               else if restart_optim (settings st) then map opt (min_extxyz fs)
                    else min_extxyz fs) = OK a /\
    (start_lowest (settings st) = false ->
     _atoms st0 = if restart_optim (settings st) then opt a else a) /\
    (start_lowest (settings st) = true ->
     exists m l, all_minima_sorted st0 = m :: l /\ _atoms st0 = atoms m) /\
    _atoms_cur st0 = _atoms st0 /\
    length (all_minima_sorted st0) = length (min_extxyz fs) /\
    length (all_minima st0) = length (min_extxyz fs) /\
    Forall (fun m => n_visit m = 1%Z) (all_minima_sorted st0) /\
    map atoms (all_minima st0)
    = (if restart_optim (settings st) then map opt (min_extxyz fs)
       else min_extxyz fs) /\
    map fingerprint (all_minima st0)
    = (if exists_fp fs && negb (restart_optim (settings st)) then fp_dat fs
       else map omfp (if restart_optim (settings st) then map opt (min_extxyz fs)
                      else min_extxyz fs)) /\
    Forall (fun m => n_visit m = 1%Z /\ T m = -100 /\ ediff m = -10 /\ acc_rej m = NA)
           (all_minima st0) /\
    Permutation (all_minima_sorted st0) (all_minima st0) /\
    sorted_by_energy (all_minima_sorted st0).
Proof.
  unfold _startup. intros Hr H.
  apply bind_ok in H. destruct H as [r [Hr' H]].
  apply bind_ok in H. destruct H as [s [Hs H]].
  injection H as <-.
  cbn [settings set_n_same set_n_notunique set_n_unique set_n_min
    set_i_step set_intermediate_minima set_accepted_minima set_unique_minima
    set_atoms_alias set_all_minima_sorted set_all_minima] in Hr'.
  assert (Er : r = true).
  { unfold is_restart in Hr.
    destruct (exists_min fs && exists_history fs); [|discriminate].
    injection Hr' as <-. cbn in Hr. now destruct (new_start (settings st)). }
  subst r.
  pose proof (startup_restart_records _ _ _ _ Hs) as (R1 & R2 & R3 & R4).
  apply startup_restart_spec in Hs.
  destruct Hs as (a & line & warns & Ha & Hl & T1 & E1 & A1 & A2 & L1 & L2 & V & _).
  cbn in Ha, A1, A2, R1, R2.
  assert (Hp : Permutation (all_minima_sorted s) (all_minima s))
    by (rewrite R4; apply list_sort_perm).
  assert (Hsrt : sorted_by_energy (all_minima_sorted s))
    by (rewrite R4; apply list_sort_sorted).
  exists a, line. unfold _history_log, emit. cbn.
  repeat split; assumption.
Qed.

Lemma restart_resumes_from_files_witness :
  exists st0,
    _startup two_minima identity_opt restarted_state = OK st0 /\
    _temperature st0 = 2000 /\ _Ediff st0 = 0.01 /\
    map atoms (all_minima st0) = [structure 1 1; structure 2 2] /\
    map fingerprint (all_minima st0) = [Vec [1]; Vec [2]] /\
    sorted_by_energy (all_minima_sorted st0).
Proof.
  destruct lowest_restart as (st0 & H0 & _).
  destruct (restart_resumes_from_files two_minima identity_opt restarted_state st0
              eq_refl H0)
    as (a & line & Hl & T1 & E1 & _ & _ & _ & _ & _ & _ & _ & M1 & M2 & _ & _ & S).
  injection Hl as <-.
  exists st0. repeat split; assumption.
Defined.

(** ** The restart check of file_handling.py *)

(** X12: [restart] answers True exactly when the output directory and the
    restart directory both existed and the restart directory holds
    params.json together with the database file (for the master; either of
    its two names) or poscur.extxyz (for a worker).  A refusal is silent
    only when there was no output directory; otherwise it comes with one or
    two warnings. *)
Theorem restart_decision (d : restart_files) (restart_path : string)
  (is_master : bool) :
  (fst (restart d restart_path is_master) = true <->
   exists_outpath d = true /\ exists_restart_path d = true /\
   exists_params d = true /\
   (if is_master then exists_database d || exists_database_dat d
    else exists_poscur d) = true) /\
  (snd (restart d restart_path is_master) = [] <->
   fst (restart d restart_path is_master) = true \/ exists_outpath d = false) /\
  (length (snd (restart d restart_path is_master)) <= 2)%nat.
Proof.
  destruct d as [o r db dbd pc pa].
  unfold restart, checkfiles.
  cbn [exists_outpath exists_restart_path exists_database exists_database_dat
       exists_poscur exists_params].
  destruct is_master, o, r, db, dbd, pc, pa; cbn;
    (split; [|split]); try lia;
    (split; [intros H | intros H]);
    try discriminate; try reflexivity;
    try (repeat split; reflexivity);
    try (destruct H as (? & ? & ? & ?); discriminate);
    try (left; reflexivity); try (right; reflexivity);
    try (destruct H; discriminate).
Qed.
(** * The run driver: further properties *)

(** A property that every hop keeps, and that the exit messages do not
    disturb, holds when the loop of [__call__] returns. *)
Lemma call_loop_invariant (P : State -> Prop) (w : world) (totalsteps : Z) :
  (forall outcomes st st', P st -> hop outcomes st = OK st' -> P st') ->
  (forall st n, P st -> P (emit (PrintTimeOver n) st)) ->
  (forall st n d h m s, P st -> P (emit (PrintTerminated n d h m s) st)) ->
  forall fuel st st',
    P st -> call_loop fuel w totalsteps st = Some (OK st') -> P st'.
Proof.
  intros Hhop Hover Hterm.
  induction fuel as [|fuel IH]; intros st st' HP H; cbn [call_loop] in H.
  - destruct (_counter st <=? totalsteps)%Z; [discriminate|].
    injection H as <-. unfold print_summary. apply Hterm. exact HP.
  - destruct (_counter st <=? totalsteps)%Z.
    + destruct (hop (outcomes_of w (_counter st)) st) as [s|e] eqn:E; [|discriminate].
      pose proof (Hhop _ _ _ HP E) as HP'.
      destruct (run_time (settings s)) as [t|].
      * destruct (Rltb _ _).
        -- injection H as <-. apply Hover. exact HP'.
        -- eapply IH; eassumption.
      * eapply IH; eassumption.
    + injection H as <-. unfold print_summary. apply Hterm. exact HP.
Qed.

(** The loop of [__call__] ends: the fuel given by [__call__] is enough. *)
Lemma call_loop_ends (w : world) (totalsteps : Z) :
  forall fuel st,
    (totalsteps + 1 - _counter st <= Z.of_nat fuel)%Z ->
    call_loop fuel w totalsteps st <> None.
Proof.
  induction fuel as [|fuel IH]; intros st Hf; cbn [call_loop].
  - destruct (Z.leb_spec (_counter st) totalsteps); [lia | discriminate].
  - destruct (Z.leb_spec (_counter st) totalsteps); [|discriminate].
    destruct (hop (outcomes_of w (_counter st)) st) as [s|e] eqn:E; [|discriminate].
    pose proof (hop_counters _ _ _ E) as (_ & C & _).
    destruct (run_time (settings s)) as [t|].
    + destruct (Rltb _ _); [discriminate|]. apply IH. lia.
    + apply IH. lia.
Qed.

(** How the loop of [__call__] is left, and after how many hops. *)
Lemma call_loop_exit (w : world) (totalsteps : Z) :
  forall fuel st st',
    call_loop fuel w totalsteps st = Some (OK st') ->
    exists s,
      (_i_step s - _i_step st = _counter s - _counter st)%Z /\
      (_counter st <= _counter s)%Z /\
      settings s = settings st /\
      ((st' = print_summary totalsteps (elapsed_at_exit w) s /\
        (totalsteps < _counter s)%Z /\
        (_counter st <= totalsteps -> _counter s = totalsteps + 1)%Z /\
        (totalsteps < _counter st -> s = st)%Z) \/
       (st' = emit (PrintTimeOver (_counter s)) s /\
        (_counter st < _counter s <= totalsteps + 1)%Z /\
        run_time (settings st) <> None)).
Proof.
  induction fuel as [|fuel IH]; intros st st' H; cbn [call_loop] in H.
  - destruct (Z.leb_spec (_counter st) totalsteps); [discriminate|].
    injection H as <-. exists st.
    split; [lia|]. split; [lia|]. split; [reflexivity|].
    left. split; [reflexivity|]. split; [lia|]. split; [lia|]. reflexivity.
  - destruct (Z.leb_spec (_counter st) totalsteps) as [L|L].
    + destruct (hop (outcomes_of w (_counter st)) st) as [s|e] eqn:E; [|discriminate].
      pose proof (hop_counters _ _ _ E) as (S1 & C & I).
      assert (Hrec : call_loop fuel w totalsteps s = Some (OK st') ->
                exists s0,
                  (_i_step s0 - _i_step st = _counter s0 - _counter st)%Z /\
                  (_counter st <= _counter s0)%Z /\
                  settings s0 = settings st /\
                  ((st' = print_summary totalsteps (elapsed_at_exit w) s0 /\
                    (totalsteps < _counter s0)%Z /\
                    (_counter st <= totalsteps -> _counter s0 = totalsteps + 1)%Z /\
                    (totalsteps < _counter st -> s0 = st)%Z) \/
                   (st' = emit (PrintTimeOver (_counter s0)) s0 /\
                    (_counter st < _counter s0 <= totalsteps + 1)%Z /\
                    run_time (settings st) <> None))).
      { intros H'. apply IH in H'.
        destruct H' as (s0 & J1 & J2 & J3 & J).
        exists s0. split; [lia|]. split; [lia|]. split; [congruence|].
        destruct J as [(-> & K1 & K2 & K3)|(-> & K1 & K2)].
        - left. split; [reflexivity|]. split; [exact K1|]. split; [|lia].
          intros _. destruct (Z.le_gt_cases (_counter s) totalsteps) as [L'|L'].
          + apply K2. exact L'.
          + rewrite (K3 L'). lia.
        - right. split; [reflexivity|]. split; [lia|]. congruence. }
      destruct (run_time (settings s)) as [t|] eqn:Et.
      * destruct (Rltb _ _).
        -- injection H as <-. exists s. split; [lia|]. split; [lia|].
           split; [exact S1|]. right. split; [reflexivity|]. split; [lia|].
           rewrite <- S1, Et. discriminate.
        -- apply Hrec. exact H.
      * apply Hrec. exact H.
    + injection H as <-. exists st.
      split; [lia|]. split; [lia|]. split; [reflexivity|].
      left. split; [reflexivity|]. split; [lia|]. split; [lia|]. reflexivity.
Qed.

(** X13: the run driver always leaves its loop, and the step count that it
    prints on a budget exit is one short.  From a fresh object (counter 0)
    and a budget [totalsteps >= 0], a run that returns has either used up
    the step budget, after [totalsteps + 1] hops, and printed "Run
    terminated after [totalsteps] steps", or it has run out of time after
    some [n] hops with [1 <= n <= totalsteps + 1] and printed that count
    [n]; the time is looked at after a hop only, so a run with a time
    budget makes at least one hop. *)
Theorem driver_exit (fs : files) (opt : Atoms -> Atoms) (w : world)
  (totalsteps : Z) (st : State) :
  __call__ fs opt w totalsteps st <> None /\
  (forall st',
     _counter st = 0%Z -> (0 <= totalsteps)%Z ->
     __call__ fs opt w totalsteps st = Some (OK st') ->
     (exists prefix d h m s,
        out st' = prefix ++ [PrintTerminated totalsteps d h m s] /\
        _i_step st' = (totalsteps + 1)%Z /\ _counter st' = (totalsteps + 1)%Z) \/
     (exists prefix,
        out st' = prefix ++ [PrintTimeOver (_i_step st')] /\
        (1 <= _i_step st' <= totalsteps + 1)%Z /\ _counter st' = _i_step st' /\
        run_time (settings st) <> None)).
Proof.
  split.
  - unfold __call__. destruct (_startup fs opt st) as [st0|e]; [|discriminate].
    apply call_loop_ends. lia.
  - intros st' Hc Ht H. unfold __call__ in H.
    destruct (_startup fs opt st) as [st0|e] eqn:E0; [|discriminate].
    destruct (startup_spec _ _ _ _ E0) as (S1 & S2 & S3 & _).
    apply call_loop_exit in H.
    destruct H as (s & J1 & J2 & J3 & [(-> & K1 & K2 & _)|(-> & K1 & K2)]).
    + left. destruct (print_summary_out totalsteps (elapsed_at_exit w) s)
        as (d & h & m & x & O).
      exists (out s), d, h, m, x. split; [exact O|].
      unfold print_summary, emit. cbn [_i_step _counter set_out].
      split; lia.
    + right. exists (out s). unfold emit. cbn [out _i_step _counter set_out].
      assert (_i_step s = _counter s) by lia.
      split; [congruence|]. split; [lia|]. split; [congruence|].
      congruence.
Qed.

(** The run of [rejecting_world] under a budget of one step returns. *)
Lemma rejecting_call :
  exists st',
    __call__ no_files identity_opt rejecting_world 1 fresh_state = Some (OK st').
Proof.
  destruct rejecting_run as
    (st0 & st1 & st2 & s1 & s2 & H0 & S1 & S2 & S3 & _ & H1 & T1 & _ & _ & _ & _ & _ & H2).
  pose proof (hop_counters _ _ _ H1) as (_ & C1 & _).
  assert (Hh : hops_return rejecting_world 2 st0).
  { cbn [hops_return]. exists st1. split.
    - rewrite S2. exact H1.
    - exists st2. split; [|exact I]. rewrite C1, S2. exact H2. }
  destruct (call_loop_unbounded rejecting_world 1 2 st0) as (st' & Hl & _).
  { rewrite S1. reflexivity. }
  { rewrite S2. reflexivity. }
  { exact Hh. }
  eexists. unfold __call__. rewrite H0, S2. exact Hl.
Qed.

Lemma driver_exit_witness :
  exists st',
    __call__ no_files identity_opt rejecting_world 1 fresh_state = Some (OK st') /\
    ((exists prefix d h m s,
        out st' = prefix ++ [PrintTerminated 1 d h m s] /\
        _i_step st' = 2%Z /\ _counter st' = 2%Z) \/
     (exists prefix,
        out st' = prefix ++ [PrintTimeOver (_i_step st')] /\
        (1 <= _i_step st' <= 2)%Z /\ _counter st' = _i_step st' /\
        run_time (settings fresh_state) <> None)).
Proof.
  destruct rejecting_call as (st' & H).
  exists st'. split; [exact H|].
  apply (proj2 (driver_exit no_files identity_opt rejecting_world 1 fresh_state) st');
    [reflexivity | lia | exact H].
Defined.

(** X14: the hop counter belongs to the object and start-up does not reset
    it.  After a run that used up its step budget, calling the driver again
    with the same budget or a smaller one goes through start-up and leaves
    at once: no hop is made. *)
Theorem second_call_makes_no_hop (fs fs' : files) (opt : Atoms -> Atoms)
  (w w' : world) (totalsteps totalsteps' : Z) (st st1 st2 : State) :
  _counter st = 0%Z -> (0 <= totalsteps)%Z -> run_time (settings st) = None ->
  __call__ fs opt w totalsteps st = Some (OK st1) ->
  (totalsteps' <= totalsteps)%Z ->
  _startup fs' opt st1 = OK st2 ->
  __call__ fs' opt w' totalsteps' st1
  = Some (OK (print_summary totalsteps' (elapsed_at_exit w') st2)) /\
  _i_step st2 = 0%Z /\ _counter st2 = (totalsteps + 1)%Z.
Proof.
  intros Hc Ht Hrun H Hle H2. unfold __call__ in H.
  destruct (_startup fs opt st) as [st0|e] eqn:E0; [|discriminate].
  destruct (startup_spec _ _ _ _ E0) as (S1 & S2 & _).
  apply call_loop_exit in H.
  destruct H as (s & _ & _ & J3 & [(-> & K1 & K2 & _)|(_ & _ & K)]);
    [|rewrite S1 in K; contradiction].
  destruct (startup_spec _ _ _ _ H2) as (_ & C2 & I2 & _).
  unfold print_summary, emit in C2. cbn [_counter set_out] in C2.
  assert (Hc2 : _counter st2 = (totalsteps + 1)%Z) by lia.
  split; [|split; [exact I2 | exact Hc2]].
  unfold __call__. rewrite H2.
  replace (Z.to_nat (totalsteps' + 1 - _counter st2)) with 0%nat by lia.
  cbn [call_loop].
  destruct (Z.leb_spec (_counter st2) totalsteps'); [lia | reflexivity].
Qed.

Lemma second_call_makes_no_hop_witness :
  exists st1 st2,
    __call__ no_files identity_opt rejecting_world 1 fresh_state = Some (OK st1) /\
    __call__ no_files identity_opt rejecting_world 1 st1
    = Some (OK (print_summary 1 0 st2)) /\
    _i_step st2 = 0%Z /\ _counter st2 = 2%Z.
Proof.
  destruct rejecting_call as (st1 & H).
  destruct (startup_fresh_returns no_files identity_opt st1) as (st2 & H2);
    try reflexivity.
  exists st1, st2. split; [exact H|].
  apply (second_call_makes_no_hop no_files no_files identity_opt
           rejecting_world rejecting_world 1 1 fresh_state st1 st2);
    try reflexivity; try lia; assumption.
Defined.

(** ** Invariants of a run *)

Lemma escape_cycle_quiet (i : Z) (o : md_outcome) (st : State) :
  exists evs,
    out (escape_cycle i o st) = out st ++ evs /\
    min_written evs = [] /\ fp_written evs = [] /\ acc_written evs = [].
Proof.
  unfold escape_cycle, _check_energy_threshold, mutate_atoms, _history_log, emit.
  destruct (0 <? i)%Z; cbn [settings _atoms _atoms_alias out set_n_same
    set_acc_rej set_out set_n_visits set_temperature
    set_atoms set_all_minima_sorted set_fp set_n_min];
  destruct (_atoms_alias st);
  cbn [settings _atoms _atoms_alias out set_n_same set_acc_rej set_out
    set_n_visits set_temperature set_atoms set_all_minima_sorted set_fp
    set_n_min energy_threshold];
  destruct (Rltb (energy_threshold (settings st)) (noise o));
  cbn [settings _atoms _atoms_alias out set_n_same set_acc_rej set_out
    set_n_visits set_temperature set_atoms set_all_minima_sorted set_fp set_n_min];
  rewrite <- ?app_assoc; eexists; (split; [reflexivity|]);
  repeat split; reflexivity.
Qed.

Lemma escape_loop_quiet (outcomes : list md_outcome) (fp_in : ndarray) (e_in : R) :
  forall esc esc_e i st st',
    escape_loop outcomes fp_in e_in esc esc_e i st = OK st' ->
    exists evs,
      out st' = out st ++ evs /\
      min_written evs = [] /\ fp_written evs = [] /\ acc_written evs = [].
Proof.
  induction outcomes as [|o rest IH]; intros esc esc_e i st st' H.
  - cbn [escape_loop] in H. destruct (_ || _); [discriminate|].
    injection H as <-. exists []. rewrite app_nil_r. repeat split; reflexivity.
  - rewrite escape_loop_step in H. destruct (_ || _).
    + bind_inv H. apply IH in H. destruct H as (evs & O & Q1 & Q2 & Q3).
      destruct (escape_cycle_quiet i o st) as (evs0 & O0 & P1 & P2 & P3).
      exists (evs0 ++ evs). rewrite O, O0, app_assoc.
      rewrite min_written_app, fp_written_app, acc_written_app,
        P1, P2, P3, Q1, Q2, Q3.
      repeat split; reflexivity.
    + injection H as <-. exists []. rewrite app_nil_r. repeat split; reflexivity.
Qed.

Lemma escape_quiet (outcomes : list md_outcome) (st st' : State) :
  _escape outcomes st = OK st' ->
  exists evs,
    out st' = out st ++ evs /\
    min_written evs = [] /\ fp_written evs = [] /\ acc_written evs = [].
Proof.
  unfold _escape. intros H. bind_inv H. injection H as <-.
  apply escape_loop_quiet in Hx. destruct Hx as (evs & O & Q1 & Q2 & Q3).
  eexists (evs ++ [_]). unfold _history_log, emit.
  cbn [out set_n_visits set_out set_acc_rej set_intermediate_minima].
  rewrite O, app_assoc. split; [reflexivity|].
  rewrite min_written_app, fp_written_app, acc_written_app, Q1, Q2, Q3.
  repeat split; reflexivity.
Qed.

(** What an escape does to the counters, and the fingerprint it leaves. *)
Lemma escape_counts (outcomes : list md_outcome) (st st' : State) :
  0 < minima_threshold (settings st) \/ 0 < energy_threshold (settings st) ->
  _escape outcomes st = OK st' ->
  exists k,
    (1 <= k)%Z /\ _n_min st' = (_n_min st + k)%Z /\
    _n_same st' = (_n_same st + (k - 1))%Z /\
    _fp st' = Some (omfp (_atoms st')).
Proof.
  intros Hthr H. unfold _escape in H. bind_inv H. injection H as <-.
  apply escape_loop_cycles in Hx; [|lia].
  destruct Hx as (k & evs & Hk & S1 & S2 & S3 & S4 & S5 & S6 & S7 & S8).
  cbn [Z.ltb Z.compare] in S3.
  destruct k as [|k'].
  { destruct S8 as [_ S8]. rewrite (escape_starts st Hthr) in S8. discriminate. }
  destruct S8 as (o & d & _ & N2 & N3 & _).
  exists (Z.of_nat (S k')). unfold _history_log, emit.
  cbn [_atoms _fp _n_min _n_same set_n_visits set_out set_acc_rej
       set_intermediate_minima].
  split; [lia|]. split; [exact S2|]. split; [rewrite S3; lia|].
  rewrite N2. exact N3.
Qed.

Lemma acc_rej_fold_counts (e_cur : R) (l : list Atoms) :
  forall st,
    _n_min (fold_left (acc_rej_body e_cur) l st) = _n_min st /\
    _n_same (fold_left (acc_rej_body e_cur) l st) = _n_same st.
Proof.
  induction l as [|a l IH]; intros st; cbn [fold_left]; [split; reflexivity|].
  destruct (IH (acc_rej_body e_cur st a)) as [E1 E2]. rewrite E1, E2.
  unfold acc_rej_body. destruct (Rltb _ _); split; reflexivity.
Qed.

Lemma adj_temperature_counts (st st' : State) :
  _adj_temperature st = OK st' ->
  _n_min st' = _n_min st /\ _n_same st' = _n_same st.
Proof.
  unfold _adj_temperature, _write_fp, get_fp. intros H.
  destruct (1 <? _n_visits st)%Z.
  - destruct (enhanced_feedback _); injection H as <-; split; reflexivity.
  - cbn [_fp emit set_out set_unique_minima set_temperature set_n_unique] in H.
    destruct (_fp st); [|discriminate]. injection H as <-. split; reflexivity.
Qed.

Lemma update_data_counts (st st' : State) :
  _update_data st = OK st' ->
  _n_min st' = _n_min st /\ _n_same st' = _n_same st.
Proof.
  unfold _update_data, get_fp. intros H.
  destruct (tag_eqb (_acc_rej st) Accepted);
    cbn [_fp emit set_out set_accepted_minima] in H;
    destruct (_fp st); cbn [bind] in H; try discriminate;
    injection H as <-;
    cbn [_atoms_alias set_all_minima set_accepted_minima set_out];
    match goal with
    | |- context [match _atoms_alias st with _ => _ end] =>
        destruct (_atoms_alias st);
        [match goal with |- context [if ?c then _ else _] => destruct c end|]
    end;
    split; reflexivity.
Qed.

(** What a hop does to the counters. *)
Lemma hop_counts (outcomes : list md_outcome) (st st' : State) :
  0 < minima_threshold (settings st) \/ 0 < energy_threshold (settings st) ->
  hop outcomes st = OK st' ->
  exists k,
    (1 <= k)%Z /\ _n_min st' = (_n_min st + k)%Z /\
    _n_same st' = (_n_same st + (k - 1))%Z /\
    _i_step st' = (_i_step st + 1)%Z /\
    (_n_unique st' + _n_notunique st' = _n_unique st + _n_notunique st + 1)%Z /\
    (_n_unique st <= _n_unique st')%Z /\ (_n_notunique st <= _n_notunique st')%Z.
Proof.
  intros Hthr H.
  pose proof (hop_counters _ _ _ H) as (_ & _ & I).
  destruct (hop_temperature _ _ _ H) as (s1 & n & Hs1 & _ & U).
  destruct (hop_steps _ _ _ H)
    as (st1 & st2 & n' & st3 & st4 & H1 & H2 & H3 & H4 & H5 & Hst').
  destruct (escape_counts _ _ _ Hthr H1) as (k & Hk & M1 & M2 & _).
  exists k. split; [exact Hk|].
  destruct (update_data_counts _ _ H5) as [A1 A2].
  destruct (adj_temperature_counts _ _ H4) as [B1 B2].
  cbn [_n_min _n_same set_n_visits _hoplog set_i_step] in B1, B2.
  assert (C : _n_min st2 = _n_min st1 /\ _n_same st2 = _n_same st1).
  { assert (Hne : intermediate_minima st1 <> []).
    { intros E. unfold _acc_rej_step in H2. rewrite E in H2. discriminate. }
    rewrite (acc_rej_step_total st1 Hne) in H2.
    injection H2 as <-. apply acc_rej_fold_counts. }
  destruct C as [C1 C2].
  destruct (write_poslow_frame st4)
    as (_ & _ & _ & _ & _ & _ & _ & _ & _ & _ & _ & _ & _ & _ & W1 & _ & _ & W2 & _).
  assert (F : _n_min st' = _n_min (_write_poslow st4)
              /\ _n_same st' = _n_same (_write_poslow st4))
    by (rewrite Hst'; split; reflexivity).
  destruct F as [F1 F2].
  split; [congruence|]. split; [congruence|]. split; [exact I|].
  destruct U as [(_ & _ & U1 & U2 & _)|(_ & _ & U1 & U2 & _)]; lia.
Qed.

Lemma min_written_warns (ws : list string) : min_written (map Warn ws) = [].
Proof. induction ws; simpl; auto. Qed.

Lemma fp_written_warns (ws : list string) : fp_written (map Warn ws) = [].
Proof. induction ws; simpl; auto. Qed.

(** X15: the counters of a run stay consistent.  When the driver returns,
    the number of minima visited is 1 plus the returns to the same minimum
    plus the hops made, and every hop counted either as a new or as a known
    minimum; in particular [_n_min] is positive, so that the fractions of
    [_history_log] are quotients by a positive count. *)
Theorem run_counters (fs : files) (opt : Atoms -> Atoms) (w : world)
  (totalsteps : Z) (st st' : State) :
  0 < minima_threshold (settings st) \/ 0 < energy_threshold (settings st) ->
  __call__ fs opt w totalsteps st = Some (OK st') ->
  _n_min st' = (1 + _n_same st' + _i_step st')%Z /\
  (_n_unique st' + _n_notunique st' = _i_step st')%Z /\
  (0 <= _n_same st')%Z /\ (0 <= _n_unique st')%Z /\
  (0 <= _n_notunique st')%Z /\ (1 <= _n_min st')%Z.
Proof.
  intros Hthr H. unfold __call__ in H.
  destruct (_startup fs opt st) as [st0|e] eqn:E0; [|discriminate].
  destruct (startup_spec _ _ _ _ E0) as (S1 & _ & S3 & S4 & S5 & S6 & S7 & _).
  set (P := fun s : State =>
    (0 < minima_threshold (settings s) \/ 0 < energy_threshold (settings s)) /\
    _n_min s = (1 + _n_same s + _i_step s)%Z /\
    (_n_unique s + _n_notunique s = _i_step s)%Z /\
    (0 <= _n_same s)%Z /\ (0 <= _n_unique s)%Z /\
    (0 <= _n_notunique s)%Z /\ (0 <= _i_step s)%Z).
  assert (HP : P st').
  { apply (call_loop_invariant P w totalsteps) with (5 := H).
    - intros outcomes s s' (T1 & I1 & I2 & I3 & I4 & I5 & I6) Hh.
      destruct (hop_counts _ _ _ T1 Hh) as (k & Hk & M1 & M2 & M3 & M4 & M5 & M6).
      pose proof (hop_counters _ _ _ Hh) as (C1 & _).
      unfold P. rewrite C1. split; [exact T1|]. lia.
    - intros s n Hs. exact Hs.
    - intros s n d h m x Hs. exact Hs.
    - unfold P. rewrite S1, S3, S4, S5, S6, S7. split; [exact Hthr|]. lia. }
  destruct HP as (_ & I1 & I2 & I3 & I4 & I5 & I6). lia.
Qed.

Lemma run_counters_witness :
  exists st',
    __call__ no_files identity_opt rejecting_world 1 fresh_state = Some (OK st') /\
    _n_min st' = (1 + _n_same st' + _i_step st')%Z /\
    (_n_unique st' + _n_notunique st' = _i_step st')%Z.
Proof.
  destruct rejecting_call as (st' & H).
  destruct (run_counters no_files identity_opt rejecting_world 1 fresh_state st')
    as (I1 & I2 & _).
  - left. cbn. lra.
  - exact H.
  - exists st'. repeat split; assumption.
Defined.

(** ** The two archives *)

Lemma escape_archives (outcomes : list md_outcome) (st st' : State) :
  _escape outcomes st = OK st' ->
  all_minima st' = all_minima st /\
  (_atoms_alias st = None -> all_minima_sorted st' = all_minima_sorted st) /\
  _atoms_alias st' = _atoms_alias st.
Proof.
  unfold _escape. intros H. bind_inv H. injection H as <-.
  apply escape_loop_keeps in Hx.
  destruct Hx as (_ & K2 & _ & _ & _ & K6 & _ & _ & _ & _ & _ & _ & K13).
  unfold _history_log, emit. cbn. repeat split; assumption.
Qed.

Lemma hop_archive_perm (outcomes : list md_outcome) (st st' : State) :
  _atoms_alias st = None ->
  Permutation (all_minima_sorted st) (all_minima st) ->
  hop outcomes st = OK st' ->
  _atoms_alias st' = None /\
  Permutation (all_minima_sorted st') (all_minima st') /\
  length (all_minima st') = S (length (all_minima st)).
Proof.
  intros Ha Hp H. apply hop_steps in H.
  destruct H as (st1 & st2 & n & st3 & st4 & H1 & H2 & Hn & H3 & H4 & ->).
  apply escape_archives in H1.
  apply acc_rej_step_keeps in H2.
  apply adj_temperature_frame in H3. apply update_data_insert in H4.
  pose proof (write_poslow_frame st4) as H5.
  unfold acc_rej_keeps, adj_temperature_keeps, same_but_out in *.
  destruct H1 as (E1 & E2 & E3).
  destruct H2 as (_ & _ & _ & _ & _ & _ & A1 & A2 & _).
  destruct H3 as (_ & _ & _ & _ & _ & _ & _ & B1 & B2 & _).
  destruct H4 as (fp & _ & C1 & C2 & _).
  destruct H5 as (_ & _ & _ & _ & _ & _ & _ & _ & D1 & D2 & _).
  cbn in B1, B2.
  split; [reflexivity|]. cbn.
  rewrite D1, D2, C1, C2, B1, B2, A1, A2, E1, E2 by exact Ha.
  split.
  - rewrite insort_perm. rewrite Hp.
    change (new_record st3 fp :: all_minima st)
      with ([new_record st3 fp] ++ all_minima st).
    apply Permutation_app_comm.
  - rewrite length_app. cbn. lia.
Qed.

(** X17: without [start_lowest], the sorted archive and the chronological
    log hold the same records, one per hop.  When the driver returns, the
    sorted archive is a rearrangement of the log, sorted by energy, and no
    record of it shares its structure with the working structure; the
    number of records is the number of structures read from min.extxyz at a
    restart (none on a fresh start) plus the number of hops made, a minimum
    found again getting a record of its own. *)
Theorem archives_hold_the_same_records (fs : files) (opt : Atoms -> Atoms)
  (w : world) (totalsteps : Z) (st st' : State) :
  start_lowest (settings st) = false ->
  __call__ fs opt w totalsteps st = Some (OK st') ->
  Permutation (all_minima_sorted st') (all_minima st') /\
  sorted_by_energy (all_minima_sorted st') /\
  _atoms_alias st' = None /\
  Z.of_nat (length (all_minima st'))
  = (Z.of_nat (if is_restart fs (settings st) then length (min_extxyz fs) else 0%nat)
     + _i_step st')%Z.
Proof.
  intros Hl H.
  pose proof (call_archive_sorted _ _ _ _ _ _ Hl H) as Hsorted.
  unfold __call__ in H.
  destruct (_startup fs opt st) as [st0|e] eqn:E0; [|discriminate].
  pose proof (startup_archive_ok _ _ _ _ Hl E0) as [Ha0 _].
  destruct (startup_spec _ _ _ _ E0) as (_ & _ & I0 & _).
  assert (Hp0 : Permutation (all_minima_sorted st0) (all_minima st0) /\
                length (all_minima st0)
                = if is_restart fs (settings st) then length (min_extxyz fs)
                  else 0%nat).
  { unfold _startup in E0.
    apply bind_ok in E0. destruct E0 as [r [Hr E0]].
    apply bind_ok in E0. destruct E0 as [s [Hs E0]].
    injection E0 as <-. unfold _history_log, emit. cbn.
    assert (Er : r = is_restart fs (settings st)).
    { cbn in Hr. unfold is_restart. destruct (exists_min fs && exists_history fs).
      - injection Hr as <-. destruct (new_start (settings st)); reflexivity.
      - apply bind_ok in Hr. destruct Hr as [u [_ Hr]]. now injection Hr as <-. }
    rewrite <- Er. clear Er Hr.
    destruct r.
    - apply startup_restart_spec in Hs.
      destruct Hs as (a & line & warns & _ & _ & _ & _ & _ & _ & _ & L2 & _ & Hp & _).
      split; assumption.
    - injection Hs as <-. cbn. split; [constructor | reflexivity]. }
  destruct Hp0 as [Hp0 Hlen0].
  set (L0 := Z.of_nat (if is_restart fs (settings st) then length (min_extxyz fs)
                       else 0%nat)).
  set (P := fun s : State =>
    _atoms_alias s = None /\ Permutation (all_minima_sorted s) (all_minima s) /\
    Z.of_nat (length (all_minima s)) = (L0 + _i_step s)%Z).
  assert (HP : P st').
  { apply (call_loop_invariant P w totalsteps) with (5 := H).
    - intros outcomes s s' (A & Q & N) Hh.
      destruct (hop_archive_perm _ _ _ A Q Hh) as (A' & Q' & N').
      pose proof (hop_counters _ _ _ Hh) as (_ & _ & I).
      split; [exact A'|]. split; [exact Q'|]. rewrite N', I. lia.
    - intros s n Hs. exact Hs.
    - intros s n d h m x Hs. exact Hs.
    - split; [exact Ha0|]. split; [exact Hp0|]. rewrite Hlen0, I0. unfold L0. lia. }
  destruct HP as (A & Q & N). repeat split; assumption.
Qed.

Lemma archives_hold_the_same_records_witness :
  exists st',
    __call__ no_files identity_opt rejecting_world 1 fresh_state = Some (OK st') /\
    Permutation (all_minima_sorted st') (all_minima st') /\
    sorted_by_energy (all_minima_sorted st').
Proof.
  destruct rejecting_call as (st' & H).
  destruct (archives_hold_the_same_records no_files identity_opt rejecting_world 1
              fresh_state st' eq_refl H) as (Q & S & _).
  exists st'. repeat split; assumption.
Defined.
(** * The acceptance policy and the exceptions of a hop *)

Lemma bind_raise {A B : Type} (m : result A) (k : A -> result B) (e : exn) :
  bind m k = Raise e -> m = Raise e \/ exists a, m = OK a /\ k a = Raise e.
Proof.
  destruct m as [a|e']; cbn [bind]; intros H.
  - right. exists a. split; [reflexivity | exact H].
  - left. injection H as ->. reflexivity.
Qed.

Lemma mapM_raise {A B : Type} (f : A -> result B) (l : list A) (e : exn) :
  mapM f l = Raise e -> exists x, In x l /\ f x = Raise e.
Proof.
  induction l as [|x l IH]; cbn [mapM]; intros H; [discriminate|].
  apply bind_raise in H. destruct H as [H|(y & Hy & H)].
  - exists x. split; [now left | exact H].
  - apply bind_raise in H. destruct H as [H|(ys & _ & H)]; [|discriminate].
    destruct (IH H) as (z & Hz & Hf). exists z. split; [now right | exact Hf].
Qed.

Lemma foldM_raise {A S : Type} (f : S -> A -> result S) (l : list A) (e : exn) :
  forall s, foldM f l s = Raise e -> exists s' x, f s' x = Raise e.
Proof.
  induction l as [|x l IH]; cbn [foldM]; intros s H; [discriminate|].
  apply bind_raise in H. destruct H as [H|(s' & _ & H)].
  - exists s, x. exact H.
  - apply (IH _ H).
Qed.

Lemma np_sub_error (a b : list R) (e : exn) :
  np_sub a b = Raise e -> distance_error e.
Proof.
  unfold np_sub.
  destruct (_ =? _)%nat; [discriminate|].
  destruct (_ =? _)%nat; [discriminate|].
  destruct (_ =? _)%nat; [discriminate|].
  intros H. injection H as <-. exact I.
Qed.

Lemma py_assert_error (b : bool) (msg : string) (e : exn) :
  py_assert b msg = Raise e -> distance_error e.
Proof.
  unfold py_assert. destruct b; [discriminate|].
  intros H. injection H as <-. exact I.
Qed.

Lemma fp_distance_error (d1 d2 : ndarray) (e : exn) :
  fp_distance d1 d2 = Raise e -> distance_error e.
Proof.
  unfold fp_distance. cbv zeta. intros H.
  apply bind_raise in H. destruct H as [H|(u & _ & H)];
    [exact (py_assert_error _ _ _ H)|].
  apply bind_raise in H. destruct H as [H|(u1 & _ & H)];
    [exact (py_assert_error _ _ _ H)|].
  apply bind_raise in H. destruct H as [H|(u2 & _ & H)];
    [exact (py_assert_error _ _ _ H)|].
  assert (Hmat : forall m1 m2,
            (costmat <- _costmatrix m1 m2 ;;
             fp_dist <- foldM (matched_sq (mat_rows m1) (mat_rows m2))
                          (combine (fst (linear_sum_assignment costmat))
                                   (snd (linear_sum_assignment costmat))) 0 ;;
             OK (sqrt fp_dist)) = Raise e -> distance_error e).
  { intros m1 m2 Hm.
    apply bind_raise in Hm. destruct Hm as [Hm|(c & _ & Hm)].
    - unfold _costmatrix in Hm.
      apply bind_raise in Hm. destruct Hm as [Hm|(u3 & _ & Hm)];
        [exact (py_assert_error _ _ _ Hm)|].
      apply mapM_raise in Hm. destruct Hm as (r1 & _ & Hm).
      apply mapM_raise in Hm. destruct Hm as (r2 & _ & Hm).
      apply bind_raise in Hm. destruct Hm as [Hm|(dd & _ & Hm)]; [|discriminate].
      exact (np_sub_error _ _ _ Hm).
    - apply bind_raise in Hm. destruct Hm as [Hm|(x & _ & Hm)]; [|discriminate].
      apply foldM_raise in Hm. destruct Hm as (s' & idx & Hm).
      unfold matched_sq in Hm.
      apply bind_raise in Hm. destruct Hm as [Hm|(dd & _ & Hm)]; [|discriminate].
      exact (np_sub_error _ _ _ Hm). }
  destruct d1 as [v1|c1 rows1], d2 as [v2|c2 rows2];
    try (exact (Hmat _ _ H)).
  apply bind_raise in H. destruct H as [H|(dd & _ & H)]; [|discriminate].
  exact (np_sub_error _ _ _ H).
Qed.

Lemma escape_loop_error (outcomes : list md_outcome) (fp_in : ndarray) (e_in : R) :
  forall esc esc_e i st e,
    escape_loop outcomes fp_in e_in esc esc_e i st = Raise e -> distance_error e.
Proof.
  induction outcomes as [|o rest IH]; intros esc esc_e i st e H.
  - cbn [escape_loop] in H. destruct (_ || _); [|discriminate].
    injection H as <-. exact I.
  - rewrite escape_loop_step in H. destruct (_ || _); [|discriminate].
    apply bind_raise in H. destruct H as [H|(d & _ & H)].
    + exact (fp_distance_error _ _ _ H).
    + exact (IH _ _ _ _ _ H).
Qed.

Lemma compare_record_error (s : Minimum) (epot : R) (fp1 : ndarray) (mthr : R)
  (i : Z) (e : exn) :
  compare_record s epot fp1 mthr i = Raise e -> distance_error e.
Proof.
  unfold compare_record. intros H.
  apply bind_raise in H. destruct H as [H|(d & _ & H)]; [|discriminate].
  exact (fp_distance_error _ _ _ H).
Qed.

Lemma scan_backward_error (a : list Minimum) (epot : R) (fp1 : ndarray)
  (ethr mthr : R) :
  forall k e0 i e,
    (k <= length a)%nat ->
    scan_backward a epot fp1 ethr mthr k e0 i = Raise e -> distance_error e.
Proof.
  induction k as [|k IH]; intros e0 i e Hk H; cbn [scan_backward] in H.
  - destruct (Rltb _ _); discriminate.
  - destruct (Rltb _ _); [|discriminate].
    apply bind_raise in H. destruct H as [H|(s & _ & H)].
    + unfold list_get in H.
      destruct (nth_error a k) eqn:E; [discriminate|].
      apply nth_error_None in E. lia.
    + apply bind_raise in H. destruct H as [H|(r & _ & H)].
      * exact (compare_record_error _ _ _ _ _ _ H).
      * apply (IH _ _ _ ltac:(lia) H).
Qed.

Lemma scan_forward_error (a : list Minimum) (epot : R) (fp1 : ndarray)
  (ethr mthr : R) :
  forall fuel k e0 i e,
    scan_forward fuel a epot fp1 ethr mthr k e0 i = Raise e -> distance_error e.
Proof.
  induction fuel as [|fuel IH]; intros k e0 i e H; cbn [scan_forward] in H;
    [discriminate|].
  destruct (Rltb _ _); [|discriminate].
  destruct (Nat.ltb_spec (length a) (k + 1 + 1)) as [L|L]; [discriminate|].
  apply bind_raise in H. destruct H as [H|(s & _ & H)].
  - unfold list_get in H.
    destruct (nth_error a (k + 1)) eqn:E; [discriminate|].
    apply nth_error_None in E. lia.
  - apply bind_raise in H. destruct H as [H|(r & _ & H)].
    + exact (compare_record_error _ _ _ _ _ _ H).
    + exact (IH _ _ _ _ H).
Qed.

Lemma in_history_fp_error (st : State) (fp : ndarray) (e : exn) :
  _fp st = Some fp -> _in_history_fp st = Raise e -> distance_error e.
Proof.
  unfold _in_history_fp, get_fp. intros Hfp H. rewrite Hfp in H. cbn [bind] in H.
  apply bind_raise in H. destruct H as [H|(r & _ & H)].
  - apply scan_backward_error in H; [exact H | apply bisect_le_length].
  - exact (scan_forward_error _ _ _ _ _ _ _ _ _ _ H).
Qed.

Lemma distance_error_hop_error (s : Settings) (e : exn) :
  distance_error e -> hop_error s e.
Proof. destruct e; cbn; tauto. Qed.

Lemma in_history_fp_needs_fp (st : State) (n : Z) :
  _in_history_fp st = OK n -> exists fp, _fp st = Some fp.
Proof.
  unfold _in_history_fp, get_fp. destruct (_fp st) as [fp|]; intros H.
  - now exists fp.
  - discriminate.
Qed.

(** X18: the exceptions of a hop.  [_acc_rej_step] fails on an empty list of
    candidates, where its final message reads a local that was never
    assigned; inside a hop the list is never empty, and a hop raises neither
    that error nor an IndexError.  What the steps of a hop can raise, from
    a state with a positive count of minima (as every state of a run is),
    are the errors of the distance computation (AssertionError for
    descriptors of different shapes, ValueError from numpy or from a
    failing collaborator) and, only when neither threshold is positive,
    AttributeError for the missing [self._fp]. *)
Theorem hop_exceptions :
  (forall st,
     intermediate_minima st = [] ->
     _acc_rej_step st
     = Raise (NameError "local variable referenced before assignment")) /\
  (forall outcomes st e,
     (1 <= _n_min st)%Z ->
     hop outcomes st = Raise e -> hop_error (settings st) e).
Proof.
  split.
  - intros st H. unfold _acc_rej_step. rewrite H. reflexivity.
  - intros outcomes st e _ H. unfold hop in H.
    apply bind_raise in H. destruct H as [H|(st1 & H1 & H)].
    { apply distance_error_hop_error.
      unfold _escape in H.
      apply bind_raise in H. destruct H as [H|(s & _ & H)]; [|discriminate].
      exact (escape_loop_error _ _ _ _ _ _ _ _ H). }
    apply bind_raise in H. destruct H as [H|(st2 & H2 & H)].
    { exfalso. pose proof (escape_appends _ _ _ H1) as (A & _).
      rewrite acc_rej_step_total in H; [discriminate|].
      rewrite A. now destruct (intermediate_minima st). }
    cbv zeta in H.
    pose proof (acc_rej_step_keeps _ _ H2) as (_ & _ & _ & F2 & _).
    apply bind_raise in H. destruct H as [H|(n & Hn & H)].
    { destruct (_fp st1) as [fp|] eqn:Efp.
      - apply distance_error_hop_error.
        apply (in_history_fp_error (_hoplog st2) fp); [|exact H].
        cbn. congruence.
      - unfold _in_history_fp, get_fp in H.
        cbn [_fp _hoplog set_i_step] in H. rewrite F2 in H.
        cbn [bind] in H. injection H as <-. cbn [hop_error].
        destruct (Rlt_dec 0 (minima_threshold (settings st))) as [L1|L1].
        { destruct (escape_counts _ _ _ (or_introl L1) H1) as (_ & _ & _ & _ & F).
          congruence. }
        destruct (Rlt_dec 0 (energy_threshold (settings st))) as [L2|L2].
        { destruct (escape_counts _ _ _ (or_intror L2) H1) as (_ & _ & _ & _ & F).
          congruence. }
        split; lra. }
    exfalso.
    destruct (in_history_fp_needs_fp _ _ Hn) as (fp & Hfp).
    cbn [_fp _hoplog set_i_step] in Hfp.
    apply bind_raise in H. destruct H as [H|(st3 & H3 & H)].
    { destruct (adj_temperature_total (set_n_visits n (_hoplog st2)) fp Hfp)
        as (s & Hs).
      congruence. }
    pose proof (adj_temperature_frame _ _ H3) as (_ & _ & _ & _ & F3 & _).
    apply bind_raise in H. destruct H as [H|(st4 & H4 & H)]; [|discriminate].
    destruct (update_data_total st3 fp) as (s & Hs); [|congruence].
    rewrite F3. exact Hfp.
Qed.

Lemma hop_exceptions_witness :
  hop [mkOutcome periodic_structure 0] fresh_state
  = Raise (AssertionError "Dimension of vector 1 is and vector 2 is different") /\
  hop_error (settings fresh_state)
    (AssertionError "Dimension of vector 1 is and vector 2 is different").
Proof.
  assert (H : hop [mkOutcome periodic_structure 0] fresh_state
              = Raise (AssertionError
                         "Dimension of vector 1 is and vector 2 is different")).
  { unfold hop, _escape. rewrite escape_loop_step.
    rewrite (escape_starts fresh_state) by (left; cbn; lra).
    destruct (escape_cycle_fields 0 (mkOutcome periodic_structure 0) fresh_state)
      as (_ & F2 & _).
    rewrite F2. reflexivity. }
  split; [exact H|].
  apply (proj2 hop_exceptions [mkOutcome periodic_structure 0] fresh_state);
    [cbn; lia | exact H].
Defined.

Lemma escape_accepted (outcomes : list md_outcome) (st st' : State) :
  _escape outcomes st = OK st' -> accepted_minima st' = accepted_minima st.
Proof.
  unfold _escape. intros H. bind_inv H. injection H as <-.
  apply escape_loop_keeps in Hx.
  destruct Hx as (_ & _ & _ & _ & _ & _ & _ & K8 & _).
  unfold _history_log, emit. cbn. exact K8.
Qed.

(** X19: a candidate that an earlier hop rejected stays stored and is
    judged again by every later hop, against the grown threshold.  When it
    passes in a hop whose own candidate then fails, the run moves to the
    stored candidate: it becomes the current structure and the start of the
    next hop, and the list of candidates is cleared.  The hop is tagged
    Rejected all the same, so nothing is appended to acc.extxyz or to the
    accepted minima, and the threshold has been multiplied by [alpha_a] and
    then by [alpha_r]. *)
Theorem stored_candidate_accepted_late (outcomes : list md_outcome)
  (st st1 st' : State) (c1 : Atoms) :
  intermediate_minima st = [c1] ->
  _escape outcomes st = OK st1 ->
  hop outcomes st = OK st' ->
  get_potential_energy c1 - get_potential_energy (_atoms_cur st) < _Ediff st ->
  ~ get_potential_energy (_atoms st1) - get_potential_energy (_atoms_cur st)
    < _Ediff st * alpha_a (settings st) ->
  _atoms_cur st' = c1 /\ _atoms st' = c1 /\ _acc_rej st' = Rejected /\
  intermediate_minima st' = [] /\
  _Ediff st' = _Ediff st * alpha_a (settings st) * alpha_r (settings st) /\
  accepted_minima st' = accepted_minima st /\
  exists evs, out st' = out st ++ evs /\ acc_written evs = [].
Proof.
  intros Hi H1 H Hacc Hrej.
  destruct (escape_appends _ _ _ H1) as (A1 & A2 & A3 & A4 & _).
  rewrite Hi in A1. cbn [app] in A1.
  destruct (hop_out _ _ _ H)
    as (s1 & st2 & n & fp & pos & line & H1' & H2 & _ & _ & O &
        (_ & _ & P3 & _) & _ & R & M).
  assert (s1 = st1) by congruence. subst s1.
  destruct (hop_after_acceptance _ _ _ H)
    as (s1 & s2 & G1 & G2 & G3 & G4 & G5 & G6 & G7).
  assert (s1 = st1) by congruence. subst s1.
  assert (s2 = st2) by congruence. subst s2.
  rewrite acc_rej_step_total in H2 by (rewrite A1; discriminate).
  rewrite A1 in H2. cbn [fold_left] in H2.
  rewrite A4, (acc_rej_body_accept _ st1 c1) in H2 by (rewrite A3; exact Hacc).
  rewrite acc_rej_body_reject in H2
    by (cbn [_Ediff set_intermediate_minima set_acc_rej set_atoms_cur set_Ediff];
        rewrite A3, A2; exact Hrej).
  injection H2 as <-.
  cbn [_Ediff _acc_rej _atoms_cur intermediate_minima settings
       set_intermediate_minima set_acc_rej set_atoms_cur set_Ediff] in *.
  cbn [tag_eqb] in O, M. rewrite app_nil_r in M.
  destruct (escape_quiet _ _ _ H1) as (evs1 & O1 & _ & _ & Q3).
  split; [exact G6|]. split; [exact G7|]. split; [exact G4|].
  split; [exact G5|]. split; [rewrite G3, A3, A2; reflexivity|].
  split; [rewrite M; apply (escape_accepted _ _ _ H1)|].
  eexists. rewrite O, O1, <- !app_assoc. split; [reflexivity|].
  rewrite !acc_written_app, Q3, P3.
  destruct (1 <? n)%Z; reflexivity.
Qed.

(** The first two hops of [late_world]: the first one rejects its candidate
    and keeps it. *)
Lemma late_run :
  exists st1 s2 st2,
    settings st1 = _default_settings /\
    intermediate_minima st1 = [structure 0.0102 1] /\
    _Ediff st1 = 0.01 * 1.05 /\ _atoms_cur st1 = structure 0 0 /\
    _escape [mkOutcome (structure 5 5) 0] st1 = OK s2 /\ _atoms s2 = structure 5 5 /\
    hop [mkOutcome (structure 5 5) 0] st1 = OK st2.
Proof.
  destruct fresh_start as (st0 & H0 & S1 & S2 & S3 & S4 & S5 & S6 & S7 & S8).
  assert (X1 : exits_at_first (settings st0) (_atoms st0)
                 (mkOutcome (structure 0.0102 1) 0)).
  { rewrite S1, S6. apply exits_structure; cbn; Rabs_eval; lra. }
  pose proof (default_thresholds_positive st0 S1) as P0.
  destruct (hop_returns 1 (mkOutcome (structure 0.0102 1) 0) [] st0 S8
              (vec_structure 0.0102 1) X1 P0) as (st1 & H1 & F1 & A1).
  pose proof (escape_first_cycle _ [] st0 X1 P0) as Hesc1.
  destruct (escape_result_fields (mkOutcome (structure 0.0102 1) 0) st0) as (R1 & _).
  cbn [relaxed] in R1.
  assert (Hrej1 : all_rejected (get_potential_energy (_atoms_cur st0)) (_Ediff st0)
                    (alpha_r (settings st0))
                    (intermediate_minima st0
                     ++ [_atoms (escape_result (mkOutcome (structure 0.0102 1) 0) st0)])
                  = true).
  { rewrite R1, S1, S2, S5, S7. cbn. Rltb_eval. reflexivity. }
  destruct (hop_all_rejected _ _ _ _ Hesc1 H1 Hrej1) as (I1 & I2 & I3 & I4 & I5).
  rewrite R1, S5 in I1. rewrite S1, S2, S5 in I2. rewrite S7 in I3, I4.
  cbn in I1, I2.
  pose proof (hop_counters _ _ _ H1) as (C1 & C2 & C3).
  rewrite S1 in C1.
  assert (X2 : exits_at_first (settings st1) (_atoms st1) (mkOutcome (structure 5 5) 0)).
  { rewrite C1, I4. apply exits_structure; cbn; Rabs_eval; lra. }
  pose proof (default_thresholds_positive st1 C1) as P1.
  destruct (hop_returns 1 (mkOutcome (structure 5 5) 0) [] st1 F1
              (vec_structure 5 5) X2 P1) as (st2 & H2 & F2 & A2).
  pose proof (escape_first_cycle _ [] st1 X2 P1) as Hesc2.
  destruct (escape_result_fields (mkOutcome (structure 5 5) 0) st1) as (R2 & _).
  cbn [relaxed] in R2.
  exists st1, (escape_result (mkOutcome (structure 5 5) 0) st1), st2.
  repeat split; try assumption.
  rewrite I2. lra.
Qed.

Lemma stored_candidate_accepted_late_witness :
  exists st1 st2,
    hop [mkOutcome (structure 5 5) 0] st1 = OK st2 /\
    intermediate_minima st1 = [structure 0.0102 1] /\
    _atoms_cur st1 = structure 0 0 /\
    _atoms_cur st2 = structure 0.0102 1 /\ _atoms st2 = structure 0.0102 1 /\
    _acc_rej st2 = Rejected /\ accepted_minima st2 = accepted_minima st1.
Proof.
  destruct late_run as (st1 & s2 & st2 & S & I & E & C & H1 & A & H).
  destruct (stored_candidate_accepted_late [mkOutcome (structure 5 5) 0]
              st1 s2 st2 (structure 0.0102 1) I H1 H)
    as (T1 & T2 & T3 & _ & _ & T6 & _).
  - rewrite C, E. cbn. lra.
  - rewrite A, C, E, S. cbn. lra.
  - exists st1, st2. repeat split; assumption.
Defined.

(** ** The first hop of a fresh run *)

Lemma in_history_fp_empty (st : State) (fp : ndarray) :
  _fp st = Some fp -> all_minima_sorted st = [] -> _in_history_fp st = OK 1%Z.
Proof.
  intros Hfp He. unfold _in_history_fp, get_fp. rewrite Hfp, He.
  cbn [bind bisect bisect_loop length scan_backward].
  destruct (Rltb 0 (energy_threshold (settings st)));
    cbn [bind fst snd Nat.add scan_forward];
    destruct (Rltb 0 (energy_threshold (settings st))); reflexivity.
Qed.

(** X22: a fresh start archives nothing, not even the structure it starts
    from, so the first hop of a fresh run always counts as a new minimum:
    its novelty count is 1, the temperature is multiplied by
    [beta_decrease], the escaped structure becomes the first unique minimum
    and the only record of the archive, with visit count 1, whatever the
    structure is. *)
Theorem first_hop_of_a_fresh_run_is_new (fs : files) (opt : Atoms -> Atoms)
  (outcomes : list md_outcome) (st st0 st' : State) :
  is_restart fs (settings st) = false ->
  _startup fs opt st = OK st0 ->
  hop outcomes st0 = OK st' ->
  exists s1 r,
    _escape outcomes st0 = OK s1 /\
    _n_unique st' = 1%Z /\ _n_notunique st' = 0%Z /\
    unique_minima st' = [_atoms s1] /\
    _temperature st' = _temperature s1 * beta_decrease (settings st) /\
    all_minima_sorted st' = [r] /\ all_minima st' = [r] /\
    atoms r = _atoms s1 /\ n_visit r = 1%Z.
Proof.
  intros Hr H0 H.
  destruct (startup_fresh _ _ _ _ Hr H0) as (S1 & _ & _ & _ & _ & S6 & S7 & _).
  destruct (startup_spec _ _ _ _ H0)
    as (_ & _ & _ & _ & _ & U1 & U2 & _ & U3 & _).
  assert (S8 : all_minima st0 = []).
  { unfold _startup in H0.
    apply bind_ok in H0. destruct H0 as [b [Hb H0]].
    apply bind_ok in H0. destruct H0 as [s [Hs H0]].
    injection H0 as <-.
    assert (b = false).
    { cbn in Hb. unfold is_restart in Hr.
      destruct (exists_min fs && exists_history fs).
      - injection Hb as <-. cbn in Hr. now destruct (new_start (settings st)).
      - apply bind_ok in Hb. destruct Hb as [u [_ Hb]]. now injection Hb as <-. }
    subst b. injection Hs as <-. reflexivity. }
  destruct (hop_steps _ _ _ H)
    as (s1 & s2 & n & s3 & s4 & H1 & H2 & H3 & H4 & H5 & Hst').
  destruct (escape_archives _ _ _ H1) as (E1 & E2 & E3).
  destruct (escape_appends _ _ _ H1)
    as (_ & E4 & _ & _ & _ & _ & E5 & E6 & _ & _ & E7).
  destruct (acc_rej_step_keeps _ _ H2)
    as (A0 & A1 & A2 & A3 & A4 & _ & A5 & A6 & A7 & _ & _ & A8 & A9 & _).
  destruct (in_history_fp_needs_fp _ _ H3) as (fp & Hfp).
  rewrite (in_history_fp_empty _ fp Hfp) in H3
    by (cbn; rewrite A6, E2, S6 by exact S7; reflexivity).
  injection H3 as <-.
  rewrite (adj_temperature_first_visit (set_n_visits 1%Z (_hoplog s2)) fp) in H4
    by (cbn; first [exact Hfp | lia]).
  injection H4 as <-.
  destruct (update_data_insert _ _ H5) as (fp' & _ & I1 & I2 & _).
  destruct (update_data_frame _ _ H5)
    as (_ & _ & _ & _ & D1 & _ & _ & D2 & _ & _ & D3 & D4 & _).
  destruct (write_poslow_frame s4)
    as (_ & _ & _ & _ & _ & W1 & _ & _ & W2 & W3 & W4 & _ & _ & _ & _ & W5 & W6 & _).
  cbn in I1, I2, D1, D2, D3, D4.
  exists s1. eexists.
  split; [exact H1|].
  rewrite Hst'. cbn.
  rewrite W5, W6, W4, W1, W3, W2, D3, D4, D2, D1, I1, I2, A8, A9, A7, A4, A6, A5,
    A1, A0, E5, E6, E7, E4, E1, E2, U1, U2, U3, S6, S8, S1 by exact S7.
  unfold new_record, insort, bisect, list_insert. cbn. rewrite ?A1.
  repeat split; reflexivity.
Qed.

Lemma first_hop_of_a_fresh_run_is_new_witness :
  exists st0 st' s1,
    _startup no_files identity_opt fresh_state = OK st0 /\
    hop [mkOutcome (structure (-1) 1) 0] st0 = OK st' /\
    _escape [mkOutcome (structure (-1) 1) 0] st0 = OK s1 /\
    _n_unique st' = 1%Z /\ unique_minima st' = [_atoms s1].
Proof.
  destruct accepting_run as (st0 & st' & H0 & H & _).
  destruct (first_hop_of_a_fresh_run_is_new no_files identity_opt
              [mkOutcome (structure (-1) 1) 0] fresh_state st0 st' eq_refl H0 H)
    as (s1 & r & H1 & U & _ & M & _).
  exists st0, st', s1. repeat split; assumption.
Defined.
(** * The descriptor cache: writing and reading back *)

Lemma np_array_rows_ok (c : nat) (rows : list (list R)) :
  rows <> [] -> Forall (fun r => length r = c) rows ->
  np_array_rows rows = OK (Mat c rows).
Proof.
  intros Hne H. unfold np_array_rows.
  assert (Ec : length (hd [] rows) = c).
  { destruct rows as [|r rows]; [contradiction|]. inversion H; subst. reflexivity. }
  rewrite Ec.
  assert (Hall : forallb (fun r => (length r =? c)%nat) rows = true).
  { apply forallb_forall. intros r Hr. apply Nat.eqb_eq.
    rewrite Forall_forall in H. now apply H. }
  rewrite Hall. reflexivity.
Qed.

(** Reading the rows of one complete descriptor. *)
Lemma read_fp_loop_rows (nat : Datatypes.nat) (rest : list (list R)) :
  forall (rows : list (list R)) (i : Datatypes.nat) (fp_array : list (list R))
         (fps : list ndarray),
    (0 < nat)%nat ->
    (i mod nat + length rows < nat)%nat ->
    (i mod nat = length fp_array)%nat ->
    read_fp_loop nat (rows ++ rest) i fp_array fps
    = read_fp_loop nat rest (i + length rows) (fp_array ++ rows) fps.
Proof.
  induction rows as [|r rows IH]; intros i fp_array fps Hn Hlt Hi.
  - cbn [app length]. now rewrite Nat.add_0_r, app_nil_r.
  - cbn [app length read_fp_loop] in *.
    destruct (Nat.eqb_spec nat 0) as [E|_]; [lia|].
    assert (Hmod : ((i + 1) mod nat = i mod nat + 1)%nat).
    { rewrite Nat.Div0.add_mod by lia.
      destruct (Nat.eq_dec nat 1) as [->|N1]; [lia|].
      rewrite (Nat.mod_small 1 nat) by lia.
      apply Nat.mod_small. lia. }
    destruct (Nat.eqb_spec ((i + 1) mod nat) 0) as [E|_]; [lia|].
    rewrite IH; try lia.
    + rewrite <- app_assoc. cbn [app]. f_equal. lia.
    + rewrite length_app. cbn [length]. lia.
Qed.

(** Reading one complete descriptor of [nat] rows. *)
Lemma read_fp_loop_descriptor (nat : Datatypes.nat) (c : Datatypes.nat)
  (rows rest : list (list R)) (i : Datatypes.nat) (fps : list ndarray) :
  (0 < nat)%nat -> length rows = nat ->
  Forall (fun r => length r = c) rows ->
  (i mod nat = 0)%nat ->
  read_fp_loop nat (rows ++ rest) i [] fps
  = read_fp_loop nat rest (i + nat) [] (fps ++ [Mat c rows]).
Proof.
  intros Hn Hlen Hc Hi.
  destruct (exists_last (l := rows)) as (front & last & ->).
  { intros ->. cbn in Hlen. lia. }
  rewrite length_app in Hlen. cbn [length] in Hlen.
  rewrite <- app_assoc. cbn [app].
  rewrite read_fp_loop_rows by (cbn [length]; lia).
  cbn [app read_fp_loop].
  destruct (Nat.eqb_spec nat 0) as [E|_]; [lia|].
  assert (Hmod : ((i + length front + 1) mod nat = 0)%nat).
  { replace (i + length front + 1)%nat with (i + 1 * nat)%nat by lia.
    rewrite Nat.Div0.mod_add. exact Hi. }
  rewrite Hmod. cbn [Nat.eqb].
  rewrite (np_array_rows_ok c) by (try assumption; now destruct front).
  f_equal. lia.
Qed.

Lemma read_fp_loop_descriptors (nat : Datatypes.nat) (extra : list (list R)) :
  (0 < nat)%nat -> (length extra < nat)%nat ->
  forall (fps' : list ndarray) (i : Datatypes.nat) (fps : list ndarray),
    Forall (is_matrix_of nat) fps' ->
    (i mod nat = 0)%nat ->
    read_fp_loop nat (flat_map fp_lines fps' ++ extra) i [] fps
    = Return (fps ++ fps').
Proof.
  intros Hn Hextra.
  induction fps' as [|fp fps' IH]; intros i fps Hall Hi.
  - cbn [flat_map app]. rewrite app_nil_r.
    replace extra with (extra ++ []) by apply app_nil_r.
    rewrite read_fp_loop_rows by (cbn [length]; lia).
    reflexivity.
  - inversion Hall as [|x l Hfp Hrest]; subst.
    destruct fp as [v|c rows]; [contradiction|].
    destruct Hfp as [Hlen Hc].
    cbn [flat_map fp_lines]. rewrite <- app_assoc.
    rewrite (read_fp_loop_descriptor nat c) by assumption.
    rewrite IH; [|exact Hrest|].
    + rewrite <- app_assoc. reflexivity.
    + replace (i + nat)%nat with (i + 1 * nat)%nat by lia.
      rewrite Nat.Div0.mod_add. exact Hi.
Qed.

Lemma flat_lines (fps : list ndarray) :
  Forall is_flat fps -> map Vec (flat_map fp_lines fps) = fps.
Proof.
  induction 1 as [|fp fps Hfp _ IH]; [reflexivity|].
  destruct fp as [v|c rows]; [|contradiction].
  cbn [flat_map fp_lines app map]. now rewrite IH.
Qed.

(** X20: fp.dat gives back what was written to it.  For a non-periodic
    system, reading the lines written for a list of flat descriptors
    returns that list.  For a periodic system of [nat >= 1] atoms, reading
    the lines written for a list of matrices of [nat] rows each returns that
    list; and when the file ends with fewer than [nat] further lines, these
    are dropped without notice.  For a periodic structure without atoms
    the first line read raises ZeroDivisionError. *)
Theorem fp_cache_round_trip :
  (forall nat fps,
     Forall is_flat fps ->
     _read_fp false nat (flat_map fp_lines fps) = Return fps) /\
  (forall nat fps extra,
     (0 < nat)%nat -> Forall (is_matrix_of nat) fps ->
     (length extra < nat)%nat ->
     _read_fp true nat (flat_map fp_lines fps ++ extra) = Return fps) /\
  (forall line lines, _read_fp true 0 (line :: lines) = Throw ZeroDivisionError).
Proof.
  split; [|split].
  - intros nat fps H. unfold _read_fp. now rewrite flat_lines.
  - intros nat fps extra Hn H Hextra. unfold _read_fp.
    rewrite (read_fp_loop_descriptors nat extra Hn Hextra fps 0 []);
      [reflexivity | exact H | apply Nat.Div0.mod_0_l].
  - reflexivity.
Qed.

Lemma fp_cache_round_trip_witness :
  _read_fp false 3 (flat_map fp_lines [Vec [1; 2]; Vec [3; 4]])
  = Return [Vec [1; 2]; Vec [3; 4]] /\
  _read_fp true 2
    (flat_map fp_lines [Mat 1 [[1]; [2]]; Mat 2 [[3; 4]; [5; 6]]] ++ [[7; 8]])
  = Return [Mat 1 [[1]; [2]]; Mat 2 [[3; 4]; [5; 6]]].
Proof.
  split.
  - apply (proj1 fp_cache_round_trip 3%nat [Vec [1; 2]; Vec [3; 4]]).
    repeat constructor.
  - apply (proj1 (proj2 fp_cache_round_trip) 2%nat
             [Mat 1 [[1]; [2]]; Mat 2 [[3; 4]; [5; 6]]] [[7; 8]]).
    + lia.
    + repeat constructor.
    + cbn. lia.
Defined.

(** X16: min.extxyz and fp.dat stay aligned.  Whatever a run appends to
    the two files, it appends as many descriptors to fp.dat as structures to
    min.extxyz, and the descriptor at each position is the fingerprint of
    the structure at the same position; this is the pairing that a later
    restart relies on when it reads the two files back.  For a non-periodic
    system (flat descriptors) [_read_fp] returns, from the lines that the
    run appended, the fingerprints of the structures that it appended to
    min.extxyz, in order. *)
Theorem run_keeps_fp_cache_aligned (fs : files) (opt : Atoms -> Atoms) (w : world)
  (totalsteps : Z) (st st' : State) :
  0 < minima_threshold (settings st) \/ 0 < energy_threshold (settings st) ->
  __call__ fs opt w totalsteps st = Some (OK st') ->
  exists evs,
    out st' = out st ++ evs /\
    fp_written evs = map omfp (min_written evs) /\
    length (fp_written evs) = length (min_written evs) /\
    (Forall is_flat (fp_written evs) ->
     forall nat, _read_fp false nat (fp_file evs) = Return (map omfp (min_written evs))).
Proof.
  intros Hthr H. unfold __call__ in H.
  destruct (_startup fs opt st) as [st0|e] eqn:E0; [|discriminate].
  destruct (startup_spec _ _ _ _ E0)
    as (S1 & _ & _ & _ & _ & _ & _ & _ & _ & _ & _ & _ & evs0 & line & O0 & _ & _ & _ & _ & _ & Hev).
  set (P := fun s : State =>
    (0 < minima_threshold (settings s) \/ 0 < energy_threshold (settings s)) /\
    exists evs, out s = out st ++ evs /\
                fp_written evs = map omfp (min_written evs)).
  assert (HP : P st').
  { apply (call_loop_invariant P w totalsteps) with (5 := H).
    - intros outcomes s s' (T1 & evs & O & A) Hh.
      pose proof (hop_counters _ _ _ Hh) as (C1 & _).
      destruct (hop_out _ _ _ Hh)
        as (s1 & s2 & n & fp & pos & l & H1 & _ & _ & Hfp & O' &
            (P1 & P2 & _) & _).
      destruct (escape_quiet _ _ _ H1) as (evs1 & O1 & Q1 & Q2 & _).
      destruct (escape_counts _ _ _ T1 H1) as (_ & _ & _ & _ & F).
      assert (fp = omfp (_atoms s1)) by congruence. subst fp.
      unfold P. rewrite C1. split; [exact T1|].
      eexists. rewrite O', O1, O, <- !app_assoc. split; [reflexivity|].
      rewrite !fp_written_app, !min_written_app, map_app, A, Q1, Q2, P1, P2.
      destruct (1 <? n)%Z; destruct (tag_eqb (_acc_rej s2) Accepted); reflexivity.
    - intros s k (T1 & evs & O & A). split; [exact T1|].
      exists (evs ++ [PrintTimeOver k]). unfold emit. cbn [out set_out].
      rewrite O, app_assoc. split; [reflexivity|].
      rewrite fp_written_app, min_written_app, map_app, A. reflexivity.
    - intros s k d h m x (T1 & evs & O & A). split; [exact T1|].
      exists (evs ++ [PrintTerminated k d h m x]). unfold emit. cbn [out set_out].
      rewrite O, app_assoc. split; [reflexivity|].
      rewrite fp_written_app, min_written_app, map_app, A. reflexivity.
    - unfold P. rewrite S1. split; [exact Hthr|].
      eexists. split; [exact O0|].
      rewrite fp_written_app, min_written_app.
      destruct (is_restart fs (settings st)).
      + destruct Hev as (ws & ->).
        now rewrite fp_written_warns, min_written_warns.
      + destruct Hev as (-> & _). reflexivity. }
  destruct HP as (_ & evs & O & A).
  exists evs. split; [exact O|]. split; [exact A|].
  split; [rewrite A; apply length_map|].
  intros Hflat nat. unfold _read_fp, fp_file.
  rewrite (flat_lines _ Hflat). now rewrite A.
Qed.

Lemma run_keeps_fp_cache_aligned_witness :
  exists st' evs,
    __call__ no_files identity_opt rejecting_world 1 fresh_state = Some (OK st') /\
    out st' = out fresh_state ++ evs /\
    fp_written evs = map omfp (min_written evs).
Proof.
  destruct rejecting_call as (st' & H).
  destruct (run_keeps_fp_cache_aligned no_files identity_opt rejecting_world 1
              fresh_state st') as (evs & O & A & _).
  - left. cbn. lra.
  - exact H.
  - exists st', evs. repeat split; assumption.
Defined.

(** * The constructor *)

Lemma check_keywords_known (keys : list string) :
  Forall (fun k => dict_mem _default_settings_dict k = true) keys ->
  check_keywords keys = Return tt.
Proof.
  induction 1 as [|k keys Hk _ IH]; cbn [check_keywords]; [reflexivity|].
  rewrite Hk. exact IH.
Qed.

Lemma check_keywords_unknown (known : list string) (k : string) (rest : list string) :
  Forall (fun k => dict_mem _default_settings_dict k = true) known ->
  dict_mem _default_settings_dict k = false ->
  check_keywords (known ++ k :: rest)
  = Throw (RuntimeError (String.append "Unknown keyword: " k)).
Proof.
  induction 1 as [|k' keys Hk _ IH]; intros Hu; cbn [check_keywords app].
  - rewrite Hu. reflexivity.
  - rewrite Hk. apply IH. exact Hu.
Qed.

(** X21: the constructor and its keywords.  A keyword that is not a
    setting makes [__init__] raise RuntimeError, naming the first such
    keyword in the order of the call.  Otherwise every setting becomes an
    attribute (its name prefixed with an underscore) holding the value given
    for it, or its default when none is given, whatever the type of the
    value; the temperature and the acceptance threshold start from [_T0]
    and [_Ediff0], the counter from 0.  With the keywords of main.py, and
    with none, the settings that the controller reads are the defaults. *)
Theorem init_keywords (atoms : Atoms) :
  (forall known k v rest,
     Forall (fun kv => dict_mem _default_settings_dict (fst kv) = true) known ->
     dict_mem _default_settings_dict k = false ->
     __init__kwargs atoms (known ++ (k, v) :: rest)
     = Throw (RuntimeError (String.append "Unknown keyword: " k))) /\
  (forall kwargs,
     Forall (fun kv => dict_mem _default_settings_dict (fst kv) = true) kwargs ->
     exists attrs,
       __init__kwargs atoms kwargs = Return (mkInstance atoms attrs) /\
       (forall k v, In (k, v) _default_settings_dict ->
          dict_get attrs (String.append "_" k) = Some (kwargs_pop kwargs k v)) /\
       dict_get attrs "_temperature" = dict_get attrs "_T0" /\
       dict_get attrs "_Ediff" = dict_get attrs "_Ediff0" /\
       dict_get attrs "_counter" = Some (PyInt 0)) /\
  (exists attrs,
     __init__kwargs atoms main_kwargs = Return (mkInstance atoms attrs) /\
     settings_of attrs = Some _default_settings) /\
  (exists attrs,
     __init__kwargs atoms [] = Return (mkInstance atoms attrs) /\
     settings_of attrs = Some _default_settings).
Proof.
  split; [|split; [|split]].
  - intros known k v rest Hk Hu. unfold __init__kwargs.
    rewrite map_app. cbn [map fst].
    rewrite check_keywords_unknown; [reflexivity | | exact Hu].
    apply Forall_forall. intros x Hx. apply in_map_iff in Hx.
    destruct Hx as (kv & <- & Hkv). rewrite Forall_forall in Hk. now apply Hk.
  - intros kwargs Hk. unfold __init__kwargs.
    rewrite check_keywords_known.
    2:{ apply Forall_forall. intros x Hx. apply in_map_iff in Hx.
        destruct Hx as (kv & <- & Hkv). rewrite Forall_forall in Hk. now apply Hk. }
    eexists. split; [reflexivity|].
    split; [|repeat split; reflexivity].
    intros k v Hin. cbn [In _default_settings_dict] in Hin.
    repeat (destruct Hin as [Hin|Hin]; [injection Hin as <- <-; reflexivity|]).
    contradiction.
  - eexists. split; reflexivity.
  - eexists. split; reflexivity.
Qed.

Lemma init_keywords_witness :
  __init__kwargs (structure 0 0) [("T0", PyInt 500); ("dt0", PyFloat 0.01)]
  = Throw (RuntimeError "Unknown keyword: dt0") /\
  exists attrs,
    __init__kwargs (structure 0 0) main_kwargs
    = Return (mkInstance (structure 0 0) attrs) /\
    dict_get attrs "_mdmin" = Some (PyInt 1) /\
    dict_get attrs "_T0" = Some (PyFloat 2000).
Proof.
  split.
  - apply (proj1 (init_keywords (structure 0 0))
             [("T0", PyInt 500)] "dt0" (PyFloat 0.01) []);
      [repeat constructor | reflexivity].
  - destruct (proj1 (proj2 (init_keywords (structure 0 0))) main_kwargs)
      as (attrs & H & Hall & _); [repeat constructor|].
    exists attrs. split; [exact H|]. split.
    + apply (Hall "mdmin" (PyInt 2)). do 12 right. left. reflexivity.
    + apply (Hall "T0" (PyFloat 2000)). left. reflexivity.
Defined.
